(** * Order ledger of the trading dashboard: a shallow embedding

    The dashboard keeps one in-memory ledger ([window.ordersManager.ordersData])
    that is read and written by [OrdersManager] (new-entry form, edit, close,
    filters), by [ModalsManager] (the confirmation modal and the two confirmed
    operations) and validated against the lists [window.app.availableExchanges]
    and [window.app.availableSymbols].

    JavaScript objects are records whose optional members are [option]s, arrays
    are lists, and every function is a state transformer on [App], the part of
    the page state those functions read or write.  [alert] calls and the bodies
    POSTed to [/api/orders] are logged in the state.  The clock and the DOM
    inputs are arguments.

    Around the ledger the development also covers what the page shows of it
    (the accordion, the three tables of a symbol and their filters, a row in
    edit mode), the selects filled from the catalogs, the symbols modal, and
    the panels and sections driven by [UIManager], each as a state of its own
    with its handlers. *)

From Stdlib Require Import ZArith QArith List String Ascii Lia Sorted.
From stdpp Require Import base list strings gmap.
Close Scope Q_scope.
Open Scope string_scope.
Open Scope list_scope.

(** ** JavaScript values used by the ledger *)

(** Numbers that an identifier computation can produce.  [Math.max()] of no
    argument is [-Infinity]; the finite values are the integers that are
    doubles: every integer up to 2^53 in absolute value and, beyond, the
    multiples of the spacing of their binade. *)
Inductive JSNum :=
| NegInf
| Num (z : Z).

(** The [id] member of an entry: absent, [null] (what JSON makes of a
    non-finite number) or a number. *)
Inductive IdVal :=
| IdUndefined
| IdNull
| IdNumber (n : JSNum).

#[global] Instance JSNum_eq_dec : EqDecision JSNum.
Proof. solve_decision. Defined.

#[global] Instance IdVal_eq_dec : EqDecision IdVal.
Proof. solve_decision. Defined.

(** [v || 0] on an identifier: [undefined], [null] and [0] are falsy. *)
Definition id_or_0 (v : IdVal) : JSNum :=
  match v with
  | IdNumber (Num z) => Num z
  | IdNumber NegInf => NegInf
  | IdUndefined | IdNull => Num 0
  end.

Definition js_max (a b : JSNum) : JSNum :=
  match a, b with
  | NegInf, x => x
  | x, NegInf => x
  | Num x, Num y => Num (Z.max x y)
  end.

(** [Math.max(...l)] *)
Definition Math_max (l : list JSNum) : JSNum := foldr js_max NegInf l.

(** The double nearest to the integer [x], ties to the even significand
    (below the overflow threshold 2^1024): [x] itself up to 2^53 in absolute
    value; beyond, [x] is cut to the 53 leading bits and rounded. *)
Definition round_to_double (x : Z) : Z :=
  let a := Z.abs x in
  if (a <? 2 ^ 53)%Z then x
  else
    let e := (Z.log2 a - 52)%Z in
    let q := (a / 2 ^ e)%Z in
    let r := (a mod 2 ^ e)%Z in
    let half := (2 ^ (e - 1))%Z in
    let q' := if ((half <? r) || ((r =? half) && Z.odd q))%Z then (q + 1)%Z else q in
    (Z.sgn x * (q' * 2 ^ e))%Z.

(** [n + 1] in double arithmetic: exact up to 2^53, and 2^53 + 1 is 2^53
    again. *)
Definition js_add1 (n : JSNum) : JSNum :=
  match n with
  | NegInf => NegInf
  | Num z => Num (round_to_double (z + 1))
  end.

(** [a < b] on numbers *)
Definition js_lt (a b : JSNum) : Prop :=
  match a, b with
  | NegInf, NegInf => False
  | NegInf, Num _ => True
  | Num _, NegInf => False
  | Num x, Num y => (x < y)%Z
  end.

(** [JSON.parse(JSON.stringify(v))] on an identifier. *)
Definition json_id (v : IdVal) : IdVal :=
  match v with
  | IdNumber NegInf => IdNull
  | v => v
  end.

(** [x || d] on the result of [parseFloat]: [None] is [NaN]. *)
Definition float_or (x : option Q) (d : Q) : Q :=
  match x with
  | Some q => if Qeq_bool q 0 then d else q
  | None => d
  end.

(** Truthiness of a string. *)
Definition truthy (s : string) : bool := negb (String.eqb s EmptyString).

(** ** Data model *)

(** An entry as the code reads and writes it.  The members the code treats
    as possibly absent are options: [date], [close_date], and the five
    derived members that [saveOrder] adds when they are not [in] the
    object. *)
Record Order := mkOrder {
  id : IdVal;
  symbol : string;
  exchange : string;
  side : string;
  type : string;
  open_type : string;
  leverage : Q;
  price : Q;
  amount : Q;
  stop_loss : Q;
  take_profit : Q;
  fee : Q;
  amount_usdt : Q;
  pls : option Q;
  pls_percentage : option Q;
  price_liquidation : option Q;
  take_profit_pls : option Q;
  stop_loss_pls : option Q;
  date : option string;
  close_date : option string
}.

Definition set_id (v : IdVal) (o : Order) : Order :=
  mkOrder v (symbol o) (exchange o) (side o) (type o) (open_type o)
    (leverage o) (price o) (amount o) (stop_loss o) (take_profit o) (fee o)
    (amount_usdt o) (pls o) (pls_percentage o) (price_liquidation o)
    (take_profit_pls o) (stop_loss_pls o) (date o) (close_date o).

Definition set_open_type (v : string) (o : Order) : Order :=
  mkOrder (id o) (symbol o) (exchange o) (side o) (type o) v
    (leverage o) (price o) (amount o) (stop_loss o) (take_profit o) (fee o)
    (amount_usdt o) (pls o) (pls_percentage o) (price_liquidation o)
    (take_profit_pls o) (stop_loss_pls o) (date o) (close_date o).

Definition set_close_date (v : string) (o : Order) : Order :=
  mkOrder (id o) (symbol o) (exchange o) (side o) (type o) (open_type o)
    (leverage o) (price o) (amount o) (stop_loss o) (take_profit o) (fee o)
    (amount_usdt o) (pls o) (pls_percentage o) (price_liquidation o)
    (take_profit_pls o) (stop_loss_pls o) (date o) (Some v).

(** [JSON.parse(JSON.stringify(o))]: strings and finite numbers survive,
    absent members stay absent, a non-finite identifier becomes [null]. *)
Definition json_roundtrip (o : Order) : Order := set_id (json_id (id o)) o.

(** [symbolData.active] *)
Record Active := mkActive {
  orders : option (list Order);
  positions : option (list Order)
}.

(** One element of [ordersData]. *)
Record SymbolData := mkSymbolData {
  sd_symbol : string;
  active : option Active;
  closed : option (list Order)
}.

Definition Ledger := list SymbolData.

(** [a || []] *)
Definition or_empty (a : option (list Order)) : list Order := default [] a.

(** [symbolData.active?.orders] and [symbolData.active?.positions] *)
Definition active_orders (sd : SymbolData) : option (list Order) :=
  active sd ≫= orders.

Definition active_positions (sd : SymbolData) : option (list Order) :=
  active sd ≫= positions.

(** ** Page state *)

Inductive Operation := OpSave | OpClose.

(** The confirmation modal: whether its elements are in the document,
    whether it is displayed, and the [dataset] of the confirm button. *)
Record Modal := mkModal {
  modal_present : bool;
  modal_display : bool;
  dataset_operation : option Operation;
  dataset_orderData : option Order
}.

Record App := mkApp {
  ordersData : Ledger;
  availableExchanges : list string;
  availableSymbols : list string;
  confirmationModal : Modal;
  alerts : list string;
  requests : list Ledger
}.

Definition set_ordersData (l : Ledger) (a : App) : App :=
  mkApp l (availableExchanges a) (availableSymbols a) (confirmationModal a)
    (alerts a) (requests a).

Definition set_confirmationModal (m : Modal) (a : App) : App :=
  mkApp (ordersData a) (availableExchanges a) (availableSymbols a) m
    (alerts a) (requests a).

(** [alert(msg)] *)
Definition alert (msg : string) (a : App) : App :=
  mkApp (ordersData a) (availableExchanges a) (availableSymbols a)
    (confirmationModal a) (alerts a ++ [msg]) (requests a).

(** [fetch("/api/orders", {method: "POST", body: {orders: ordersData}})] *)
Definition post_orders (a : App) : App :=
  mkApp (ordersData a) (availableExchanges a) (availableSymbols a)
    (confirmationModal a) (alerts a) (requests a ++ [ordersData a]).

(** [list.includes(s)] *)
Definition includes (l : list string) (s : string) : bool :=
  existsb (String.eqb s) l.

(** ** [OrdersManager.saveNewOrder] *)

(** The inputs of the new-entry form.  The text inputs are their [value];
    a numeric input is given by what [parseFloat] returns on its value
    ([None] for [NaN]). *)
Record NewOrderForm := mkNewOrderForm {
  newOrderSymbol : string;
  newOrderExchange : string;
  newOrderSide : string;
  newOrderType : string;
  newOrderOpenType : string;
  newOrderLeverage : option Q;
  newOrderPrice : option Q;
  newOrderAmount : option Q;
  newOrderStopLoss : option Q;
  newOrderTakeProfit : option Q;
  newOrderFee : option Q;
  newOrderAmountUsdt : option Q
}.

(** The object literal [orderData]; [now] is
    [new Date().toISOString().slice(0, 19).replace("T", " ")]. *)
Definition new_orderData (f : NewOrderForm) (now : string) : Order :=
  {| id := IdUndefined;
     symbol := newOrderSymbol f;
     exchange := newOrderExchange f;
     side := newOrderSide f;
     type := newOrderType f;
     open_type := newOrderOpenType f;
     leverage := float_or (newOrderLeverage f) 1;
     price := float_or (newOrderPrice f) 0;
     amount := float_or (newOrderAmount f) 0;
     stop_loss := float_or (newOrderStopLoss f) 0;
     take_profit := float_or (newOrderTakeProfit f) 0;
     fee := float_or (newOrderFee f) (1 # 1000);
     amount_usdt := float_or (newOrderAmountUsdt f) 0;
     pls := Some 0%Q;
     pls_percentage := Some 0%Q;
     price_liquidation := Some 0%Q;
     take_profit_pls := Some 0%Q;
     stop_loss_pls := Some 0%Q;
     date := Some now;
     close_date := None |}.

(** [arr.map((o) => o.id || 0)] *)
Definition ids_or_0 (l : list Order) : list JSNum := map (fun o => id_or_0 (id o)) l.

(** The callback of [flatMap] in the identifier computation. *)
Definition symbol_ids (sd : SymbolData) : list JSNum :=
  ids_or_0 (or_empty (active_orders sd))
  ++ ids_or_0 (or_empty (active_positions sd))
  ++ ids_or_0 (or_empty (closed sd)).

Definition maxId (l : Ledger) : JSNum := Math_max (flat_map symbol_ids l).

(** The body of the [for] loop of [saveNewOrder] once the symbol matches. *)
Definition add_to_symbol (orderData : Order) (sd : SymbolData) : SymbolData :=
  let a := default (mkActive (Some []) (Some [])) (active sd) in
  if String.eqb (type orderData) "market" then
    mkSymbolData (sd_symbol sd)
      (Some (mkActive (orders a) (Some (or_empty (positions a) ++ [orderData]))))
      (closed sd)
  else if String.eqb (type orderData) "limit" then
    mkSymbolData (sd_symbol sd)
      (Some (mkActive (Some (or_empty (orders a) ++ [orderData])) (positions a)))
      (closed sd)
  else mkSymbolData (sd_symbol sd) (Some a) (closed sd).

(** The [for] loop with its [break]: [None] when [symbolExists] stays
    false. *)
Fixpoint add_loop (orderData : Order) (l : Ledger) : option Ledger :=
  match l with
  | [] => None
  | sd :: rest =>
      if String.eqb (sd_symbol sd) (symbol orderData)
      then Some (add_to_symbol orderData sd :: rest)
      else cons sd <$> add_loop orderData rest
  end.

(** The object pushed when [symbolExists] is false. *)
Definition new_symbol_entry (orderData : Order) : SymbolData :=
  mkSymbolData (symbol orderData)
    (Some (mkActive
       (Some (if String.eqb (type orderData) "limit" then [orderData] else []))
       (Some (if String.eqb (type orderData) "market" then [orderData] else []))))
    (Some []).

Definition validSides : list string := ["long"; "short"].
Definition validTypes : list string := ["market"; "limit"].

Definition invalid_exchange_msg (a : App) : string :=
  String.append "Please select a valid exchange. Available: "
    (String.concat ", " (availableExchanges a)).

Definition invalid_symbol_msg (a : App) : string :=
  String.append "Please select a valid symbol. Available: "
    (String.concat ", " (availableSymbols a)).

(** [form] is [None] when the element [addOrderForm] is not in the
    document. *)
Definition saveNewOrder (form : option NewOrderForm) (now : string) (a : App) : App :=
  match form with
  | None => a
  | Some f =>
      let orderData := new_orderData f now in
      if negb (truthy (symbol orderData)) || negb (truthy (exchange orderData))
         || negb (truthy (side orderData)) || negb (truthy (type orderData))
      then alert "Please fill in all required fields" a
      else
        let orderData :=
          if truthy (open_type orderData) then orderData
          else set_open_type "isolated" orderData in
        if negb (includes (availableExchanges a) (exchange orderData))
        then alert (invalid_exchange_msg a) a
        else if negb (includes (availableSymbols a) (symbol orderData))
        then alert (invalid_symbol_msg a) a
        else if negb (includes validSides (side orderData))
        then alert "Please select a valid side (Long or Short)" a
        else if negb (includes validTypes (type orderData))
        then alert "Please select a valid type (Market or Limit)" a
        else
          let orderData := set_id (IdNumber (js_add1 (maxId (ordersData a)))) orderData in
          let data :=
            match add_loop orderData (ordersData a) with
            | Some l => l
            | None => ordersData a ++ [new_symbol_entry orderData]
            end in
          post_orders (set_ordersData data a)
  end.

(** ** [ModalsManager.performSaveOperation] *)

(** [arr.findIndex((p) => p.id === orderData.id)]; [None] is [-1]. *)
Definition findIndex_id (v : IdVal) (l : list Order) : option nat :=
  fst <$> list_find (fun p => id p = v) l.

(** Replace at the index found, or push. *)
Definition update_or_push (orderData : Order) (l : list Order) : list Order :=
  match findIndex_id (id orderData) l with
  | Some i => <[i := orderData]> l
  | None => l ++ [orderData]
  end.

(** The body of the loop once the symbol matches; the boolean is
    [orderUpdated]. *)
Definition save_in_symbol (orderData : Order) (sd : SymbolData) : SymbolData * bool :=
  match active sd with
  | None => (sd, false)
  | Some a =>
      match String.eqb (type orderData) "market", positions a with
      | true, Some ps =>
          (mkSymbolData (sd_symbol sd)
             (Some (mkActive (orders a) (Some (update_or_push orderData ps))))
             (closed sd), true)
      | _, _ =>
          match String.eqb (type orderData) "limit", orders a with
          | true, Some os =>
              (mkSymbolData (sd_symbol sd)
                 (Some (mkActive (Some (update_or_push orderData os)) (positions a)))
                 (closed sd), true)
          | _, _ => (sd, false)
          end
      end
  end.

Fixpoint save_loop (orderData : Order) (l : Ledger) : Ledger * bool :=
  match l with
  | [] => ([], false)
  | sd :: rest =>
      if String.eqb (sd_symbol sd) (symbol orderData)
      then let '(sd', updated) := save_in_symbol orderData sd in (sd' :: rest, updated)
      else let '(rest', updated) := save_loop orderData rest in (sd :: rest', updated)
  end.

(** [newSymbolData]: only the collection of the entry's type is created,
    and no [closed]. *)
Definition newSymbolData (orderData : Order) : SymbolData :=
  if String.eqb (type orderData) "market"
  then mkSymbolData (symbol orderData) (Some (mkActive None (Some [orderData]))) None
  else if String.eqb (type orderData) "limit"
  then mkSymbolData (symbol orderData) (Some (mkActive (Some [orderData]) None)) None
  else mkSymbolData (symbol orderData) (Some (mkActive None None)) None.

Definition performSaveOperation (orderData : Order) (a : App) : App :=
  if negb (truthy (symbol orderData)) || negb (truthy (exchange orderData))
     || negb (truthy (side orderData)) || negb (truthy (type orderData))
  then alert "Error: Missing required order fields" a
  else
    let '(data, orderUpdated) := save_loop orderData (ordersData a) in
    let data := if orderUpdated then data else data ++ [newSymbolData orderData] in
    post_orders (set_ordersData data a).

(** ** [ModalsManager.performCloseOperation] *)

(** The body of the loop once the symbol matches. *)
Definition close_in_symbol (orderData : Order) (now : string) (sd : SymbolData) : SymbolData :=
  let act :=
    match active sd with
    | None => None
    | Some a =>
        match String.eqb (type orderData) "market", positions a with
        | true, Some ps =>
            Some (mkActive (orders a) (Some (filter (fun p => id p ≠ id orderData) ps)))
        | _, _ =>
            match String.eqb (type orderData) "limit", orders a with
            | true, Some os =>
                Some (mkActive (Some (filter (fun o => id o ≠ id orderData) os)) (positions a))
            | _, _ => Some a
            end
        end
    end in
  mkSymbolData (sd_symbol sd) act
    (Some (or_empty (closed sd) ++ [set_close_date now orderData])).

Fixpoint close_loop (orderData : Order) (now : string) (l : Ledger) : Ledger :=
  match l with
  | [] => []
  | sd :: rest =>
      if String.eqb (sd_symbol sd) (symbol orderData)
      then close_in_symbol orderData now sd :: rest
      else sd :: close_loop orderData now rest
  end.

Definition performCloseOperation (orderData : Order) (now : string) (a : App) : App :=
  post_orders (set_ordersData (close_loop orderData now (ordersData a)) a).

(** ** The confirmation modal: staging, cancelling, confirming *)

(** [OrdersManager.showConfirmationModal]: when the modal's elements are in
    the document, the operation and the JSON text of the payload are stored
    on the confirm button and the modal is displayed.  The title, message
    and details it renders are not part of the model. *)
Definition showConfirmationModal (operation : Operation) (orderData : Order) (a : App) : App :=
  let m := confirmationModal a in
  if modal_present m then
    set_confirmationModal
      (mkModal true true (Some operation) (Some (json_roundtrip orderData))) a
  else a.

(** The click handlers that [setupConfirmationModal] installs on the cancel
    button and on the close button: both only hide the modal. *)
Definition confirmationCancelBtn_click (a : App) : App :=
  let m := confirmationModal a in
  set_confirmationModal
    (mkModal (modal_present m) false (dataset_operation m) (dataset_orderData m)) a.

Definition confirmationModalClose_click (a : App) : App :=
  confirmationCancelBtn_click a.

(** The object [{}] that the confirm handler parses when the button carries
    no payload: every member is absent. *)
Definition empty_object : Order :=
  mkOrder IdUndefined EmptyString EmptyString EmptyString EmptyString
    EmptyString 0%Q 0%Q 0%Q 0%Q 0%Q 0%Q 0%Q
    None None None None None None None.

(** The click handler of the confirm button. *)
Definition confirmationConfirmBtn_click (now : string) (a : App) : App :=
  let m := confirmationModal a in
  let orderData := default empty_object (dataset_orderData m) in
  let a' :=
    match dataset_operation m with
    | Some OpSave => performSaveOperation orderData a
    | Some OpClose => performCloseOperation orderData now a
    | None => a
    end in
  confirmationCancelBtn_click a'.

(** ** [OrdersManager.saveOrder], [closeOrder], [editOrder], [cancelEdit] *)

(** [ordersData.find((data) => data.symbol === symbol)] *)
Definition find_symbol (s : string) (l : Ledger) : option SymbolData :=
  snd <$> list_find (fun sd => sd_symbol sd = s) l.

(** The entry that [saveOrder] and [closeOrder] read at [index] of the
    collection named by [type]; [None] is [undefined]. *)
Definition order_at (sd : SymbolData) (type_ : string) (index : nat) : option Order :=
  match String.eqb type_ "orders", active_orders sd with
  | true, Some os => os !! index
  | _, _ =>
      match String.eqb type_ "positions", active_positions sd with
      | true, Some ps => ps !! index
      | _, _ => None
      end
  end.

(** The table row of an entry as [saveOrder] queries it: the number of
    elements of class [edit-input], and the value of each select and input
    it looks for ([None] when the element is not there; a numeric input is
    given by what [parseFloat] returns on its value). *)
Record Row := mkRow {
  edit_inputs : nat;
  exchangeSelect : option string;
  sideSelect : option string;
  typeSelect : option string;
  priceInput : option (option Q);
  amountInput : option (option Q);
  leverageInput : option (option Q);
  stopLossInput : option (option Q);
  takeProfitInput : option (option Q)
}.

(** [updatedOrder]: the copy of the entry overwritten from the row, with
    the derived members defaulted when absent. *)
Definition updatedOrder (r : Row) (o : Order) : Order :=
  mkOrder (id o) (symbol o)
    (default (exchange o) (exchangeSelect r))
    (default (side o) (sideSelect r))
    (default (type o) (typeSelect r))
    (open_type o)
    (from_option (fun v => float_or v 1) (leverage o) (leverageInput r))
    (from_option (fun v => float_or v 0) (price o) (priceInput r))
    (from_option (fun v => float_or v 0) (amount o) (amountInput r))
    (from_option (fun v => float_or v 0) (stop_loss o) (stopLossInput r))
    (from_option (fun v => float_or v 0) (take_profit o) (takeProfitInput r))
    (fee o) (amount_usdt o)
    (Some (default 0%Q (pls o)))
    (Some (default 0%Q (pls_percentage o)))
    (Some (default 0%Q (price_liquidation o)))
    (Some (default 0%Q (take_profit_pls o)))
    (Some (default 0%Q (stop_loss_pls o)))
    (date o) (close_date o).

(** [row] is [None] when the table row is not in the document. *)
Definition saveOrder (symbol_ type_ : string) (index : nat) (row : option Row) (a : App) : App :=
  match find_symbol symbol_ (ordersData a) with
  | None => a
  | Some symbolData =>
      match order_at symbolData type_ index with
      | None => a
      | Some order =>
          match row with
          | None => a
          | Some r =>
              if Nat.eqb (edit_inputs r) 0 then showConfirmationModal OpSave order a
              else
                let updated := updatedOrder r order in
                if negb (includes (availableExchanges a) (exchange updated))
                then alert (invalid_exchange_msg a) a
                else if negb (includes (availableSymbols a) (symbol updated))
                then alert (invalid_symbol_msg a) a
                else showConfirmationModal OpSave updated a
          end
      end
  end.

Definition closeOrder (symbol_ type_ : string) (index : nat) (a : App) : App :=
  match find_symbol symbol_ (ordersData a) with
  | None => a
  | Some symbolData =>
      match order_at symbolData type_ index with
      | None => a
      | Some order => showConfirmationModal OpClose order a
      end
  end.

(** [editOrder] and [cancelEdit] rebuild cells of the table row and touch
    nothing else. *)
Definition editOrder (symbol_ type_ : string) (index : nat) (a : App) : App := a.

Definition cancelEdit (symbol_ type_ : string) (index : nat) (a : App) : App := a.

(** ** [AppCore.loadAvailableExchanges], [loadAvailableSymbols] *)

(** An element of [utils/exchange.json] and of [utils/symbols.json]. *)
Record ExchangeRecord := mkExchangeRecord { ex_exchange : string; ex_use : bool }.
Record SymbolRecord := mkSymbolRecord { sym_symbol : string; sym_use : bool }.

Definition fallbackExchanges : list string := ["gate"; "bitget"; "bingx"; "mexc"].

Definition fallbackSymbols : list string :=
  ["BTC/USDT"; "ETH/USDT"; "BTC/USDT:USDT"; "ETH/USDT:USDT"].

Definition set_availableExchanges (l : list string) (a : App) : App :=
  mkApp (ordersData a) l (availableSymbols a) (confirmationModal a)
    (alerts a) (requests a).

Definition set_availableSymbols (l : list string) (a : App) : App :=
  mkApp (ordersData a) (availableExchanges a) l (confirmationModal a)
    (alerts a) (requests a).

(** [response] is the parsed body of the fetch, [None] when the promise
    rejects (the [catch] branch). *)
Definition loadAvailableExchanges (response : option (list ExchangeRecord)) (a : App) : App :=
  match response with
  | Some data =>
      set_availableExchanges (map ex_exchange (List.filter ex_use data)) a
  | None => set_availableExchanges fallbackExchanges a
  end.

Definition loadAvailableSymbols (response : option (list SymbolRecord)) (a : App) : App :=
  match response with
  | Some data =>
      set_availableSymbols (map sym_symbol (List.filter sym_use data)) a
  | None => set_availableSymbols fallbackSymbols a
  end.

(** ** Dates

    A time value is a number of milliseconds since the epoch; [None] is the
    invalid date, whose time value is [NaN].  What [new Date(s)] makes of
    an arbitrary string is left to the browser, and the filters below take
    that reading as an argument.  [DateModel.Date] is the reading of the
    two shapes of string that the dashboard itself writes, by a browser
    whose [getTimezoneOffset()] (UTC minus local time, in minutes) is
    [tzOffset] at the dates read: the value of a date input,
    [YYYY-MM-DD], is midnight UTC, and an entry timestamp
    [YYYY-MM-DD HH:MM:SS] is local time.  It says nothing of other strings
    (the forms with [T], a day beyond the length of its month, ...), on
    which it returns [None] whatever the browser does: the properties
    stated with it are about strings of the two shapes. *)
Module DateModel.

Definition digit (c : ascii) : option Z :=
  let n := Z.of_nat (nat_of_ascii c) in
  if (48 <=? n)%Z && (n <=? 57)%Z then Some (n - 48)%Z else None.

(** The value of a non-empty string of decimal digits. *)
Fixpoint digits_from (acc : Z) (s : string) : option Z :=
  match s with
  | EmptyString => Some acc
  | String c rest =>
      match digit c with
      | Some d => digits_from (10 * acc + d)%Z rest
      | None => None
      end
  end.

Definition parse_digits (s : string) : option Z :=
  match s with
  | EmptyString => None
  | _ => digits_from 0%Z s
  end.

Definition is_leap (y : Z) : bool :=
  ((y mod 4 =? 0) && negb (y mod 100 =? 0) || (y mod 400 =? 0))%Z.

Definition days_in_month (y m : Z) : Z :=
  if (m =? 2)%Z then (if is_leap y then 29 else 28)%Z
  else if ((m =? 4) || (m =? 6) || (m =? 9) || (m =? 11))%Z then 30%Z
  else 31%Z.

(** Days from 1970-01-01 to the civil date [y]-[m]-[d]. *)
Definition days_from_civil (y m d : Z) : Z :=
  let y' := (if m <=? 2 then y - 1 else y)%Z in
  let era := (y' / 400)%Z in
  let yoe := (y' - era * 400)%Z in
  let mp := (if 2 <? m then m - 3 else m + 9)%Z in
  let doy := ((153 * mp + 2) / 5 + d - 1)%Z in
  let doe := (yoe * 365 + yoe / 4 - yoe / 100 + doy)%Z in
  (era * 146097 + doe - 719468)%Z.

Definition char_at (n : nat) (s : string) : option ascii := String.get n s.

(** [YYYY-MM-DD] *)
Definition parse_ymd (s : string) : option (Z * Z * Z) :=
  if Nat.eqb (String.length s) 10
     && bool_decide (char_at 4 s = Some "-"%char)
     && bool_decide (char_at 7 s = Some "-"%char)
  then
    y ← parse_digits (substring 0 4 s);
    m ← parse_digits (substring 5 2 s);
    d ← parse_digits (substring 8 2 s);
    if ((1 <=? m) && (m <=? 12) && (1 <=? d) && (d <=? days_in_month y m))%Z
    then Some (y, m, d) else None
  else None.

(** [HH:MM:SS], as seconds since midnight *)
Definition parse_hms (s : string) : option Z :=
  if Nat.eqb (String.length s) 8
     && bool_decide (char_at 2 s = Some ":"%char)
     && bool_decide (char_at 5 s = Some ":"%char)
  then
    h ← parse_digits (substring 0 2 s);
    m ← parse_digits (substring 3 2 s);
    sec ← parse_digits (substring 6 2 s);
    if ((h <=? 23) && (m <=? 59) && (sec <=? 59))%Z
    then Some (3600 * h + 60 * m + sec)%Z else None
  else None.

(** [YYYY-MM-DD HH:MM:SS]: the civil date and the seconds since midnight *)
Definition parse_ymd_hms (s : string) : option (Z * Z * Z * Z) :=
  if Nat.eqb (String.length s) 19 && bool_decide (char_at 10 s = Some " "%char)
  then
    '(y, m, d) ← parse_ymd (substring 0 10 s);
    secs ← parse_hms (substring 11 8 s);
    Some (y, m, d, secs)
  else None.

(** The time value of [new Date(s)]. *)
Definition Date (tzOffset : Z) (s : string) : option Z :=
  match parse_ymd s with
  | Some (y, m, d) => Some (days_from_civil y m d * 86400000)%Z
  | None =>
      match parse_ymd_hms s with
      | Some (y, m, d, secs) =>
          Some (days_from_civil y m d * 86400000 + secs * 1000
                + tzOffset * 60000)%Z
      | None => None
      end
  end.

(** [a < b] on two dates: false as soon as one is invalid. *)
Definition Date_lt (a b : option Z) : bool :=
  match a, b with
  | Some x, Some y => (x <? y)%Z
  | _, _ => false
  end.

End DateModel.

(** ** [OrdersManager.loadOrdersGroup]: the filters of one collection *)

(** Truthiness of an optional string member. *)
Definition truthy_opt (s : option string) : bool :=
  match s with
  | Some v => truthy v
  | None => false
  end.

(** [new Date(item.date)] where [item.date] is known truthy; [newDate] is
    the browser's reading of a string. *)
Definition item_Date_with (newDate : string -> option Z) (item : Order) : option Z :=
  newDate (default EmptyString (date item)).

Definition item_Date (tzOffset : Z) (item : Order) : option Z :=
  item_Date_with (DateModel.Date tzOffset) item.

(** The three early [return]s of the [forEach] callback: [true] when the
    item is skipped.  An unset filter is the empty string. *)
Definition skipped_by_exchange (exchangeFilter : string) (item : Order) : bool :=
  truthy exchangeFilter && negb (String.eqb (exchange item) exchangeFilter).

Definition skipped_by_dateFrom_with (newDate : string -> option Z) (dateFrom : string)
    (item : Order) : bool :=
  truthy dateFrom && truthy_opt (date item)
  && DateModel.Date_lt (item_Date_with newDate item) (newDate dateFrom).

Definition skipped_by_dateTo_with (newDate : string -> option Z) (dateTo : string)
    (item : Order) : bool :=
  truthy dateTo && truthy_opt (date item)
  && DateModel.Date_lt (newDate dateTo) (item_Date_with newDate item).

(** The rows appended to the table body, each with its index in [items]. *)
Definition loadOrdersGroup_with (newDate : string -> option Z) (items : list Order)
    (dateFrom dateTo exchangeFilter : string) : list (nat * Order) :=
  List.filter
    (fun '(index, item) =>
       negb (skipped_by_exchange exchangeFilter item)
       && negb (skipped_by_dateFrom_with newDate dateFrom item)
       && negb (skipped_by_dateTo_with newDate dateTo item))
    (imap (fun index item => (index, item)) items).

(** The same under the reading [DateModel.Date]. *)
Definition skipped_by_dateFrom (tzOffset : Z) (dateFrom : string) (item : Order) : bool :=
  skipped_by_dateFrom_with (DateModel.Date tzOffset) dateFrom item.

Definition skipped_by_dateTo (tzOffset : Z) (dateTo : string) (item : Order) : bool :=
  skipped_by_dateTo_with (DateModel.Date tzOffset) dateTo item.

Definition loadOrdersGroup (tzOffset : Z) (items : list Order)
    (dateFrom dateTo exchangeFilter : string) : list (nat * Order) :=
  loadOrdersGroup_with (DateModel.Date tzOffset) items dateFrom dateTo exchangeFilter.

(** ** The page as a state machine

    What the operator and the page can do to the state between two loads of
    the ledger: the buttons of a table row, the new-entry form, and the
    three buttons of the confirmation modal.  The DOM inputs and the clock
    reading come with the event.  A click on a button of the modal is an
    event whether or not the modal is displayed: the handlers do not look
    at it. *)
Inductive Event :=
| EditOrder (symbol_ type_ : string) (index : nat)
| CancelEdit (symbol_ type_ : string) (index : nat)
| SaveOrder (symbol_ type_ : string) (index : nat) (row : option Row)
| CloseOrder (symbol_ type_ : string) (index : nat)
| SaveNewOrder (form : option NewOrderForm) (now : string)
| ClickConfirm (now : string)
| ClickCancel
| ClickModalClose.

Definition step (e : Event) (a : App) : App :=
  match e with
  | EditOrder s t i => editOrder s t i a
  | CancelEdit s t i => cancelEdit s t i a
  | SaveOrder s t i row => saveOrder s t i row a
  | CloseOrder s t i => closeOrder s t i a
  | SaveNewOrder form now => saveNewOrder form now a
  | ClickConfirm now => confirmationConfirmBtn_click now a
  | ClickCancel => confirmationCancelBtn_click a
  | ClickModalClose => confirmationModalClose_click a
  end.

(** The state after a sequence of events, first event first. *)
Definition run (es : list Event) (a : App) : App :=
  fold_left (fun st e => step e st) es a.

(** ** Observations on a ledger *)

(** The entries of the three collections of a symbol. *)
Definition symbol_entries (sd : SymbolData) : list Order :=
  or_empty (active_orders sd) ++ or_empty (active_positions sd)
  ++ or_empty (closed sd).

Definition symbol_active_entries (sd : SymbolData) : list Order :=
  or_empty (active_orders sd) ++ or_empty (active_positions sd).

(** Every entry of the ledger, and their identifiers. *)
Definition ledger_entries (l : Ledger) : list Order := flat_map symbol_entries l.

Definition ledger_ids (l : Ledger) : list IdVal := map id (ledger_entries l).

Definition ledger_symbols (l : Ledger) : list string := map sd_symbol l.

(** The total entry count of a symbol. *)
Definition entry_count (sd : SymbolData) : nat :=
  length (or_empty (active_orders sd)) + length (or_empty (active_positions sd))
  + length (or_empty (closed sd)).

(** The active collection implied by the kind of a payload, as
    [performSaveOperation] and [performCloseOperation] select it. *)
Definition kind_collection (orderData : Order) (act : Active) : option (list Order) :=
  if String.eqb (type orderData) "market" then positions act
  else if String.eqb (type orderData) "limit" then orders act
  else None.

(** [act] with the collection implied by the kind replaced. *)
Definition with_kind_collection (orderData : Order) (act : Active) (l : list Order) : Active :=
  if String.eqb (type orderData) "market" then mkActive (orders act) (Some l)
  else if String.eqb (type orderData) "limit" then mkActive (Some l) (positions act)
  else act.

(** The other active collection. *)
Definition other_collection (orderData : Order) (act : Active) : option (list Order) :=
  if String.eqb (type orderData) "market" then orders act else positions act.

(** The four members that [performSaveOperation] requires. *)
Definition required_fields (o : Order) : bool :=
  truthy (symbol o) && truthy (exchange o) && truthy (side o) && truthy (type o).

(** Order of two timestamps [YYYY-MM-DD HH:MM:SS] written by the page
    (both are UTC readings of the clock). *)
Definition timestamp_le (t1 t2 : string) : Prop :=
  exists x y, DateModel.Date 0 t1 = Some x /\ DateModel.Date 0 t2 = Some y /\ (x <= y)%Z.

(** * What the page shows around the ledger *)

(** ** Strings *)

(** [toLowerCase] on the letters A to Z; other characters are left as they
    are, which is what JavaScript does on ASCII text. *)
Definition lower_ascii (c : ascii) : ascii :=
  let n := nat_of_ascii c in
  if Nat.leb 65 n && Nat.leb n 90 then ascii_of_nat (n + 32) else c.

Fixpoint toLowerCase (s : string) : string :=
  match s with
  | EmptyString => EmptyString
  | String c rest => String (lower_ascii c) (toLowerCase rest)
  end.

(** [s.includes(sub)] on strings: [sub] occurs in [s]. *)
Fixpoint str_includes (s sub : string) : bool :=
  String.prefix sub s
  || match s with
     | EmptyString => false
     | String _ rest => str_includes rest sub
     end.

(** ** [OrdersManager.loadOrdersData] *)

(** The parsed body of the answer to [GET /api/orders]. *)
Record OrdersResult := mkOrdersResult {
  res_status : string;
  res_data : Ledger;
  res_message : string
}.

(** [response] is [None] when the promise rejects.  On success the table is
    rendered again, which changes nothing in the state. *)
Definition loadOrdersData (response : option OrdersResult) (a : App) : App :=
  match response with
  | Some result =>
      if String.eqb (res_status result) "success"
      then set_ordersData (res_data result) a
      else a
  | None => a
  end.

(** ** [OrdersManager.renderOrdersTable] *)

(** The head of one accordion item. *)
Record AccordionItem := mkAccordionItem {
  acc_symbol : string;
  ordersCount : nat;
  positionsCount : nat;
  closedCount : nat
}.

(** The object [templateData] of a Symbol Ledger. *)
Definition templateData (symbolData : SymbolData) : AccordionItem :=
  mkAccordionItem (sd_symbol symbolData)
    (length (or_empty (active_orders symbolData)))
    (length (or_empty (active_positions symbolData)))
    (length (or_empty (closed symbolData))).


(** ** [OrdersManager.loadOrdersGroups], [createOrderRow] *)

(** The rows of the three tables of a symbol: [None] when no Symbol Ledger
    has the symbol.  The three table bodies are taken to be in the
    document. *)
Record SymbolTables := mkSymbolTables {
  rows_orders : list (nat * Order);
  rows_positions : list (nat * Order);
  rows_closed : list (nat * Order)
}.

Definition loadOrdersGroups (tzOffset : Z) (symbol_ dateFrom dateTo exchangeFilter : string)
    (l : Ledger) : option SymbolTables :=
  match find_symbol symbol_ l with
  | None => None
  | Some symbolData =>
      Some (mkSymbolTables
              (loadOrdersGroup tzOffset (or_empty (active_orders symbolData))
                 dateFrom dateTo exchangeFilter)
              (loadOrdersGroup tzOffset (or_empty (active_positions symbolData))
                 dateFrom dateTo exchangeFilter)
              (loadOrdersGroup tzOffset (or_empty (closed symbolData))
                 dateFrom dateTo exchangeFilter))
  end.



(** ** [OrdersManager.editOrder]: the row in edit mode *)

Definition fieldMap : list string :=
  ["date"; "exchange"; "side"; "type"; "price"; "amount"; "leverage";
   "stop_loss"; "take_profit"].

(** [fieldMap[cellIndex] || null] *)
Definition getFieldNameByIndex (cellIndex : nat) : option string :=
  match fieldMap !! cellIndex with
  | Some name => if truthy name then Some name else None
  | None => None
  end.

(** What [editOrder] puts in a cell: a select with its options and the
    option marked selected, or a text input.  The text of an input is that
    of a number, or empty ([None]). *)
Inductive Widget :=
| WSelect (options : list string) (selected : string)
| WInput (text : option Q).

(** [order[fieldName]] for the numeric members that [fieldMap] names. *)
Definition order_number (fieldName : string) (o : Order) : option Q :=
  if String.eqb fieldName "price" then Some (price o)
  else if String.eqb fieldName "amount" then Some (amount o)
  else if String.eqb fieldName "leverage" then Some (leverage o)
  else if String.eqb fieldName "stop_loss" then Some (stop_loss o)
  else if String.eqb fieldName "take_profit" then Some (take_profit o)
  else None.

(** The text that [editOrder] puts in an input, the member of the entry or
    else the empty string: a zero, like an absent member, gives the empty
    text. *)
Definition input_text (fieldName : string) (o : Order) : option Q :=
  match order_number fieldName o with
  | Some q => if Qeq_bool q 0 then None else Some q
  | None => None
  end.

(** The body of the loop over the cells of the row. *)
Definition edit_cell (exchanges : list string) (o : Order) (cellIndex : nat) : option Widget :=
  if Nat.eqb cellIndex 0 then None
  else
    match getFieldNameByIndex cellIndex with
    | None => None
    | Some fieldName =>
        if String.eqb fieldName "exchange" then Some (WSelect exchanges (exchange o))
        else if String.eqb fieldName "side" then Some (WSelect ["long"; "short"] (side o))
        else if String.eqb fieldName "type" then Some (WSelect ["market"; "limit"] (type o))
        else Some (WInput (input_text fieldName o))
    end.

(** The [value] of a select: that of the option marked selected, else that
    of its first option, else the empty string. *)
Definition select_value (options : list string) (selected : string) : string :=
  if includes options selected then selected else hd EmptyString options.

(** [td:nth-child(n) select] and [td:nth-child(n) input] on the cells that
    [editOrder] has filled; the text of an input is read through
    [parseFloat], which gives back the number printed there, [NaN] on the
    empty text. *)
Definition cell_select (exchanges : list string) (o : Order) (nth_child : nat) : option string :=
  match edit_cell exchanges o (nth_child - 1) with
  | Some (WSelect options selected) => Some (select_value options selected)
  | _ => None
  end.

Definition cell_input (exchanges : list string) (o : Order) (nth_child : nat) : option (option Q) :=
  match edit_cell exchanges o (nth_child - 1) with
  | Some (WInput text) => Some text
  | _ => None
  end.

(** The row as [saveOrder] finds it after [editOrder] on its nine cells and
    no input from the operator. *)
Definition edited_row (exchanges : list string) (o : Order) : Row :=
  mkRow
    (length (omap (edit_cell exchanges o) (seq 0 9)))
    (cell_select exchanges o 2)
    (cell_select exchanges o 3)
    (cell_select exchanges o 4)
    (cell_input exchanges o 5)
    (cell_input exchanges o 6)
    (cell_input exchanges o 7)
    (cell_input exchanges o 8)
    (cell_input exchanges o 9).

(** ** [OrdersManager.clearNewOrderForm] *)

(** [in_form] tells of a control, by its id, whether it is an input or a
    select inside the element [addOrderForm]; [number_typed] whether its
    [type] is [number].  A control outside the form keeps its value.  A
    numeric input is kept as what [parseFloat] gives on its value: 1 on the
    text 1, 1/1000 on the text 0.001, [NaN] on the empty text. *)
Definition cleared_text (in_form : string -> bool) (input_id : string) (old : string) : string :=
  if in_form input_id then EmptyString else old.

Definition cleared_number (in_form number_typed : string -> bool) (input_id : string)
    (old : option Q) : option Q :=
  if in_form input_id then
    if number_typed input_id then
      if String.eqb input_id "newOrderLeverage" then Some 1%Q
      else if String.eqb input_id "newOrderFee" then Some (1 # 1000)%Q
      else None
    else None
  else old.

Definition clearNewOrderForm (in_form number_typed : string -> bool) (f : NewOrderForm) : NewOrderForm :=
  mkNewOrderForm
    (cleared_text in_form "newOrderSymbol" (newOrderSymbol f))
    (cleared_text in_form "newOrderExchange" (newOrderExchange f))
    (cleared_text in_form "newOrderSide" (newOrderSide f))
    (cleared_text in_form "newOrderType" (newOrderType f))
    (cleared_text in_form "newOrderOpenType" (newOrderOpenType f))
    (cleared_number in_form number_typed "newOrderLeverage" (newOrderLeverage f))
    (cleared_number in_form number_typed "newOrderPrice" (newOrderPrice f))
    (cleared_number in_form number_typed "newOrderAmount" (newOrderAmount f))
    (cleared_number in_form number_typed "newOrderStopLoss" (newOrderStopLoss f))
    (cleared_number in_form number_typed "newOrderTakeProfit" (newOrderTakeProfit f))
    (cleared_number in_form number_typed "newOrderFee" (newOrderFee f))
    (cleared_number in_form number_typed "newOrderAmountUsdt" (newOrderAmountUsdt f)).

(** ** [AppCore.updateFilterOptions] *)

(** The values of the options of the four selects it fills; [None] when
    the select is not in the document. *)
Record FilterSelects := mkFilterSelects {
  exchangeFilter_options : option (list string);
  newOrderSymbol_options : option (list string);
  newOrderExchange_options : option (list string);
  orderExchange_options : option (list string)
}.

(** Remove the last child while there is more than one, then append one
    option per item. *)
Definition refill (items : list string) (options : list string) : list string :=
  take 1 options ++ items.

Definition updateFilterOptions (a : App) (d : FilterSelects) : FilterSelects :=
  mkFilterSelects
    (refill (availableExchanges a) <$> exchangeFilter_options d)
    (refill (availableSymbols a) <$> newOrderSymbol_options d)
    (refill (availableExchanges a) <$> newOrderExchange_options d)
    (refill (availableExchanges a) <$> orderExchange_options d).

(** ** The symbols modal *)

(** The body of the answer to [GET /api/data]: for each exchange, in the
    order of [Object.entries], the keys of its token object in the order
    of [Object.keys]; [None] when the value is [null], on which
    [Object.keys] throws. *)
Definition ApiData := list (string * option (list string)).

(** The variables [allSymbols], [selectedSymbols] and [filteredSymbols] of
    the closure, and what the modal shows: the class [show], the items of
    the list (each with its symbol and whether it has the class
    [selected]) and the two counters. *)
Record SymbolsModal := mkSymbolsModal {
  symbolsModal_show : bool;
  allSymbols : list string;
  selectedSymbols : gset string;
  filteredSymbols : list string;
  symbolsList : list (string * bool);
  totalSymbolsCount : nat;
  selectedSymbolsCount : nat
}.

(** [updateSelectedCount] *)
Definition updateSelectedCount (st : SymbolsModal) : SymbolsModal :=
  mkSymbolsModal (symbolsModal_show st) (allSymbols st) (selectedSymbols st)
    (filteredSymbols st) (symbolsList st) (totalSymbolsCount st)
    (size (selectedSymbols st)).

(** [renderSymbols] *)
Definition renderSymbols (st : SymbolsModal) : SymbolsModal :=
  updateSelectedCount
    (mkSymbolsModal (symbolsModal_show st) (allSymbols st) (selectedSymbols st)
       (filteredSymbols st)
       (map (fun symbol_ => (symbol_, bool_decide (symbol_ ∈ selectedSymbols st)))
          (filteredSymbols st))
       (totalSymbolsCount st) (selectedSymbolsCount st)).

(** [toggleSymbol] *)
Definition toggleSymbol (symbol_ : string) (st : SymbolsModal) : SymbolsModal :=
  renderSymbols
    (mkSymbolsModal (symbolsModal_show st) (allSymbols st)
       (if bool_decide (symbol_ ∈ selectedSymbols st)
        then selectedSymbols st ∖ {[symbol_]}
        else selectedSymbols st ∪ {[symbol_]})
       (filteredSymbols st) (symbolsList st) (totalSymbolsCount st)
       (selectedSymbolsCount st)).

(** [if (!allSymbols.includes(symbol)) allSymbols.push(symbol)] *)
Definition push_new (acc : list string) (symbol_ : string) : list string :=
  if includes acc symbol_ then acc else acc ++ [symbol_].

(** The two nested loops of [loadSymbols]; [None] when [Object.keys]
    throws. *)
Fixpoint collect_symbols (acc : list string) (data : ApiData) : option (list string) :=
  match data with
  | [] => Some acc
  | (_, tokens) :: rest =>
      match tokens with
      | None => None
      | Some keys => collect_symbols (fold_left push_new keys acc) rest
      end
  end.

(** [allSymbols.sort()]: the order of the default comparison of strings,
    which on strings of ASCII characters is that of [String.leb]. *)
Fixpoint sort_insert (s : string) (l : list string) : list string :=
  match l with
  | [] => [s]
  | x :: rest => if String.leb s x then s :: l else x :: sort_insert s rest
  end.

Definition Array_sort (l : list string) : list string := fold_right sort_insert [] l.

(** The two handlers of the fetch of [loadSymbols]: [response] is [None]
    when the promise rejects. *)
Definition loadSymbols_response (response : option ApiData) (st : SymbolsModal) : SymbolsModal :=
  match response ≫= collect_symbols [] with
  | Some collected =>
      let all := Array_sort collected in
      renderSymbols
        (mkSymbolsModal (symbolsModal_show st) all (selectedSymbols st) all
           (symbolsList st) (length all) (selectedSymbolsCount st))
  | None =>
      renderSymbols
        (mkSymbolsModal (symbolsModal_show st) [] (selectedSymbols st) []
           (symbolsList st) (totalSymbolsCount st) (selectedSymbolsCount st))
  end.

Definition set_symbolsModal_show (b : bool) (st : SymbolsModal) : SymbolsModal :=
  mkSymbolsModal b (allSymbols st) (selectedSymbols st) (filteredSymbols st)
    (symbolsList st) (totalSymbolsCount st) (selectedSymbolsCount st).

(** The click on the button that opens the modal; the fetch it starts is
    answered by [loadSymbols_response]. *)
Definition symbolsBtn_click (st : SymbolsModal) : SymbolsModal :=
  set_symbolsModal_show true st.

Definition symbolsModalClose_click (st : SymbolsModal) : SymbolsModal :=
  set_symbolsModal_show false st.

(** The click on the modal: [on_modal] is [e.target === symbolsModal]. *)
Definition symbolsModal_click (on_modal : bool) (st : SymbolsModal) : SymbolsModal :=
  if on_modal then set_symbolsModal_show false st else st.

(** The [input] handler of the search box, whose [value] is [value]. *)
Definition symbolsSearch_input (value : string) (st : SymbolsModal) : SymbolsModal :=
  let searchTerm := toLowerCase value in
  renderSymbols
    (mkSymbolsModal (symbolsModal_show st) (allSymbols st) (selectedSymbols st)
       (List.filter (fun symbol_ => str_includes (toLowerCase symbol_) searchTerm)
          (allSymbols st))
       (symbolsList st) (totalSymbolsCount st) (selectedSymbolsCount st)).

Inductive ModalEvent :=
| ClickSymbolsBtn
| LoadSymbolsResponse (response : option ApiData)
| ClickSymbolsModalClose
| ClickSymbolsModal (on_modal : bool)
| InputSymbolsSearch (value : string)
| ClickSymbolItem (symbol_ : string).

Definition modal_step (e : ModalEvent) (st : SymbolsModal) : SymbolsModal :=
  match e with
  | ClickSymbolsBtn => symbolsBtn_click st
  | LoadSymbolsResponse response => loadSymbols_response response st
  | ClickSymbolsModalClose => symbolsModalClose_click st
  | ClickSymbolsModal on_modal => symbolsModal_click on_modal st
  | InputSymbolsSearch value => symbolsSearch_input value st
  | ClickSymbolItem symbol_ => toggleSymbol symbol_ st
  end.

Definition modal_run (es : list ModalEvent) (st : SymbolsModal) : SymbolsModal :=
  fold_left (fun s e => modal_step e s) es st.

(** ** [AppCore.updateStats] *)

(** The numbers written in [totalTokens] and [totalExchanges]. *)
Definition updateStats (data : ApiData) : nat * nat :=
  (fold_left (fun sum '(_, tokens) => sum + length (default [] tokens)) data 0,
   length data).

(** ** [UIManager]: the panels and the sections *)

(** The classes and inline styles that the handlers read and write.  All
    the elements that [getElements] looks up are taken to be in the
    document. *)
Record UI := mkUI {
  sidebar_collapsed : bool;
  rightSidePanel_show : bool;
  rightSidePanel_collapsed : bool;
  pairsPanel_show : bool;
  exchangesPanel_show : bool;
  pairsToggle_active : bool;
  exchangesToggle_active : bool;
  ordersToggle_active : bool;
  analyzerToggle_active : bool;
  ordersSection_display : string;
  analyzerSection_display : string;
  dashboardSection_display : string;
  arbitrageSection_display : string;
  settingsSection_display : string;
  exchangesSection_display : string;
  logsSection_display : string
}.

Inductive SectionId :=
| OrdersSection | AnalyzerSection | DashboardSection | ArbitrageSection
| SettingsSection | ExchangesSection | LogsSection.

Inductive ToggleId := PairsToggle | ExchangesToggle | OrdersToggle | AnalyzerToggle.

(** The loads that the handlers start. *)
Inductive DataLoad := LoadSymbolsData | LoadExchangesData | LoadOrdersData | LoadTokensData.

(** Which of the managers the handlers look up on [window] are defined
    there: a handler starts a load only [if (window.symbolsManager)],
    [if (window.ordersManager)], [if (window.analyzerManager)]. *)
Record Managers := mkManagers {
  symbolsManager : bool;
  ordersManager : bool;
  analyzerManager : bool
}.

(** [if (manager) manager.load()] *)
Definition load_if (manager : bool) (load : DataLoad) : list DataLoad :=
  if manager then [load] else [].

(** [section.style.display = "block"] *)
Definition display_block (section : SectionId) (u : UI) : UI :=
  match section with
  | OrdersSection =>
      mkUI (sidebar_collapsed u) (rightSidePanel_show u) (rightSidePanel_collapsed u)
        (pairsPanel_show u) (exchangesPanel_show u) (pairsToggle_active u)
        (exchangesToggle_active u) (ordersToggle_active u) (analyzerToggle_active u)
        "block" (analyzerSection_display u) (dashboardSection_display u)
        (arbitrageSection_display u) (settingsSection_display u)
        (exchangesSection_display u) (logsSection_display u)
  | AnalyzerSection =>
      mkUI (sidebar_collapsed u) (rightSidePanel_show u) (rightSidePanel_collapsed u)
        (pairsPanel_show u) (exchangesPanel_show u) (pairsToggle_active u)
        (exchangesToggle_active u) (ordersToggle_active u) (analyzerToggle_active u)
        (ordersSection_display u) "block" (dashboardSection_display u)
        (arbitrageSection_display u) (settingsSection_display u)
        (exchangesSection_display u) (logsSection_display u)
  | DashboardSection =>
      mkUI (sidebar_collapsed u) (rightSidePanel_show u) (rightSidePanel_collapsed u)
        (pairsPanel_show u) (exchangesPanel_show u) (pairsToggle_active u)
        (exchangesToggle_active u) (ordersToggle_active u) (analyzerToggle_active u)
        (ordersSection_display u) (analyzerSection_display u) "block"
        (arbitrageSection_display u) (settingsSection_display u)
        (exchangesSection_display u) (logsSection_display u)
  | ArbitrageSection =>
      mkUI (sidebar_collapsed u) (rightSidePanel_show u) (rightSidePanel_collapsed u)
        (pairsPanel_show u) (exchangesPanel_show u) (pairsToggle_active u)
        (exchangesToggle_active u) (ordersToggle_active u) (analyzerToggle_active u)
        (ordersSection_display u) (analyzerSection_display u)
        (dashboardSection_display u) "block" (settingsSection_display u)
        (exchangesSection_display u) (logsSection_display u)
  | SettingsSection =>
      mkUI (sidebar_collapsed u) (rightSidePanel_show u) (rightSidePanel_collapsed u)
        (pairsPanel_show u) (exchangesPanel_show u) (pairsToggle_active u)
        (exchangesToggle_active u) (ordersToggle_active u) (analyzerToggle_active u)
        (ordersSection_display u) (analyzerSection_display u)
        (dashboardSection_display u) (arbitrageSection_display u) "block"
        (exchangesSection_display u) (logsSection_display u)
  | ExchangesSection =>
      mkUI (sidebar_collapsed u) (rightSidePanel_show u) (rightSidePanel_collapsed u)
        (pairsPanel_show u) (exchangesPanel_show u) (pairsToggle_active u)
        (exchangesToggle_active u) (ordersToggle_active u) (analyzerToggle_active u)
        (ordersSection_display u) (analyzerSection_display u)
        (dashboardSection_display u) (arbitrageSection_display u)
        (settingsSection_display u) "block" (logsSection_display u)
  | LogsSection =>
      mkUI (sidebar_collapsed u) (rightSidePanel_show u) (rightSidePanel_collapsed u)
        (pairsPanel_show u) (exchangesPanel_show u) (pairsToggle_active u)
        (exchangesToggle_active u) (ordersToggle_active u) (analyzerToggle_active u)
        (ordersSection_display u) (analyzerSection_display u)
        (dashboardSection_display u) (arbitrageSection_display u)
        (settingsSection_display u) (exchangesSection_display u) "block"
  end.

(** [toggle.classList.add("active")] *)
Definition add_active (toggle : ToggleId) (u : UI) : UI :=
  mkUI (sidebar_collapsed u) (rightSidePanel_show u) (rightSidePanel_collapsed u)
    (pairsPanel_show u) (exchangesPanel_show u)
    (match toggle with PairsToggle => true | _ => pairsToggle_active u end)
    (match toggle with ExchangesToggle => true | _ => exchangesToggle_active u end)
    (match toggle with OrdersToggle => true | _ => ordersToggle_active u end)
    (match toggle with AnalyzerToggle => true | _ => analyzerToggle_active u end)
    (ordersSection_display u) (analyzerSection_display u) (dashboardSection_display u)
    (arbitrageSection_display u) (settingsSection_display u)
    (exchangesSection_display u) (logsSection_display u).

(** [toggleRightSidePanel] *)
Definition toggleRightSidePanel (u : UI) : UI :=
  if rightSidePanel_show u then
    mkUI (sidebar_collapsed u) false true false false false false
      (ordersToggle_active u) (analyzerToggle_active u)
      (ordersSection_display u) (analyzerSection_display u) (dashboardSection_display u)
      (arbitrageSection_display u) (settingsSection_display u)
      (exchangesSection_display u) (logsSection_display u)
  else
    mkUI (sidebar_collapsed u) true false (pairsPanel_show u) (exchangesPanel_show u)
      (pairsToggle_active u) (exchangesToggle_active u)
      (ordersToggle_active u) (analyzerToggle_active u)
      (ordersSection_display u) (analyzerSection_display u) (dashboardSection_display u)
      (arbitrageSection_display u) (settingsSection_display u)
      (exchangesSection_display u) (logsSection_display u).

(** [showMainSection(section, toggle)]; [section] is [None] for [null]. *)
Definition showMainSection (section : option SectionId) (toggle : ToggleId) (u : UI) : UI :=
  let hidden :=
    mkUI (sidebar_collapsed u) false true false false false false false false
      "none" "none" (dashboardSection_display u)
      (arbitrageSection_display u) (settingsSection_display u)
      (exchangesSection_display u) (logsSection_display u) in
  add_active toggle
    (match section with
     | Some s => display_block s hidden
     | None => hidden
     end).

(** [showSidebarSection(section)] *)
Definition showSidebarSection (section : option SectionId) (u : UI) : UI :=
  let hidden :=
    mkUI (sidebar_collapsed u) false true false false false false false false
      "none" "none" "none" "none" "none" "none" "none" in
  match section with
  | Some s => display_block s hidden
  | None => hidden
  end.

(** The click handlers installed by [setupPanelManagement], each with the
    loads it starts. *)
Definition menuToggle_click (u : UI) : UI * list DataLoad :=
  (mkUI (negb (sidebar_collapsed u)) (rightSidePanel_show u)
     (rightSidePanel_collapsed u) (pairsPanel_show u) (exchangesPanel_show u)
     (pairsToggle_active u) (exchangesToggle_active u) (ordersToggle_active u)
     (analyzerToggle_active u) (ordersSection_display u) (analyzerSection_display u)
     (dashboardSection_display u) (arbitrageSection_display u)
     (settingsSection_display u) (exchangesSection_display u)
     (logsSection_display u),
   []).

Definition pairsToggle_click (w : Managers) (u : UI) : UI * list DataLoad :=
  if rightSidePanel_show u && pairsPanel_show u then (toggleRightSidePanel u, [])
  else if rightSidePanel_show u && exchangesPanel_show u then
    (mkUI (sidebar_collapsed u) (rightSidePanel_show u) (rightSidePanel_collapsed u)
       true false true false (ordersToggle_active u) (analyzerToggle_active u)
       (ordersSection_display u) (analyzerSection_display u)
       (dashboardSection_display u) (arbitrageSection_display u)
       (settingsSection_display u) (exchangesSection_display u)
       (logsSection_display u),
     load_if (symbolsManager w) LoadSymbolsData)
  else
    (mkUI (sidebar_collapsed u) true false
       true false true false (ordersToggle_active u) (analyzerToggle_active u)
       (ordersSection_display u) (analyzerSection_display u)
       (dashboardSection_display u) (arbitrageSection_display u)
       (settingsSection_display u) (exchangesSection_display u)
       (logsSection_display u),
     load_if (symbolsManager w) LoadSymbolsData).

Definition exchangesToggle_click (w : Managers) (u : UI) : UI * list DataLoad :=
  if rightSidePanel_show u && exchangesPanel_show u then (toggleRightSidePanel u, [])
  else if rightSidePanel_show u && pairsPanel_show u then
    (mkUI (sidebar_collapsed u) (rightSidePanel_show u) (rightSidePanel_collapsed u)
       false true false true (ordersToggle_active u) (analyzerToggle_active u)
       (ordersSection_display u) (analyzerSection_display u)
       (dashboardSection_display u) (arbitrageSection_display u)
       (settingsSection_display u) (exchangesSection_display u)
       (logsSection_display u),
     load_if (symbolsManager w) LoadExchangesData)
  else
    (mkUI (sidebar_collapsed u) true false
       false true false true (ordersToggle_active u) (analyzerToggle_active u)
       (ordersSection_display u) (analyzerSection_display u)
       (dashboardSection_display u) (arbitrageSection_display u)
       (settingsSection_display u) (exchangesSection_display u)
       (logsSection_display u),
     load_if (symbolsManager w) LoadExchangesData).

Definition ordersToggle_click (w : Managers) (u : UI) : UI * list DataLoad :=
  if String.eqb (ordersSection_display u) "block" then
    (mkUI (sidebar_collapsed u) (rightSidePanel_show u) (rightSidePanel_collapsed u)
       (pairsPanel_show u) (exchangesPanel_show u) (pairsToggle_active u)
       (exchangesToggle_active u) false (analyzerToggle_active u)
       "none" (analyzerSection_display u)
       (dashboardSection_display u) (arbitrageSection_display u)
       (settingsSection_display u) (exchangesSection_display u)
       (logsSection_display u),
     [])
  else (showMainSection (Some OrdersSection) OrdersToggle u,
        load_if (ordersManager w) LoadOrdersData).

Definition analyzerToggle_click (w : Managers) (u : UI) : UI * list DataLoad :=
  if String.eqb (analyzerSection_display u) "block" then
    (mkUI (sidebar_collapsed u) (rightSidePanel_show u) (rightSidePanel_collapsed u)
       (pairsPanel_show u) (exchangesPanel_show u) (pairsToggle_active u)
       (exchangesToggle_active u) (ordersToggle_active u) false
       (ordersSection_display u) "none"
       (dashboardSection_display u) (arbitrageSection_display u)
       (settingsSection_display u) (exchangesSection_display u)
       (logsSection_display u),
     [])
  else (showMainSection (Some AnalyzerSection) AnalyzerToggle u,
        load_if (analyzerManager w) LoadTokensData).

(** The click handlers installed by [setupSidebarFunctionality] on the six
    links of the sidebar menu; the [active] class of the links is not part
    of the model. *)
Inductive SidebarLink :=
| DashboardLink | AnalyzerLink | ArbitrageLink | ExchangesLink | SettingsLink | LogsLink.

Definition link_section (link : SidebarLink) : SectionId :=
  match link with
  | DashboardLink => DashboardSection
  | AnalyzerLink => AnalyzerSection
  | ArbitrageLink => ArbitrageSection
  | ExchangesLink => ExchangesSection
  | SettingsLink => SettingsSection
  | LogsLink => LogsSection
  end.

Definition sidebarLink_click (link : SidebarLink) (u : UI) : UI * list DataLoad :=
  (showSidebarSection (Some (link_section link)) u, []).

Inductive UIEvent :=
| ClickMenuToggle
| ClickPairsToggle
| ClickExchangesToggle
| ClickOrdersToggle
| ClickAnalyzerToggle
| ClickSidebarLink (link : SidebarLink).

Definition ui_step (w : Managers) (e : UIEvent) (u : UI) : UI * list DataLoad :=
  match e with
  | ClickMenuToggle => menuToggle_click u
  | ClickPairsToggle => pairsToggle_click w u
  | ClickExchangesToggle => exchangesToggle_click w u
  | ClickOrdersToggle => ordersToggle_click w u
  | ClickAnalyzerToggle => analyzerToggle_click w u
  | ClickSidebarLink link => sidebarLink_click link u
  end.

(** The state after a sequence of clicks, with the loads started on the
    way, in order. *)
Definition ui_run (w : Managers) (es : list UIEvent) (u : UI) : UI * list DataLoad :=
  fold_left
    (fun '(st, loads) e => let '(st', more) := ui_step w e st in (st', loads ++ more))
    es (u, []).

(** * Vocabulary of the properties *)

(** ** The insert, in two steps *)

(** The checks that [saveNewOrder] makes on the form before it touches the
    ledger. *)
Definition form_accepted (f : NewOrderForm) (a : App) : bool :=
  truthy (newOrderSymbol f) && truthy (newOrderExchange f)
  && truthy (newOrderSide f) && truthy (newOrderType f)
  && includes (availableExchanges a) (newOrderExchange f)
  && includes (availableSymbols a) (newOrderSymbol f)
  && includes validSides (newOrderSide f)
  && includes validTypes (newOrderType f).

(** The entry that [saveNewOrder] stores for an accepted form. *)
Definition stored_order (f : NewOrderForm) (now : string) (l : Ledger) : Order :=
  set_id (IdNumber (js_add1 (maxId l)))
    (if truthy (newOrderOpenType f) then new_orderData f now
     else set_open_type "isolated" (new_orderData f now)).

(** Where [saveNewOrder] puts it. *)
Definition place_order (o : Order) (l : Ledger) : Ledger :=
  match add_loop o l with
  | Some l' => l'
  | None => l ++ [new_symbol_entry o]
  end.

(** ** Symbols *)

(** The Symbol Ledger [sd] is not the one of symbol [s]: the loops pass
    over it. *)
Definition other_symbol (s : string) (sd : SymbolData) : Prop := sd_symbol sd <> s.

(** ** How an operation changes the ledger

    Every operation keeps the Symbol Ledgers in place, changes at most the
    first one of the payload's symbol, and pushes at most one new Symbol
    Ledger at the end: [l'] is [l] with its elements related by [R],
    followed by new elements that satisfy [N]. *)
Definition ledger_evolves (R : SymbolData -> SymbolData -> Prop)
    (N : SymbolData -> Prop) (l l' : Ledger) : Prop :=
  exists kept added, l' = kept ++ added /\ Forall2 R l kept /\ Forall N added.

(** ** Close stamps *)

(** An entry without, and with, a [close_date]. *)
Definition unstamped (o : Order) : Prop := close_date o = None.

Definition stamped (o : Order) : Prop := close_date o <> None.

(** Active entries carry no close stamp, closed entries carry one. *)
Definition stamps_ok_symbol (sd : SymbolData) : Prop :=
  Forall unstamped (symbol_active_entries sd)
  /\ Forall stamped (or_empty (closed sd)).

(** What the insert and the confirmed save do to the Symbol Ledger they
    touch: [closed] is left as it is; [ok] says that the payload carries no
    close stamp. *)
Definition active_effect (ok : Prop) (sd sd' : SymbolData) : Prop :=
  sd_symbol sd' = sd_symbol sd
  /\ closed sd' = closed sd
  /\ (ok -> stamps_ok_symbol sd -> stamps_ok_symbol sd').

(** The Symbol Ledger they push: nothing closed. *)
Definition fresh_symbol (ok : Prop) (sd : SymbolData) : Prop :=
  or_empty (closed sd) = [] /\ (ok -> stamps_ok_symbol sd).

(** What the confirmed close does to the Symbol Ledger it touches. *)
Definition close_effect (sd sd' : SymbolData) : Prop :=
  sd_symbol sd' = sd_symbol sd
  /\ or_empty (closed sd) `prefix_of` or_empty (closed sd')
  /\ (stamps_ok_symbol sd -> stamps_ok_symbol sd').

(** The confirmed close pushes no Symbol Ledger. *)
Definition no_symbol (sd : SymbolData) : Prop := False.

(** The payload on the confirm button carries no close stamp. *)
Definition payload_unstamped (a : App) : Prop :=
  forall od, dataset_orderData (confirmationModal a) = Some od -> unstamped od.

(** The invariant of the page: the stamps of the ledger are in order and
    nothing stamped waits on the confirm button. *)
Definition stamps_ok (a : App) : Prop :=
  Forall stamps_ok_symbol (ordersData a) /\ payload_unstamped a.

(** ** Closed collections *)






(** ** What the operator can do *)

(** A button of the modal can be clicked by the operator only while the
    modal is displayed. *)
Definition clickable (e : Event) (a : App) : bool :=
  match e with
  | ClickConfirm _ | ClickCancel | ClickModalClose =>
      modal_display (confirmationModal a)
  | _ => true
  end.

(** An event takes effect when the operator can produce it. *)
Definition operator_step (e : Event) (a : App) : App :=
  if clickable e a then step e a else a.

Definition operator_run (es : list Event) (a : App) : App :=
  fold_left (fun st e => operator_step e st) es a.

(** Two states that differ at most in what a hidden modal carries. *)
Definition same_to_operator (a b : App) : Prop :=
  ordersData a = ordersData b
  /\ availableExchanges a = availableExchanges b
  /\ availableSymbols a = availableSymbols b
  /\ alerts a = alerts b
  /\ requests a = requests b
  /\ modal_present (confirmationModal a) = modal_present (confirmationModal b)
  /\ modal_display (confirmationModal a) = modal_display (confirmationModal b)
  /\ (modal_display (confirmationModal a) = true ->
      confirmationModal a = confirmationModal b).

(** ** Concrete page states used in the examples *)

(** A page whose catalogs are loaded, with the modal in the document and
    hidden, holding the ledger [l]. *)
Definition page (l : Ledger) : App :=
  mkApp l ["gate"; "bitget"; "bingx"; "mexc"; "binance"]
    ["BTC/USDT"; "ETH/USDT"] (mkModal true false None None) [] [].

(** The form of the scenario "ledger empty, insert a limit order on
    BTC/USDT at binance, price 50000, amount 0.1". *)
Definition btc_limit_form : NewOrderForm :=
  mkNewOrderForm "BTC/USDT" "binance" "long" "limit" EmptyString
    None (Some (50000 # 1)%Q) (Some (1 # 10)%Q) None None None None.

(** An entry with the given identifier, symbol, exchange and type. *)
Definition entry (i : IdVal) (sym ex ty : string) : Order :=
  mkOrder i sym ex "long" ty "isolated" 1%Q 50000%Q (1 # 10)%Q 0%Q 0%Q
    (1 # 1000)%Q 0%Q (Some 0%Q) (Some 0%Q) (Some 0%Q) (Some 0%Q) (Some 0%Q)
    (Some "2024-01-15 14:30:00") None.

(** The scenario "entry 1, a market entry, is staged for close and
    confirmed", followed by an attempt to save the closed row and by a new
    entry. *)
Definition close_scenario : list Event :=
  [CloseOrder "BTC/USDT" "positions" 0;
   ClickConfirm "2024-01-16 09:00:00";
   SaveOrder "BTC/USDT" "closed" 0 (Some (mkRow 0 None None None None None None None None));
   SaveNewOrder (Some btc_limit_form) "2024-01-16 09:10:00"].

Definition close_scenario_page : App :=
  page [mkSymbolData "BTC/USDT"
          (Some (mkActive (Some [])
             (Some [entry (IdNumber (Num 1)) "BTC/USDT" "gate" "market"])))
          (Some [])].

(** ** Tables, selects and further examples *)

(** The entries of the collection [kind] ([orders], [positions] or
    [closed]) of the first Symbol Ledger of symbol [s]: what the table of
    that kind lists when no filter is set. *)
Definition collection_of (kind s : string) (l : Ledger) : list Order :=
  match find_symbol s l with
  | None => []
  | Some sd =>
      if String.eqb kind "orders" then or_empty (active_orders sd)
      else if String.eqb kind "positions" then or_empty (active_positions sd)
      else if String.eqb kind "closed" then or_empty (closed sd)
      else []
  end.

(** The table that holds the entries of a given type. *)
Definition kind_of_type (type_ : string) : string :=
  if String.eqb type_ "market" then "positions" else "orders".

(** Every Symbol Ledger of the symbol of [od] has the active collection
    implied by the kind of [od]. *)
Definition kind_collection_present (od : Order) (l : Ledger) : Prop :=
  Forall (fun sd => sd_symbol sd = symbol od ->
            exists act coll, active sd = Some act /\ kind_collection od act = Some coll) l.

(** Every select of [d] that is in the document has a first option. *)
Definition has_first_option (options : option (list string)) : Prop :=
  options <> Some [].

Definition selects_have_first_option (d : FilterSelects) : Prop :=
  has_first_option (exchangeFilter_options d)
  /\ has_first_option (newOrderSymbol_options d)
  /\ has_first_option (newOrderExchange_options d)
  /\ has_first_option (orderExchange_options d).

(** A page whose ledger holds one limit entry and one market entry of the
    same symbol. *)
Definition two_entry_page : App :=
  page [mkSymbolData "BTC/USDT"
          (Some (mkActive
             (Some [entry (IdNumber (Num 1)) "BTC/USDT" "gate" "limit"])
             (Some [entry (IdNumber (Num 2)) "BTC/USDT" "binance" "market"])))
          (Some [])].

(** ** Vocabulary of the modal and of the panels *)

Definition string_le (a b : string) : Prop := String.leb a b = true.

(** What the modal shows agrees with the variables of the closure. *)
Definition modal_consistent (st : SymbolsModal) : Prop :=
  Sorted string_le (allSymbols st)
  /\ NoDup (allSymbols st)
  /\ sublist (filteredSymbols st) (allSymbols st)
  /\ symbolsList st
     = map (fun symbol_ => (symbol_, bool_decide (symbol_ ∈ selectedSymbols st)))
         (filteredSymbols st)
  /\ selectedSymbolsCount st = size (selectedSymbols st).

(** The symbols that the exchanges of [data] list. *)
Definition listed_symbols (data : ApiData) : list string :=
  flat_map (fun '(_, tokens) => default [] tokens) data.

Definition shown (display : string) : bool := String.eqb display "block".

#[global] Instance SectionId_eq_dec : EqDecision SectionId.
Proof. solve_decision. Defined.

(** [section.style.display] *)
Definition section_display (section : SectionId) (u : UI) : string :=
  match section with
  | OrdersSection => ordersSection_display u
  | AnalyzerSection => analyzerSection_display u
  | DashboardSection => dashboardSection_display u
  | ArbitrageSection => arbitrageSection_display u
  | SettingsSection => settingsSection_display u
  | ExchangesSection => exchangesSection_display u
  | LogsSection => logsSection_display u
  end.

(** The panels and toggles agree. *)
Definition ui_consistent (u : UI) : Prop :=
  rightSidePanel_show u = negb (rightSidePanel_collapsed u)
  /\ (pairsPanel_show u = true -> rightSidePanel_show u = true)
  /\ (exchangesPanel_show u = true -> rightSidePanel_show u = true)
  /\ (pairsPanel_show u = true -> exchangesPanel_show u = false)
  /\ pairsToggle_active u = pairsPanel_show u
  /\ exchangesToggle_active u = exchangesPanel_show u
  /\ ordersToggle_active u = shown (ordersSection_display u)
  /\ (analyzerToggle_active u = true -> shown (analyzerSection_display u) = true)
  /\ (shown (ordersSection_display u) = true -> shown (analyzerSection_display u) = false)
  /\ length (List.filter shown
               [dashboardSection_display u; arbitrageSection_display u;
                settingsSection_display u; exchangesSection_display u;
                logsSection_display u]) <= 1.

(** A modal with nothing loaded and nothing selected. *)
Definition modal_start : SymbolsModal := mkSymbolsModal false [] ∅ [] [] 0 0.

(** The page with its three managers defined, and the page as the source
    files have it, where nothing defines [window.analyzerManager]. *)
Definition all_managers : Managers := mkManagers true true true.

Definition no_analyzerManager : Managers := mkManagers true true false.

(** Panels with the right panel closed and the dashboard section shown. *)
Definition ui_start : UI :=
  mkUI false false true false false false false false false
    "none" "none" "block" "none" "none" "none" "none".

(** * Properties *)

Ltac unfold_order_fields :=
  cbn [id symbol exchange side type open_type date close_date
       new_orderData set_open_type set_id set_close_date].

Ltac unfold_entries :=
  unfold stamps_ok_symbol, symbol_active_entries, active_orders,
    active_positions, or_empty in *;
  simpl in *.

(** ** The three loops over [ordersData]

    Each loop stops at the first element whose symbol is the payload's. *)

Lemma first_symbol_split (s : string) (l : Ledger) :
  Forall (other_symbol s) l
  \/ exists pre sd post,
       l = pre ++ sd :: post /\ Forall (other_symbol s) pre /\ sd_symbol sd = s.
Proof.
  induction l as [|sd l IH]; [left; constructor|].
  destruct (String.eqb_spec (sd_symbol sd) s) as [Heq|Hne].
  - right. exists [], sd, l. repeat split; [constructor | assumption].
  - destruct IH as [Hall|(pre & sd' & post & -> & Hpre & Hs)].
    + left. constructor; assumption.
    + right. exists (sd :: pre), sd', post.
      repeat split; [constructor; assumption | assumption].
Qed.

Section Loops.
Variable orderData : Order.

Lemma eqb_other_symbol (sd : SymbolData) :
  other_symbol (symbol orderData) sd ->
  String.eqb (sd_symbol sd) (symbol orderData) = false.
Proof. intros H. now apply String.eqb_neq. Qed.

Lemma close_loop_found (now : string) (pre post : Ledger) (sd : SymbolData) :
  Forall (other_symbol (symbol orderData)) pre ->
  sd_symbol sd = symbol orderData ->
  close_loop orderData now (pre ++ sd :: post)
  = pre ++ close_in_symbol orderData now sd :: post.
Proof.
  intros Hpre Hsd. induction Hpre as [|x pre Hx _ IH]; simpl.
  - now rewrite (proj2 (String.eqb_eq _ _) Hsd).
  - now rewrite (eqb_other_symbol x Hx), IH.
Qed.

Lemma close_loop_absent (now : string) (l : Ledger) :
  Forall (other_symbol (symbol orderData)) l ->
  close_loop orderData now l = l.
Proof.
  intros Hl. induction Hl as [|x l Hx _ IH]; simpl; [reflexivity|].
  now rewrite (eqb_other_symbol x Hx), IH.
Qed.

Lemma save_loop_found (pre post : Ledger) (sd : SymbolData) :
  Forall (other_symbol (symbol orderData)) pre ->
  sd_symbol sd = symbol orderData ->
  save_loop orderData (pre ++ sd :: post)
  = (pre ++ fst (save_in_symbol orderData sd) :: post,
     snd (save_in_symbol orderData sd)).
Proof.
  intros Hpre Hsd. induction Hpre as [|x pre Hx _ IH]; simpl.
  - rewrite (proj2 (String.eqb_eq _ _) Hsd).
    now destruct (save_in_symbol orderData sd).
  - now rewrite (eqb_other_symbol x Hx), IH.
Qed.

Lemma save_loop_absent (l : Ledger) :
  Forall (other_symbol (symbol orderData)) l ->
  save_loop orderData l = (l, false).
Proof.
  intros Hl. induction Hl as [|x l Hx _ IH]; simpl; [reflexivity|].
  now rewrite (eqb_other_symbol x Hx), IH.
Qed.

Lemma add_loop_found (pre post : Ledger) (sd : SymbolData) :
  Forall (other_symbol (symbol orderData)) pre ->
  sd_symbol sd = symbol orderData ->
  add_loop orderData (pre ++ sd :: post)
  = Some (pre ++ add_to_symbol orderData sd :: post).
Proof.
  intros Hpre Hsd. induction Hpre as [|x pre Hx _ IH]; simpl.
  - now rewrite (proj2 (String.eqb_eq _ _) Hsd).
  - now rewrite (eqb_other_symbol x Hx), IH.
Qed.

Lemma add_loop_absent (l : Ledger) :
  Forall (other_symbol (symbol orderData)) l ->
  add_loop orderData l = None.
Proof.
  intros Hl. induction Hl as [|x l Hx _ IH]; simpl; [reflexivity|].
  now rewrite (eqb_other_symbol x Hx), IH.
Qed.
End Loops.

Lemma save_in_symbol_symbol (od : Order) (sd : SymbolData) :
  sd_symbol (fst (save_in_symbol od sd)) = sd_symbol sd.
Proof.
  unfold save_in_symbol.
  destruct (active sd) as [a|]; [|reflexivity].
  destruct (String.eqb (type od) "market"), (positions a),
    (String.eqb (type od) "limit"), (orders a); reflexivity.
Qed.

Lemma add_to_symbol_symbol (od : Order) (sd : SymbolData) :
  sd_symbol (add_to_symbol od sd) = sd_symbol sd.
Proof.
  unfold add_to_symbol.
  destruct (String.eqb (type od) "market"), (String.eqb (type od) "limit");
    reflexivity.
Qed.

(** ** Identifier assignment *)

Lemma symbol_ids_entries (sd : SymbolData) :
  symbol_ids sd = ids_or_0 (symbol_entries sd).
Proof.
  unfold symbol_ids, symbol_entries, ids_or_0.
  now rewrite !map_app.
Qed.

Lemma flat_map_symbol_ids (l : Ledger) :
  flat_map symbol_ids l = ids_or_0 (ledger_entries l).
Proof.
  unfold ledger_entries, ids_or_0.
  induction l as [|sd l IH]; simpl; [reflexivity|].
  rewrite map_app, IH, symbol_ids_entries. reflexivity.
Qed.

(** An empty argument list, or one of [-Infinity] only, gives [-Infinity]. *)
Lemma Math_max_NegInf (l : list JSNum) :
  Math_max l = NegInf <-> Forall (fun x => x = NegInf) l.
Proof.
  induction l as [|x l IH]; simpl.
  - split; [constructor | reflexivity].
  - split.
    + intros H. destruct x as [|z]; simpl in H.
      * constructor; [reflexivity | now apply IH].
      * destruct (Math_max l); discriminate.
    + intros H. inversion H as [|? ? Hx Hl]; subst. simpl.
      now apply IH.
Qed.

(** Up to 2^53 the sum is exact; at 2^53 it is not. *)
Lemma round_to_double_exact (x : Z) :
  (Z.abs x <= 2 ^ 53)%Z -> round_to_double x = x.
Proof.
  intros Hx. unfold round_to_double.
  destruct (Z.ltb_spec (Z.abs x) (2 ^ 53)) as [Hlt|Hge]; [reflexivity|].
  assert (Habs : Z.abs x = (2 ^ 53)%Z) by lia.
  rewrite Habs.
  destruct (Z.abs_eq_or_opp x) as [Heq|Heq]; rewrite Heq in Habs.
  - subst x. reflexivity.
  - assert (Hneg : x = (- 2 ^ 53)%Z) by lia. subst x. reflexivity.
Qed.

Lemma js_add1_exact (m : Z) :
  (Z.abs m < 2 ^ 53)%Z -> js_add1 (Num m) = Num (m + 1).
Proof.
  intros Hm. unfold js_add1. rewrite round_to_double_exact; [reflexivity|lia].
Qed.

Lemma js_add1_at_2_53 : js_add1 (Num (2 ^ 53)) = Num (2 ^ 53).
Proof. reflexivity. Qed.

(** Every argument is at most the maximum, hence below the maximum plus
    one. *)
Lemma Math_max_above (l : list JSNum) (x : JSNum) (m : Z) :
  In x l -> Math_max l = Num m -> js_lt x (Num (m + 1)).
Proof.
  revert m. induction l as [|y l IH]; simpl; [tauto|].
  intros m [->|Hin] Hmax.
  - destruct x as [|z], (Math_max l) as [|k]; simpl in *;
      try discriminate; try exact I; injection Hmax as <-; lia.
  - destruct (Math_max l) as [|k] eqn:Hk.
    + apply Math_max_NegInf in Hk.
      rewrite List.Forall_forall in Hk. rewrite (Hk x Hin). exact I.
    + assert (Hx : js_lt x (Num (k + 1))) by now apply IH.
      destruct x as [|z], y as [|w]; simpl in *;
        try exact I; injection Hmax as <-; lia.
Qed.

Lemma saveNewOrder_accepted (f : NewOrderForm) (now : string) (a : App) :
  form_accepted f a = true ->
  saveNewOrder (Some f) now a
  = post_orders
      (set_ordersData (place_order (stored_order f now (ordersData a)) (ordersData a)) a).
Proof.
  unfold form_accepted, saveNewOrder, stored_order, place_order. intros H.
  rewrite !andb_true_iff in H.
  destruct H as [[[[[[[Hsym Hex] Hside] Hty] Hexs] Hsyms] Hsides] Htys].
  unfold_order_fields.
  rewrite Hsym, Hex, Hside, Hty. cbn [negb orb].
  destruct (truthy (newOrderOpenType f)); unfold_order_fields;
    rewrite Hexs, Hsyms, Hsides, Htys; reflexivity.
Qed.

Lemma saveNewOrder_rejected (f : NewOrderForm) (now : string) (a : App) :
  form_accepted f a = false ->
  exists msg, saveNewOrder (Some f) now a = alert msg a.
Proof.
  unfold form_accepted, saveNewOrder. unfold_order_fields. intros H.
  destruct (truthy (newOrderSymbol f)); cbn [negb orb andb] in *; [|eauto].
  destruct (truthy (newOrderExchange f)); cbn [negb orb andb] in *; [|eauto].
  destruct (truthy (newOrderSide f)); cbn [negb orb andb] in *; [|eauto].
  destruct (truthy (newOrderType f)); cbn [negb orb andb] in *; [|eauto].
  destruct (truthy (newOrderOpenType f)); unfold_order_fields;
    (destruct (includes (availableExchanges a) (newOrderExchange f));
       cbn [negb orb andb] in *; [|eauto];
     destruct (includes (availableSymbols a) (newOrderSymbol f));
       cbn [negb orb andb] in *; [|eauto];
     destruct (includes validSides (newOrderSide f));
       cbn [negb orb andb] in *; [|eauto];
     destruct (includes validTypes (newOrderType f));
       cbn [negb orb andb] in *; [discriminate|eauto]).
Qed.

(** With a largest identifier [m] below 2^53 in absolute value, the
    identifier of an accepted form is [m + 1], above every identifier
    already there. *)
Lemma stored_order_id_above (f : NewOrderForm) (now : string) (l : Ledger) (m : Z) :
  maxId l = Num m ->
  (Z.abs m < 2 ^ 53)%Z ->
  id (stored_order f now l) = IdNumber (Num (m + 1))
  /\ forall o, In o (ledger_entries l) -> js_lt (id_or_0 (id o)) (Num (m + 1)).
Proof.
  intros Hmax Hm. split.
  - unfold stored_order. cbn [id set_id]. now rewrite Hmax, js_add1_exact.
  - intros o Ho. unfold maxId in Hmax.
    apply (Math_max_above (flat_map symbol_ids l) _ m); [|assumption].
    rewrite flat_map_symbol_ids. unfold ids_or_0.
    apply in_map_iff. eauto.
Qed.

(** With no entry in the ledger the identifier of an accepted form is
    [-Infinity]. *)
Lemma stored_order_id_no_entries (f : NewOrderForm) (now : string) (l : Ledger) :
  ledger_entries l = [] -> id (stored_order f now l) = IdNumber NegInf.
Proof.
  intros Hl. unfold stored_order, maxId. cbn [id set_id].
  now rewrite flat_map_symbol_ids, Hl.
Qed.

(** Then the new identifier is none of those already there. *)
Lemma stored_order_id_fresh (f : NewOrderForm) (now : string) (l : Ledger) (m : Z) :
  maxId l = Num m ->
  (Z.abs m < 2 ^ 53)%Z ->
  ~ In (id (stored_order f now l)) (ledger_ids l).
Proof.
  intros Hmax Hm Hin.
  destruct (stored_order_id_above f now l m Hmax Hm) as (Hid & Habove).
  unfold ledger_ids in Hin. apply in_map_iff in Hin as (o & Ho & Hin).
  specialize (Habove o Hin). rewrite Ho, Hid in Habove. cbn in Habove. lia.
Qed.

Lemma add_to_symbol_entries (o : Order) (sd : SymbolData) :
  type o = "market" \/ type o = "limit" ->
  symbol_entries (add_to_symbol o sd) ≡ₚ o :: symbol_entries sd.
Proof.
  intros Hty. unfold add_to_symbol, symbol_entries, active_orders, active_positions.
  destruct (String.eqb_spec (type o) "market") as [Hm|Hm].
  - destruct (active sd) as [[os ps]|]; cbn.
    + rewrite <- (assoc_L (++) (or_empty ps)). simpl.
      rewrite (assoc_L (++) (or_empty os)). rewrite <- Permutation_middle.
      now rewrite <- (assoc_L (++)).
    + reflexivity.
  - destruct Hty as [Hty|Hty]; [contradiction|].
    rewrite Hty. cbn.
    destruct (active sd) as [[os ps]|]; cbn.
    + rewrite <- (assoc_L (++) (or_empty os)). simpl.
      now rewrite <- Permutation_middle.
    + reflexivity.
Qed.

(** The insert adds the new entry to the entries of the ledger and nothing
    else. *)
Lemma place_order_entries (o : Order) (l : Ledger) :
  type o = "market" \/ type o = "limit" ->
  ledger_entries (place_order o l) ≡ₚ o :: ledger_entries l.
Proof.
  intros Hty. unfold place_order, ledger_entries.
  destruct (first_symbol_split (symbol o) l)
    as [Hall|(pre & sd & post & -> & Hpre & Hsd)].
  - rewrite add_loop_absent by assumption.
    assert (Hnew : symbol_entries (new_symbol_entry o) = [o]).
    { unfold new_symbol_entry, symbol_entries. cbn.
      destruct Hty as [Hty|Hty]; now rewrite Hty. }
    rewrite flat_map_app. cbn [flat_map]. rewrite Hnew, app_nil_r.
    symmetry. apply Permutation_cons_append.
  - rewrite add_loop_found by assumption.
    rewrite !flat_map_app. cbn [flat_map].
    rewrite (add_to_symbol_entries o sd Hty). cbn [app].
    now rewrite <- Permutation_middle.
Qed.

(** X17: the insert on a ledger whose largest identifier, absent and null
    identifiers read as 0, is a number [m] below 2^53 in absolute value:
    the ledger gains exactly the new entry, whose identifier is [m + 1],
    above the identifier of every entry and equal to none of them.  (A
    ledger whose only identifiers are [-Infinity] has no such [m], and at
    2^53 the sum is 2^53 again.) *)
Lemma saveNewOrder_fresh_identifier (f : NewOrderForm) (now : string) (a : App) (m : Z) :
  form_accepted f a = true ->
  maxId (ordersData a) = Num m ->
  (Z.abs m < 2 ^ 53)%Z ->
  exists o,
    ledger_entries (ordersData (saveNewOrder (Some f) now a))
      ≡ₚ o :: ledger_entries (ordersData a)
    /\ id o = IdNumber (Num (m + 1))
    /\ (forall o', In o' (ledger_entries (ordersData a)) ->
          js_lt (id_or_0 (id o')) (Num (m + 1)))
    /\ ~ In (id o) (ledger_ids (ordersData a)).
Proof.
  intros Hacc Hmax Hm.
  destruct (stored_order_id_above f now (ordersData a) m Hmax Hm) as (Hid & Habove).
  exists (stored_order f now (ordersData a)).
  rewrite (saveNewOrder_accepted f now a Hacc).
  cbn [ordersData post_orders set_ordersData].
  split; [|split; [exact Hid|split; [exact Habove|]]].
  - apply place_order_entries.
    unfold form_accepted in Hacc. rewrite !andb_true_iff in Hacc.
    destruct Hacc as [_ Hty]. unfold includes, validTypes in Hty. cbn in Hty.
    assert (Htype : type (stored_order f now (ordersData a)) = newOrderType f).
    { unfold stored_order. now destruct (truthy (newOrderOpenType f)). }
    rewrite Htype.
    destruct (String.eqb_spec (newOrderType f) "market") as [Hm'|_]; [now left|].
    destruct (String.eqb_spec (newOrderType f) "limit") as [Hl|_]; [now right|].
    discriminate Hty.
  - now apply (stored_order_id_fresh f now (ordersData a) m).
Qed.

(** C1, at the ledger the page starts with: [Math.max()] of no identifier
    is [-Infinity], so the first entry gets the identifier [-Infinity], not
    1, and a second insert gets [-Infinity] again. *)
Theorem saveNewOrder_empty_ledger_identifier :
  let a1 := saveNewOrder (Some btc_limit_form) "2024-01-15 14:30:00" (page []) in
  let a2 := saveNewOrder (Some btc_limit_form) "2024-01-15 14:31:00" a1 in
  maxId [] = NegInf
  /\ ledger_ids (ordersData a1) = [IdNumber NegInf]
  /\ ledger_ids (ordersData a2) = [IdNumber NegInf; IdNumber NegInf].
Proof. vm_compute. repeat split. Qed.

(** ** Symbols of the ledger *)

Lemma other_symbol_not_in (s : string) (l : Ledger) :
  Forall (other_symbol s) l <-> ~ In s (ledger_symbols l).
Proof.
  unfold ledger_symbols, other_symbol. rewrite List.Forall_forall, in_map_iff.
  split.
  - intros H (sd & Hs & Hin). exact (H sd Hin Hs).
  - intros H sd Hin Hs. apply H. eauto.
Qed.

Lemma close_loop_symbols (od : Order) (now : string) (l : Ledger) :
  ledger_symbols (close_loop od now l) = ledger_symbols l.
Proof.
  induction l as [|sd l IH]; simpl; [reflexivity|].
  destruct (String.eqb (sd_symbol sd) (symbol od)); simpl; [reflexivity|].
  now rewrite IH.
Qed.

Lemma place_order_symbols_present (o : Order) (l : Ledger) :
  In (symbol o) (ledger_symbols l) ->
  ledger_symbols (place_order o l) = ledger_symbols l.
Proof.
  intros Hin. unfold place_order.
  destruct (first_symbol_split (symbol o) l)
    as [Hall|(pre & sd & post & -> & Hpre & Hsd)].
  - now apply other_symbol_not_in in Hall.
  - rewrite add_loop_found by assumption.
    unfold ledger_symbols. rewrite !map_app. simpl.
    now rewrite add_to_symbol_symbol.
Qed.

Lemma place_order_symbols_absent (o : Order) (l : Ledger) :
  ~ In (symbol o) (ledger_symbols l) ->
  ledger_symbols (place_order o l) = ledger_symbols l ++ [symbol o].
Proof.
  intros Hnotin. unfold place_order.
  rewrite add_loop_absent by now apply other_symbol_not_in.
  unfold ledger_symbols. now rewrite map_app.
Qed.

(** The insert and the close keep the symbols of the ledger distinct; the
    insert adds a Symbol Ledger only for a symbol that has none. *)
Lemma insert_close_keep_symbols_unique (a : App) :
  List.NoDup (ledger_symbols (ordersData a)) ->
  (forall form now,
      List.NoDup (ledger_symbols (ordersData (saveNewOrder form now a))))
  /\ (forall od now,
      ledger_symbols (ordersData (performCloseOperation od now a))
      = ledger_symbols (ordersData a)).
Proof.
  intros Hnd. split.
  - intros [f|] now; [|exact Hnd].
    destruct (form_accepted f a) eqn:Hacc.
    + rewrite (saveNewOrder_accepted f now a Hacc). cbn [ordersData post_orders set_ordersData].
      set (o := stored_order f now (ordersData a)).
      destruct (in_dec String.string_dec (symbol o) (ledger_symbols (ordersData a)))
        as [Hin|Hnotin].
      * now rewrite place_order_symbols_present.
      * rewrite place_order_symbols_absent by assumption.
        apply NoDup_ListNoDup, NoDup_app. repeat split.
        -- now apply NoDup_ListNoDup.
        -- intros x Hx Hx'. apply list_elem_of_In in Hx.
           apply list_elem_of_singleton in Hx'. now subst.
        -- apply NoDup_singleton.
    + destruct (saveNewOrder_rejected f now a Hacc) as [msg ->]. exact Hnd.
  - intros od now. apply close_loop_symbols.
Qed.

Lemma required_fields_checked (od : Order) :
  negb (truthy (symbol od)) || negb (truthy (exchange od))
  || negb (truthy (side od)) || negb (truthy (type od))
  = negb (required_fields od).
Proof.
  unfold required_fields.
  now destruct (truthy (symbol od)), (truthy (exchange od)),
    (truthy (side od)), (truthy (type od)).
Qed.

Lemma save_in_symbol_no_collection (od : Order) (sd : SymbolData) :
  (forall act, active sd = Some act -> kind_collection od act = None) ->
  save_in_symbol od sd = (sd, false).
Proof.
  intros Hnone. unfold save_in_symbol.
  destruct (active sd) as [act|]; [|reflexivity].
  specialize (Hnone act eq_refl). unfold kind_collection in Hnone.
  destruct (String.eqb_spec (type od) "market") as [Hm|Hm].
  - rewrite Hnone, Hm. cbn. now destruct (orders act).
  - destruct (String.eqb (type od) "limit"); [now rewrite Hnone|].
    now destruct (positions act), (orders act).
Qed.

(** Whenever the Symbol Ledger of the payload's symbol lacks the collection
    implied by the payload's kind, the confirmed save pushes another Symbol
    Ledger with the same symbol. *)
Lemma performSaveOperation_pushes_duplicate (od : Order) (a : App)
    (pre post : Ledger) (sd : SymbolData) :
  required_fields od = true ->
  ordersData a = pre ++ sd :: post ->
  Forall (other_symbol (symbol od)) pre ->
  sd_symbol sd = symbol od ->
  (forall act, active sd = Some act -> kind_collection od act = None) ->
  ordersData (performSaveOperation od a) = ordersData a ++ [newSymbolData od]
  /\ sd_symbol (newSymbolData od) = sd_symbol sd.
Proof.
  intros Hreq Hl Hpre Hsd Hnone. split.
  - unfold performSaveOperation.
    rewrite required_fields_checked, Hreq, Hl. cbn [negb].
    rewrite save_loop_found by assumption.
    now rewrite save_in_symbol_no_collection.
  - rewrite Hsd. unfold newSymbolData.
    now destruct (String.eqb (type od) "market"), (String.eqb (type od) "limit").
Qed.

(** C3, on the confirmed save: a Symbol Ledger that [performSaveOperation]
    itself created for a limit order has no [positions]; saving the same
    entry as a market order then finds no collection, leaves [orderUpdated]
    false and pushes a second Symbol Ledger for the same symbol. *)
Theorem performSaveOperation_second_symbol_ledger :
  let a1 := performSaveOperation (entry (IdNumber (Num 1)) "BTC/USDT" "gate" "limit") (page []) in
  let a2 := performSaveOperation (entry (IdNumber (Num 1)) "BTC/USDT" "gate" "market") a1 in
  ledger_symbols (ordersData a1) = ["BTC/USDT"]
  /\ ledger_symbols (ordersData a2) = ["BTC/USDT"; "BTC/USDT"]
  /\ ~ List.NoDup (ledger_symbols (ordersData a2)).
Proof.
  cbv zeta. split; [reflexivity|]. split; [reflexivity|].
  intros Hnd. change (List.NoDup ["BTC/USDT"; "BTC/USDT"]) in Hnd.
  inversion Hnd as [|? ? Hnotin _]. apply Hnotin. now left.
Qed.

(** ** Closing *)

(** Whatever the identifier, once a Symbol Ledger has the payload's symbol
    the stamped payload is appended to its [closed]. *)
Lemma close_in_symbol_closed (od : Order) (now : string) (sd : SymbolData) :
  closed (close_in_symbol od now sd)
  = Some (or_empty (closed sd) ++ [set_close_date now od]).
Proof. reflexivity. Qed.

(** With no Symbol Ledger of the payload's symbol, the close changes no
    collection. *)
Lemma performCloseOperation_no_symbol (od : Order) (now : string) (a : App) :
  ~ In (symbol od) (ledger_symbols (ordersData a)) ->
  ordersData (performCloseOperation od now a) = ordersData a.
Proof.
  intros H. apply other_symbol_not_in in H.
  unfold performCloseOperation. cbn [ordersData post_orders set_ordersData].
  now apply close_loop_absent.
Qed.

Lemma filter_keeps_all (v : IdVal) (l : list Order) :
  Forall (fun o => id o <> v) l -> filter (fun o => id o <> v) l = l.
Proof.
  induction 1 as [|x l Hx _ IH]; [reflexivity|].
  now rewrite filter_cons_True, IH.
Qed.

Lemma filter_out_unique (v : IdVal) (before after : list Order) (e : Order) :
  id e = v ->
  Forall (fun o => id o <> v) (before ++ after) ->
  filter (fun o => id o <> v) (before ++ e :: after) = before ++ after.
Proof.
  intros He Hall. apply Forall_app in Hall as [Hb Ha].
  rewrite filter_app, filter_cons_False by (intros H; exact (H He)).
  f_equal; apply filter_keeps_all; assumption.
Qed.

Lemma kind_collection_type (od : Order) (act : Active) (l : list Order) :
  kind_collection od act = Some l ->
  (type od = "market" /\ positions act = Some l)
  \/ (type od <> "market" /\ type od = "limit" /\ orders act = Some l).
Proof.
  unfold kind_collection.
  destruct (String.eqb_spec (type od) "market") as [Hm|Hm]; [now left|].
  destruct (String.eqb_spec (type od) "limit") as [Hl|Hl]; [|discriminate].
  intros H. right. now repeat split.
Qed.

Lemma close_in_symbol_not_found (od : Order) (now : string) (sd : SymbolData) :
  (forall act coll,
      active sd = Some act -> kind_collection od act = Some coll ->
      Forall (fun o => id o <> id od) coll) ->
  close_in_symbol od now sd
  = mkSymbolData (sd_symbol sd) (active sd)
      (Some (or_empty (closed sd) ++ [set_close_date now od])).
Proof.
  intros Hnone. unfold close_in_symbol. f_equal.
  destruct (active sd) as [[os ps]|] eqn:Hact; [|reflexivity].
  pose proof (fun coll => Hnone (mkActive os ps) coll eq_refl) as Hcoll.
  unfold kind_collection in Hcoll. cbn [orders positions] in *.
  destruct (String.eqb_spec (type od) "market") as [Hm|Hm].
  - destruct ps as [ps|].
    + now rewrite (filter_keeps_all _ _ (Hcoll ps eq_refl)).
    + rewrite Hm. cbn. now destruct os.
  - destruct (String.eqb (type od) "limit"), os as [os|]; try reflexivity.
    now rewrite (filter_keeps_all _ _ (Hcoll os eq_refl)).
Qed.

(** Whenever some Symbol Ledger has the payload's symbol and the payload's
    identifier is not in the collection implied by its kind, the active
    collections stay as they are and the payload is appended to [closed]. *)
Lemma performCloseOperation_not_found_appends (od : Order) (now : string) (a : App)
    (pre post : Ledger) (sd : SymbolData) :
  ordersData a = pre ++ sd :: post ->
  Forall (other_symbol (symbol od)) pre ->
  sd_symbol sd = symbol od ->
  (forall act coll,
      active sd = Some act -> kind_collection od act = Some coll ->
      Forall (fun o => id o <> id od) coll) ->
  ordersData (performCloseOperation od now a)
  = pre ++ mkSymbolData (sd_symbol sd) (active sd)
             (Some (or_empty (closed sd) ++ [set_close_date now od])) :: post.
Proof.
  intros Hl Hpre Hsd Hnone.
  unfold performCloseOperation. cbn [ordersData post_orders set_ordersData].
  rewrite Hl, close_loop_found by assumption.
  now rewrite close_in_symbol_not_found.
Qed.

(** C2, at a payload whose identifier is in no collection: the filter
    removes nothing, and the payload is still stamped and pushed to
    [closed]. *)
Theorem performCloseOperation_unknown_identifier :
  let held := entry (IdNumber (Num 1)) "BTC/USDT" "gate" "market" in
  let payload := entry (IdNumber (Num 7)) "BTC/USDT" "gate" "market" in
  let before := [mkSymbolData "BTC/USDT" (Some (mkActive (Some []) (Some [held]))) (Some [])] in
  findIndex_id (id payload) [held] = None
  /\ ordersData (performCloseOperation payload "2024-01-16 09:00:00" (page before))
     = [mkSymbolData "BTC/USDT" (Some (mkActive (Some []) (Some [held])))
          (Some [set_close_date "2024-01-16 09:00:00" payload])]
  /\ ordersData (performCloseOperation payload "2024-01-16 09:00:00" (page before))
     <> before.
Proof.
  cbv zeta. split; [reflexivity|]. split; [reflexivity|].
  intros H. vm_compute in H. discriminate H.
Qed.

(** C4 as stated fails.  The close stamp is the reading of the clock at
    the confirmation and the operation never reads the creation timestamp:
    an entry created on 2024-01-15 at 14:30:00 and closed while the clock
    reads 2024-01-14 09:00:00 is stamped before its creation.  And the
    entries are removed by identifier: where two entries of the collection
    carry the identifier of the payload both are removed, and the symbol
    goes from two entries to one. *)
Lemma performCloseOperation_stamp_and_count :
  let od := entry (IdNumber (Num 1)) "BTC/USDT" "gate" "market" in
  let twin := entry (IdNumber (Num 1)) "BTC/USDT" "binance" "market" in
  let early := "2024-01-14 09:00:00" in
  let held_once :=
    mkSymbolData "BTC/USDT" (Some (mkActive (Some []) (Some [od]))) (Some []) in
  let held_twice :=
    mkSymbolData "BTC/USDT" (Some (mkActive (Some []) (Some [od; twin]))) (Some []) in
  (ordersData (performCloseOperation od early (page [held_once]))
   = [mkSymbolData "BTC/USDT" (Some (mkActive (Some []) (Some [])))
        (Some [set_close_date early od])]
   /\ date (set_close_date early od) = Some "2024-01-15 14:30:00"
   /\ close_date (set_close_date early od) = Some early
   /\ ~ timestamp_le "2024-01-15 14:30:00" early)
  /\ (ordersData (performCloseOperation od "2024-01-16 09:00:00" (page [held_twice]))
      = [mkSymbolData "BTC/USDT" (Some (mkActive (Some []) (Some [])))
           (Some [set_close_date "2024-01-16 09:00:00" od])]
      /\ entry_count held_twice = 2
      /\ entry_count
           (mkSymbolData "BTC/USDT" (Some (mkActive (Some []) (Some [])))
              (Some [set_close_date "2024-01-16 09:00:00" od])) = 1).
Proof.
  cbv zeta. split; [split; [reflexivity|split; [reflexivity|split; [reflexivity|]]]|].
  - intros (x & y & Hx & Hy & Hle). vm_compute in Hx, Hy.
    injection Hx as <-. injection Hy as <-. lia.
  - split; [reflexivity|split; reflexivity].
Qed.

(** C4, amended: closing a payload whose identifier is that of exactly one
    entry of the active collection implied by its kind, in the first
    Symbol Ledger of its symbol, removes that entry from that collection
    only, appends the payload, stamped with the reading of the clock at
    the confirmation, to [closed] of the same Symbol Ledger, and keeps the
    entry count of the symbol.  The creation timestamp is kept as it is
    and is not compared with the stamp. *)
Theorem performCloseOperation_moves_entry
    (od e : Order) (now : string) (a : App) (pre post : Ledger)
    (sd : SymbolData) (act : Active) (before after : list Order) :
  ordersData a = pre ++ sd :: post ->
  Forall (other_symbol (symbol od)) pre ->
  sd_symbol sd = symbol od ->
  active sd = Some act ->
  kind_collection od act = Some (before ++ e :: after) ->
  id e = id od ->
  Forall (fun o => id o <> id od) (before ++ after) ->
  exists sd' act',
    ordersData (performCloseOperation od now a) = pre ++ sd' :: post
    /\ sd_symbol sd' = sd_symbol sd
    /\ active sd' = Some act'
    /\ kind_collection od act' = Some (before ++ after)
    /\ other_collection od act' = other_collection od act
    /\ closed sd' = Some (or_empty (closed sd) ++ [set_close_date now od])
    /\ date (set_close_date now od) = date od
    /\ close_date (set_close_date now od) = Some now
    /\ entry_count sd' = entry_count sd.
Proof.
  intros Hl Hpre Hsd Hact Hcoll He Hothers.
  unfold performCloseOperation. cbn [ordersData post_orders set_ordersData].
  rewrite Hl, close_loop_found by assumption.
  pose proof (filter_out_unique (id od) before after e He Hothers) as Hfilter.
  destruct (kind_collection_type od act _ Hcoll)
    as [[Hty Hps]|(Hnm & Hty & Hos)].
  - exists (close_in_symbol od now sd),
      (mkActive (orders act) (Some (before ++ after))).
    unfold close_in_symbol, kind_collection, other_collection, entry_count,
      active_orders, active_positions.
    rewrite Hact, Hty, Hps, Hfilter. cbn.
    repeat split; try assumption.
    rewrite Hps. cbn. rewrite !length_app. cbn. lia.
  - exists (close_in_symbol od now sd),
      (mkActive (Some (before ++ after)) (positions act)).
    apply String.eqb_neq in Hnm.
    unfold close_in_symbol, kind_collection, other_collection, entry_count,
      active_orders, active_positions.
    rewrite Hact, Hnm, Hty.
    destruct act as [os ps]. cbn in Hos. subst os.
    destruct ps; cbn; rewrite Hfilter;
      (repeat split; try assumption; rewrite !length_app; cbn; lia).
Qed.

(** The scenario "entry 1, a market entry in [active.positions], is closed":
    afterwards [positions] is empty and [closed] holds the entry, stamped. *)
Lemma performCloseOperation_moves_entry_witness :
  let od := entry (IdNumber (Num 1)) "BTC/USDT" "gate" "market" in
  let sd := mkSymbolData "BTC/USDT" (Some (mkActive (Some []) (Some [od]))) (Some []) in
  let now := "2024-01-16 09:00:00" in
  exists sd' act',
    ordersData (performCloseOperation od now (page [sd])) = [] ++ sd' :: []
    /\ sd_symbol sd' = sd_symbol sd
    /\ active sd' = Some act'
    /\ kind_collection od act' = Some ([] ++ [])
    /\ other_collection od act' = other_collection od (mkActive (Some []) (Some [od]))
    /\ closed sd' = Some (or_empty (closed sd) ++ [set_close_date now od])
    /\ date (set_close_date now od) = date od
    /\ close_date (set_close_date now od) = Some now
    /\ entry_count sd' = entry_count sd.
Proof.
  cbv zeta.
  apply (performCloseOperation_moves_entry
           (entry (IdNumber (Num 1)) "BTC/USDT" "gate" "market")
           (entry (IdNumber (Num 1)) "BTC/USDT" "gate" "market")
           "2024-01-16 09:00:00"
           (page [mkSymbolData "BTC/USDT"
                    (Some (mkActive (Some [])
                       (Some [entry (IdNumber (Num 1)) "BTC/USDT" "gate" "market"])))
                    (Some [])])
           [] []
           (mkSymbolData "BTC/USDT"
              (Some (mkActive (Some [])
                 (Some [entry (IdNumber (Num 1)) "BTC/USDT" "gate" "market"])))
              (Some []))
           (mkActive (Some [])
              (Some [entry (IdNumber (Num 1)) "BTC/USDT" "gate" "market"]))
           [] []).
  - reflexivity.
  - constructor.
  - reflexivity.
  - reflexivity.
  - reflexivity.
  - reflexivity.
  - constructor.
Defined.

(** ** Validation against the exchange catalog *)

Lemma includes_In (l : list string) (s : string) :
  includes l s = true <-> In s l.
Proof.
  unfold includes. rewrite existsb_exists. split.
  - intros (x & Hin & Heq). apply String.eqb_eq in Heq. now subst.
  - intros Hin. exists s. split; [assumption | apply String.eqb_refl].
Qed.

(** What a rejection leaves alone. *)
Lemma alert_frame (msg : string) (a : App) :
  ordersData (alert msg a) = ordersData a
  /\ confirmationModal (alert msg a) = confirmationModal a
  /\ requests (alert msg a) = requests a
  /\ alerts (alert msg a) = alerts a ++ [msg].
Proof. repeat split. Qed.

(** C5 as stated fails on the confirmed save: [performSaveOperation] checks
    only that the four required members are non-empty, so a payload whose
    exchange is not in the catalog replaces the stored entry. *)
Lemma performSaveOperation_accepts_unlisted_exchange :
  let held := entry (IdNumber (Num 1)) "BTC/USDT" "gate" "limit" in
  let payload := entry (IdNumber (Num 1)) "BTC/USDT" "kraken" "limit" in
  let before := [mkSymbolData "BTC/USDT" (Some (mkActive (Some [held]) (Some []))) (Some [])] in
  includes (availableExchanges (page before)) (exchange payload) = false
  /\ ordersData (performSaveOperation payload (page before))
     = [mkSymbolData "BTC/USDT" (Some (mkActive (Some [payload]) (Some []))) (Some [])]
  /\ ordersData (performSaveOperation payload (page before)) <> before
  /\ alerts (performSaveOperation payload (page before)) = [].
Proof.
  cbv zeta. repeat split.
  intros H. vm_compute in H. discriminate H.
Qed.

(** C5, amended: the exchange is checked where an entry is submitted.  The
    new-entry form rejects an exchange outside the catalog whatever the
    other inputs are, and so does the save of a row in edit mode: an alert,
    nothing staged, the ledger as it was, no request. *)
Theorem unlisted_exchange_rejected_on_submit (a : App) :
  (forall f now,
      includes (availableExchanges a) (newOrderExchange f) = false ->
      exists msg, saveNewOrder (Some f) now a = alert msg a)
  /\ (forall symbol_ type_ index r sd o,
      find_symbol symbol_ (ordersData a) = Some sd ->
      order_at sd type_ index = Some o ->
      edit_inputs r <> 0 ->
      includes (availableExchanges a) (exchange (updatedOrder r o)) = false ->
      saveOrder symbol_ type_ index (Some r) a = alert (invalid_exchange_msg a) a).
Proof.
  split.
  - intros f now Hex. apply saveNewOrder_rejected.
    unfold form_accepted. rewrite Hex.
    now rewrite !andb_false_r.
  - intros symbol_ type_ index r sd o Hsd Ho Hedit Hex.
    unfold saveOrder. rewrite Hsd, Ho.
    destruct (Nat.eqb_spec (edit_inputs r) 0) as [H0|_]; [contradiction|].
    now rewrite Hex.
Qed.

Lemma unlisted_exchange_rejected_on_submit_witness :
  let held := entry (IdNumber (Num 1)) "BTC/USDT" "gate" "limit" in
  let before := [mkSymbolData "BTC/USDT" (Some (mkActive (Some [held]) (Some []))) (Some [])] in
  let f := mkNewOrderForm "BTC/USDT" "kraken" "long" "limit" EmptyString
             None None None None None None None in
  let r := mkRow 8 (Some "kraken") (Some "long") (Some "limit") (Some None) (Some None)
             (Some None) (Some None) (Some None) in
  (exists msg, saveNewOrder (Some f) "2024-01-16 09:00:00" (page before) = alert msg (page before))
  /\ saveOrder "BTC/USDT" "orders" 0 (Some r) (page before)
     = alert (invalid_exchange_msg (page before)) (page before).
Proof.
  cbv zeta.
  pose proof (unlisted_exchange_rejected_on_submit
                (page [mkSymbolData "BTC/USDT"
                         (Some (mkActive
                            (Some [entry (IdNumber (Num 1)) "BTC/USDT" "gate" "limit"])
                            (Some []))) (Some [])])) as [Hnew Hsave].
  split.
  - apply Hnew. reflexivity.
  - eapply Hsave.
    + reflexivity.
    + reflexivity.
    + discriminate.
    + reflexivity.
Defined.

(** ** The confirmed save of a payload that is not in the ledger *)

Lemma update_or_push_not_found (od : Order) (l : list Order) :
  findIndex_id (id od) l = None -> update_or_push od l = l ++ [od].
Proof. unfold update_or_push. now intros ->. Qed.

Lemma save_in_symbol_kind (od : Order) (sd : SymbolData) (act : Active) (coll : list Order) :
  active sd = Some act ->
  kind_collection od act = Some coll ->
  save_in_symbol od sd
  = (mkSymbolData (sd_symbol sd)
       (Some (with_kind_collection od act (update_or_push od coll))) (closed sd),
     true).
Proof.
  intros Hact Hcoll. unfold save_in_symbol, with_kind_collection. rewrite Hact.
  destruct (kind_collection_type od act coll Hcoll)
    as [[Hty Hps]|(Hnm & Hty & Hos)].
  - now rewrite Hty, Hps.
  - apply String.eqb_neq in Hnm. rewrite Hnm, Hty, Hos.
    now destruct (positions act).
Qed.

(** C6 as stated fails: on a ledger that holds identifier 5, inserting the
    scenario's limit order assigns 6 and creates the Symbol Ledger with its
    three collections, while the confirmed save of the same payload keeps
    the payload's absent identifier and creates the Symbol Ledger with
    [active.orders] only. *)
Lemma performSaveOperation_is_not_insert :
  let now := "2024-01-16 09:00:00" in
  let held := entry (IdNumber (Num 5)) "ETH/USDT" "gate" "limit" in
  let before := [mkSymbolData "ETH/USDT" (Some (mkActive (Some [held]) (Some []))) (Some [])] in
  let payload := set_open_type "isolated" (new_orderData btc_limit_form now) in
  ordersData (saveNewOrder (Some btc_limit_form) now (page before))
  = before ++ [mkSymbolData "BTC/USDT"
                 (Some (mkActive (Some [set_id (IdNumber (Num 6)) payload]) (Some [])))
                 (Some [])]
  /\ ordersData (performSaveOperation payload (page before))
     = before ++ [mkSymbolData "BTC/USDT" (Some (mkActive (Some [payload]) None)) None]
  /\ ordersData (performSaveOperation payload (page before))
     <> ordersData (saveNewOrder (Some btc_limit_form) now (page before)).
Proof.
  cbv zeta. repeat split.
  intros H. vm_compute in H. discriminate H.
Qed.

(** C6, amended: a payload whose identifier is not found in the collection
    implied by its kind is appended to that collection as it is, with the
    identifier it came with; nothing is assigned and only the presence of
    the four required members is checked.  When no Symbol Ledger has its
    symbol, one is pushed that holds the collection implied by the kind and
    nothing else. *)
Theorem performSaveOperation_not_found (od : Order) (a : App) :
  (required_fields od = false ->
     performSaveOperation od a = alert "Error: Missing required order fields" a)
  /\ (forall pre sd post act coll,
        required_fields od = true ->
        ordersData a = pre ++ sd :: post ->
        Forall (other_symbol (symbol od)) pre ->
        sd_symbol sd = symbol od ->
        active sd = Some act ->
        kind_collection od act = Some coll ->
        findIndex_id (id od) coll = None ->
        performSaveOperation od a
        = post_orders
            (set_ordersData
               (pre ++ mkSymbolData (sd_symbol sd)
                         (Some (with_kind_collection od act (coll ++ [od])))
                         (closed sd) :: post) a))
  /\ (required_fields od = true ->
      ~ In (symbol od) (ledger_symbols (ordersData a)) ->
      performSaveOperation od a
      = post_orders (set_ordersData (ordersData a ++ [newSymbolData od]) a))
  /\ (type od = "market" ->
      newSymbolData od
      = mkSymbolData (symbol od) (Some (mkActive None (Some [od]))) None)
  /\ (type od = "limit" ->
      newSymbolData od
      = mkSymbolData (symbol od) (Some (mkActive (Some [od]) None)) None).
Proof.
  repeat split.
  - intros Hreq. unfold performSaveOperation.
    now rewrite required_fields_checked, Hreq.
  - intros pre sd post act coll Hreq Hl Hpre Hsd Hact Hcoll Hfind.
    unfold performSaveOperation.
    rewrite required_fields_checked, Hreq, Hl. cbn [negb].
    rewrite save_loop_found by assumption.
    rewrite (save_in_symbol_kind od sd act coll Hact Hcoll).
    now rewrite update_or_push_not_found.
  - intros Hreq Hnotin. unfold performSaveOperation.
    rewrite required_fields_checked, Hreq. cbn [negb].
    now rewrite save_loop_absent by now apply other_symbol_not_in.
  - intros Hty. unfold newSymbolData. now rewrite Hty.
  - intros Hty. unfold newSymbolData. now rewrite Hty.
Qed.

Lemma performSaveOperation_not_found_witness :
  let held := entry (IdNumber (Num 5)) "ETH/USDT" "gate" "limit" in
  let sd := mkSymbolData "ETH/USDT" (Some (mkActive (Some [held]) (Some []))) (Some []) in
  let od := entry IdUndefined "ETH/USDT" "gate" "limit" in
  let od' := entry IdUndefined "BTC/USDT" "gate" "market" in
  performSaveOperation od (page [sd])
  = post_orders
      (set_ordersData
         ([] ++ mkSymbolData "ETH/USDT"
                  (Some (with_kind_collection od (mkActive (Some [held]) (Some []))
                           ([held] ++ [od])))
                  (Some []) :: []) (page [sd]))
  /\ performSaveOperation od' (page [sd])
     = post_orders (set_ordersData ([sd] ++ [newSymbolData od']) (page [sd]))
  /\ newSymbolData od'
     = mkSymbolData "BTC/USDT" (Some (mkActive None (Some [od']))) None.
Proof.
  cbv zeta. split; [|split].
  - apply (proj1 (proj2 (performSaveOperation_not_found
                           (entry IdUndefined "ETH/USDT" "gate" "limit")
                           (page [mkSymbolData "ETH/USDT"
                                    (Some (mkActive
                                       (Some [entry (IdNumber (Num 5)) "ETH/USDT" "gate" "limit"])
                                       (Some []))) (Some [])])))
             []
             (mkSymbolData "ETH/USDT"
                (Some (mkActive
                   (Some [entry (IdNumber (Num 5)) "ETH/USDT" "gate" "limit"])
                   (Some []))) (Some []))
             []
             (mkActive (Some [entry (IdNumber (Num 5)) "ETH/USDT" "gate" "limit"])
                (Some []))
             [entry (IdNumber (Num 5)) "ETH/USDT" "gate" "limit"]).
    + reflexivity.
    + reflexivity.
    + constructor.
    + reflexivity.
    + reflexivity.
    + reflexivity.
    + reflexivity.
  - apply (proj1 (proj2 (proj2 (performSaveOperation_not_found
                                  (entry IdUndefined "BTC/USDT" "gate" "market")
                                  (page [mkSymbolData "ETH/USDT"
                                           (Some (mkActive
                                              (Some [entry (IdNumber (Num 5)) "ETH/USDT" "gate" "limit"])
                                              (Some []))) (Some [])]))))).
    + reflexivity.
    + vm_compute. intros [H|[]]. discriminate H.
  - apply (proj1 (proj2 (proj2 (proj2 (performSaveOperation_not_found
                                  (entry IdUndefined "BTC/USDT" "gate" "market")
                                  (page []))))) ).
    reflexivity.
Defined.

(** ** Refreshing the catalogs *)

(** C7 as stated fails: with a catalog already loaded, a failed fetch
    replaces it by the hardcoded list. *)
Lemma failed_refresh_drops_loaded_catalog :
  let a := mkApp [] ["binance"; "okx"] ["SOL/USDT"] (mkModal true false None None) [] [] in
  availableExchanges (loadAvailableExchanges None a) = ["gate"; "bitget"; "bingx"; "mexc"]
  /\ availableExchanges (loadAvailableExchanges None a) <> availableExchanges a
  /\ availableSymbols (loadAvailableSymbols None a)
     = ["BTC/USDT"; "ETH/USDT"; "BTC/USDT:USDT"; "ETH/USDT:USDT"]
  /\ availableSymbols (loadAvailableSymbols None a) <> availableSymbols a.
Proof. cbv zeta. repeat split; intros H; discriminate H. Qed.

(** C7, amended: a failed fetch installs the hardcoded list whether or not
    a list was loaded before; a fetch that succeeds installs the names of
    the records in use.  Each refresh touches its own list only. *)
Theorem failed_refresh_installs_fallback (a : App) :
  loadAvailableExchanges None a = set_availableExchanges fallbackExchanges a
  /\ loadAvailableSymbols None a = set_availableSymbols fallbackSymbols a
  /\ availableExchanges (loadAvailableExchanges None a) = fallbackExchanges
  /\ availableSymbols (loadAvailableSymbols None a) = fallbackSymbols
  /\ availableSymbols (loadAvailableExchanges None a) = availableSymbols a
  /\ availableExchanges (loadAvailableSymbols None a) = availableExchanges a
  /\ (forall data,
        availableExchanges (loadAvailableExchanges (Some data) a)
        = map ex_exchange (List.filter ex_use data))
  /\ (forall data,
        availableSymbols (loadAvailableSymbols (Some data) a)
        = map sym_symbol (List.filter sym_use data)).
Proof. repeat split. Qed.

(** ** The date filters *)

Module DateFacts.
Import DateModel.

Lemma parse_ymd_length (s : string) (r : Z * Z * Z) :
  parse_ymd s = Some r -> String.length s = 10.
Proof.
  unfold parse_ymd.
  destruct (Nat.eqb_spec (String.length s) 10) as [Hlen|_]; [|discriminate].
  intros _. exact Hlen.
Qed.

Lemma parse_ymd_hms_length (s : string) (r : Z * Z * Z * Z) :
  parse_ymd_hms s = Some r -> String.length s = 19.
Proof.
  unfold parse_ymd_hms.
  destruct (Nat.eqb_spec (String.length s) 19) as [Hlen|_]; [|discriminate].
  intros _. exact Hlen.
Qed.

Lemma truthy_length (s : string) (n : nat) :
  String.length s = S n -> truthy s = true.
Proof. destruct s; [discriminate | reflexivity]. Qed.

(** A date input is midnight UTC of its day. *)
Lemma Date_ymd (tz : Z) (s : string) (y m d : Z) :
  parse_ymd s = Some (y, m, d) ->
  Date tz s = Some (days_from_civil y m d * 86400000)%Z.
Proof. unfold Date. now intros ->. Qed.

(** A timestamp is read in local time. *)
Lemma Date_ymd_hms (tz : Z) (s : string) (y m d secs : Z) :
  parse_ymd_hms s = Some (y, m, d, secs) ->
  Date tz s
  = Some (days_from_civil y m d * 86400000 + secs * 1000 + tz * 60000)%Z.
Proof.
  intros H. unfold Date. rewrite H.
  destruct (parse_ymd s) as [r|] eqn:Hymd; [|reflexivity].
  apply parse_ymd_length in Hymd. apply parse_ymd_hms_length in H. congruence.
Qed.

Lemma digits_from_nonneg (s : string) (acc n : Z) :
  (0 <= acc)%Z -> digits_from acc s = Some n -> (0 <= n)%Z.
Proof.
  revert acc. induction s as [|c s IH]; simpl; intros acc Hacc H.
  - congruence.
  - destruct (digit c) as [d|] eqn:Hd; [|discriminate].
    apply (IH (10 * acc + d)%Z); [|assumption].
    unfold digit in Hd.
    destruct ((48 <=? Z.of_nat (nat_of_ascii c))%Z) eqn:Hlo; [|discriminate].
    destruct ((Z.of_nat (nat_of_ascii c) <=? 57)%Z); [|discriminate].
    simpl in Hd. apply Z.leb_le in Hlo. injection Hd as <-. lia.
Qed.

Lemma parse_digits_nonneg (s : string) (n : Z) :
  parse_digits s = Some n -> (0 <= n)%Z.
Proof.
  destruct s; [discriminate|]. unfold parse_digits.
  now apply digits_from_nonneg.
Qed.

(** The seconds since midnight of a timestamp are within the day. *)
Lemma parse_hms_range (s : string) (secs : Z) :
  parse_hms s = Some secs -> (0 <= secs <= 86399)%Z.
Proof.
  unfold parse_hms.
  destruct (_ && _ && _); [|discriminate].
  destruct (parse_digits (substring 0 2 s)) as [h|] eqn:Hh; [|discriminate].
  destruct (parse_digits (substring 3 2 s)) as [m|] eqn:Hm; [|discriminate].
  destruct (parse_digits (substring 6 2 s)) as [sec|] eqn:Hs; [|discriminate].
  cbn.
  destruct ((h <=? 23)%Z) eqn:H1; [|discriminate].
  destruct ((m <=? 59)%Z) eqn:H2; [|discriminate].
  destruct ((sec <=? 59)%Z) eqn:H3; [|discriminate].
  cbn. intros [= <-].
  pose proof (parse_digits_nonneg _ _ Hh).
  pose proof (parse_digits_nonneg _ _ Hm).
  pose proof (parse_digits_nonneg _ _ Hs).
  apply Z.leb_le in H1. apply Z.leb_le in H2. apply Z.leb_le in H3. lia.
Qed.

Lemma parse_ymd_hms_range (s : string) (y m d secs : Z) :
  parse_ymd_hms s = Some (y, m, d, secs) -> (0 <= secs <= 86399)%Z.
Proof.
  unfold parse_ymd_hms.
  destruct (_ && _); [|discriminate].
  destruct (parse_ymd (substring 0 10 s)) as [[[y' m'] d']|]; [|discriminate].
  destruct (parse_hms (substring 11 8 s)) as [secs'|] eqn:Hs; [|discriminate].
  cbn. intros [= _ _ _ <-]. exact (parse_hms_range _ _ Hs).
Qed.

End DateFacts.

(** The [dateTo] filter compares instants: an entry is skipped exactly when
    the instant of its timestamp is after midnight UTC of the day given. *)
Lemma dateTo_compares_instants (tz : Z) (dateTo stamp : string) (item : Order)
    (y m d y' m' d' secs : Z) :
  DateModel.parse_ymd dateTo = Some (y, m, d) ->
  date item = Some stamp ->
  DateModel.parse_ymd_hms stamp = Some (y', m', d', secs) ->
  skipped_by_dateTo tz dateTo item = true
  <-> (DateModel.days_from_civil y m d * 86400000
       < DateModel.days_from_civil y' m' d' * 86400000 + secs * 1000 + tz * 60000)%Z.
Proof.
  intros Hto Hdate Hstamp.
  unfold skipped_by_dateTo, skipped_by_dateTo_with, item_Date_with, truthy_opt.
  rewrite Hdate.
  change (default EmptyString (Some stamp)) with stamp.
  rewrite (DateFacts.truthy_length dateTo 9)
    by exact (DateFacts.parse_ymd_length _ _ Hto).
  rewrite (DateFacts.truthy_length stamp 18)
    by exact (DateFacts.parse_ymd_hms_length _ _ Hstamp).
  rewrite (DateFacts.Date_ymd tz _ _ _ _ Hto).
  rewrite (DateFacts.Date_ymd_hms tz _ _ _ _ _ Hstamp).
  cbn [andb DateModel.Date_lt]. apply Z.ltb_lt.
Qed.

(** C8: [dateTo] set to day D hides entries of day D.  The filter tests
    [new Date(item.date) > new Date(dateTo)], where [new Date(dateTo)] is
    midnight UTC at the start of D: where local time is UTC, an entry
    stamped at 14:30:00 or at 09:00:00 on D has no row, and with
    [dateFrom] and [dateTo] both set to D the table is empty.  The cut-off
    moves with the time zone of the browser: the entry of 09:00:00 has its
    row nine hours east of UTC. *)
Theorem dateTo_hides_entries_of_its_day :
  let afternoon := entry (IdNumber (Num 1)) "BTC/USDT" "gate" "limit" in
  let morning := mkOrder (IdNumber (Num 2)) "BTC/USDT" "gate" "long" "limit"
                   "isolated" 1%Q 50000%Q (1 # 10)%Q 0%Q 0%Q (1 # 1000)%Q 0%Q
                   (Some 0%Q) (Some 0%Q) (Some 0%Q) (Some 0%Q) (Some 0%Q)
                   (Some "2024-01-15 09:00:00") None in
  date afternoon = Some "2024-01-15 14:30:00"
  /\ skipped_by_dateTo 0 "2024-01-15" afternoon = true
  /\ loadOrdersGroup 0 [afternoon] EmptyString "2024-01-15" EmptyString = []
  /\ loadOrdersGroup 0 [morning; afternoon] "2024-01-15" "2024-01-15" EmptyString = []
  /\ loadOrdersGroup 0 [morning] EmptyString "2024-01-15" EmptyString = []
  /\ loadOrdersGroup (-540) [morning] EmptyString "2024-01-15" EmptyString
     = [(0, morning)].
Proof. cbv zeta. repeat split. Qed.

(** Whatever the time zone of the browser (offsets reach 14 hours east of
    UTC at most), the last second of day D is skipped by [dateTo] = D. *)
Lemma dateTo_skips_last_second (tz : Z) :
  (-840 <= tz)%Z ->
  skipped_by_dateTo tz "2024-01-15"
    (mkOrder (IdNumber (Num 1)) "BTC/USDT" "gate" "long" "limit"
       "isolated" 1%Q 50000%Q (1 # 10)%Q 0%Q 0%Q (1 # 1000)%Q 0%Q
       (Some 0%Q) (Some 0%Q) (Some 0%Q) (Some 0%Q) (Some 0%Q)
       (Some "2024-01-15 23:59:59") None) = true.
Proof.
  intros Htz.
  apply (dateTo_compares_instants tz "2024-01-15" "2024-01-15 23:59:59" _
           2024 1 15 2024 1 15 86399); [reflexivity | reflexivity | reflexivity |].
  lia.
Qed.

(** ** Staging and cancelling *)

Lemma showConfirmationModal_frame (operation : Operation) (orderData : Order) (a : App) :
  ordersData (showConfirmationModal operation orderData a) = ordersData a
  /\ requests (showConfirmationModal operation orderData a) = requests a
  /\ alerts (showConfirmationModal operation orderData a) = alerts a.
Proof.
  unfold showConfirmationModal.
  destruct (modal_present (confirmationModal a)); repeat split.
Qed.

Lemma saveOrder_frame (symbol_ type_ : string) (index : nat) (row : option Row) (a : App) :
  ordersData (saveOrder symbol_ type_ index row a) = ordersData a
  /\ requests (saveOrder symbol_ type_ index row a) = requests a.
Proof.
  unfold saveOrder.
  destruct (find_symbol symbol_ (ordersData a)) as [sd|]; [|now split].
  destruct (order_at sd type_ index) as [o|]; [|now split].
  destruct row as [r|]; [|now split].
  destruct (Nat.eqb (edit_inputs r) 0).
  { split; apply showConfirmationModal_frame. }
  destruct (includes (availableExchanges a) _); cbn [negb]; [|now split].
  destruct (includes (availableSymbols a) _); cbn [negb]; [|now split].
  split; apply showConfirmationModal_frame.
Qed.

Lemma closeOrder_frame (symbol_ type_ : string) (index : nat) (a : App) :
  ordersData (closeOrder symbol_ type_ index a) = ordersData a
  /\ requests (closeOrder symbol_ type_ index a) = requests a.
Proof.
  unfold closeOrder.
  destruct (find_symbol symbol_ (ordersData a)) as [sd|]; [|now split].
  destruct (order_at sd type_ index) as [o|]; [|now split].
  split; apply showConfirmationModal_frame.
Qed.

Lemma confirmationCancelBtn_click_frame (a : App) :
  ordersData (confirmationCancelBtn_click a) = ordersData a
  /\ requests (confirmationCancelBtn_click a) = requests a
  /\ alerts (confirmationCancelBtn_click a) = alerts a
  /\ modal_display (confirmationModal (confirmationCancelBtn_click a)) = false.
Proof. repeat split. Qed.

(** C9: staging an operation changes no collection and sends nothing, and
    cancelling afterwards hides the modal, so that the ledger is the one of
    before staging and the list of requests has not grown.  The same holds
    when the operation is staged from a table row by [saveOrder] or
    [closeOrder]. *)
Theorem stage_then_cancel_keeps_ledger (a : App) :
  (forall operation orderData,
      let staged := showConfirmationModal operation orderData a in
      let cancelled := confirmationCancelBtn_click staged in
      ordersData staged = ordersData a
      /\ requests staged = requests a
      /\ ordersData cancelled = ordersData a
      /\ requests cancelled = requests a
      /\ modal_display (confirmationModal cancelled) = false)
  /\ (forall symbol_ type_ index row,
      let cancelled := confirmationCancelBtn_click (saveOrder symbol_ type_ index row a) in
      ordersData cancelled = ordersData a
      /\ requests cancelled = requests a
      /\ modal_display (confirmationModal cancelled) = false)
  /\ (forall symbol_ type_ index,
      let cancelled := confirmationCancelBtn_click (closeOrder symbol_ type_ index a) in
      ordersData cancelled = ordersData a
      /\ requests cancelled = requests a
      /\ modal_display (confirmationModal cancelled) = false).
Proof.
  split; [|split].
  - intros operation orderData staged cancelled.
    destruct (showConfirmationModal_frame operation orderData a) as (Hl & Hr & _).
    repeat split; assumption.
  - intros symbol_ type_ index row cancelled.
    destruct (saveOrder_frame symbol_ type_ index row a) as (Hl & Hr).
    repeat split; assumption.
  - intros symbol_ type_ index cancelled.
    destruct (closeOrder_frame symbol_ type_ index a) as (Hl & Hr).
    repeat split; assumption.
Qed.

(** ** Staging and confirming *)

(** Closing a row and confirming runs the close on the JSON copy of the
    entry of that row. *)
Lemma closeOrder_then_confirm (symbol_ type_ : string) (index : nat) (now : string)
    (a : App) (sd : SymbolData) (e : Order) :
  modal_present (confirmationModal a) = true ->
  find_symbol symbol_ (ordersData a) = Some sd ->
  order_at sd type_ index = Some e ->
  ordersData (run [CloseOrder symbol_ type_ index; ClickConfirm now] a)
  = ordersData (performCloseOperation (json_roundtrip e) now a).
Proof.
  intros Hpresent Hsd He. unfold run. cbn [fold_left step].
  unfold closeOrder. rewrite Hsd, He.
  unfold showConfirmationModal. rewrite Hpresent.
  reflexivity.
Qed.

(** Saving a row that is not in edit mode and confirming runs the save on
    the JSON copy of the entry of that row. *)
Lemma saveOrder_then_confirm (symbol_ type_ : string) (index : nat) (now : string)
    (r : Row) (a : App) (sd : SymbolData) (e : Order) :
  modal_present (confirmationModal a) = true ->
  find_symbol symbol_ (ordersData a) = Some sd ->
  order_at sd type_ index = Some e ->
  edit_inputs r = 0 ->
  ordersData (run [SaveOrder symbol_ type_ index (Some r); ClickConfirm now] a)
  = ordersData (performSaveOperation (json_roundtrip e) a).
Proof.
  intros Hpresent Hsd He Hr. unfold run. cbn [fold_left step].
  unfold saveOrder. rewrite Hsd, He, Hr. cbn [Nat.eqb].
  unfold showConfirmationModal. rewrite Hpresent.
  unfold confirmationConfirmBtn_click.
  cbn [confirmationModal set_confirmationModal dataset_operation
       dataset_orderData from_option].
  unfold Datatypes.id.
  rewrite (proj1 (confirmationCancelBtn_click_frame _)).
  unfold performSaveOperation. rewrite !required_fields_checked.
  cbn [ordersData set_confirmationModal].
  destruct (required_fields (json_roundtrip e)); cbn [negb]; [|reflexivity].
  now destruct (save_loop (json_roundtrip e) (ordersData a)).
Qed.

(** ** A cancelled operation cannot be observed

    The cancel handler leaves the payload on the confirm button.  A button
    of the modal can be clicked by the operator only while the modal is
    displayed, and the next staging overwrites the payload, so what a
    hidden modal carries has no effect on what follows. *)

Lemma saveNewOrder_set_modal (form : option NewOrderForm) (now : string)
    (m : Modal) (a : App) :
  saveNewOrder form now (set_confirmationModal m a)
  = set_confirmationModal m (saveNewOrder form now a).
Proof.
  destruct form as [f|]; [|reflexivity].
  destruct (form_accepted f a) eqn:Hacc.
  - rewrite (saveNewOrder_accepted f now a Hacc).
    now rewrite (saveNewOrder_accepted f now (set_confirmationModal m a) Hacc).
  - unfold saveNewOrder, form_accepted in *. unfold_order_fields.
    cbn [availableExchanges availableSymbols set_confirmationModal] in *.
    destruct (truthy (newOrderSymbol f)); cbn [negb orb andb] in *; [|reflexivity].
    destruct (truthy (newOrderExchange f)); cbn [negb orb andb] in *; [|reflexivity].
    destruct (truthy (newOrderSide f)); cbn [negb orb andb] in *; [|reflexivity].
    destruct (truthy (newOrderType f)); cbn [negb orb andb] in *; [|reflexivity].
    destruct (truthy (newOrderOpenType f)); unfold_order_fields;
      (destruct (includes (availableExchanges a) (newOrderExchange f));
         cbn [negb orb andb] in *; [|reflexivity];
       destruct (includes (availableSymbols a) (newOrderSymbol f));
         cbn [negb orb andb] in *; [|reflexivity];
       destruct (includes validSides (newOrderSide f));
         cbn [negb orb andb] in *; [|reflexivity];
       destruct (includes validTypes (newOrderType f));
         cbn [negb orb andb] in *; [discriminate|reflexivity]).
Qed.

Lemma operator_step_same (e : Event) (a b : App) :
  same_to_operator a b ->
  same_to_operator (operator_step e a) (operator_step e b).
Proof.
  destruct a as [l ex sy [p d oa ya] al r], b as [l' ex' sy' [p' d' ob yb] al' r'].
  unfold same_to_operator. cbn.
  intros (<- & <- & <- & <- & <- & <- & <- & Hshown).
  destruct d.
  { injection (Hshown eq_refl) as <- <-. repeat split. }
  clear Hshown. unfold operator_step.
  destruct e as [s t i|s t i|s t i row|s t i|form now|now| |]; cbn [clickable step].
  - repeat split; discriminate.
  - repeat split; discriminate.
  - unfold saveOrder. cbn [ordersData availableExchanges availableSymbols].
    destruct (find_symbol s l) as [sd|]; [|repeat split; discriminate].
    destruct (order_at sd t i) as [o|]; [|repeat split; discriminate].
    destruct row as [rw|]; [|repeat split; discriminate].
    destruct (Nat.eqb (edit_inputs rw) 0);
      [unfold showConfirmationModal; cbn; destruct p; cbn; repeat split; discriminate|].
    destruct (includes ex _); cbn [negb]; [|repeat split; discriminate].
    destruct (includes sy _); cbn [negb]; [|repeat split; discriminate].
    unfold showConfirmationModal; cbn; destruct p; cbn; repeat split; discriminate.
  - unfold closeOrder. cbn [ordersData].
    destruct (find_symbol s l) as [sd|]; [|repeat split; discriminate].
    destruct (order_at sd t i) as [o|]; [|repeat split; discriminate].
    unfold showConfirmationModal; cbn; destruct p; cbn; repeat split; discriminate.
  - change (mkApp l ex sy (mkModal p false oa ya) al r)
      with (set_confirmationModal (mkModal p false oa ya)
              (mkApp l ex sy (mkModal p false None None) al r)).
    change (mkApp l ex sy (mkModal p false ob yb) al r)
      with (set_confirmationModal (mkModal p false ob yb)
              (mkApp l ex sy (mkModal p false None None) al r)).
    rewrite !saveNewOrder_set_modal. cbn. repeat split; discriminate.
  - cbn. repeat split; discriminate.
  - cbn. repeat split; discriminate.
  - cbn. repeat split; discriminate.
Qed.

Lemma operator_run_same (es : list Event) (a b : App) :
  same_to_operator a b ->
  same_to_operator (operator_run es a) (operator_run es b).
Proof.
  revert a b. induction es as [|e es IH]; intros a b Hab; [exact Hab|].
  apply IH, operator_step_same, Hab.
Qed.

(** X18: staging an operation on a page whose modal is hidden and cancelling it
    leaves a state from which the operator sees exactly what would have
    been seen without the staging: same ledger, same alerts, same
    requests, after every sequence of events. *)
Lemma cancelled_stage_is_unobservable (operation : Operation) (orderData : Order)
    (es : list Event) (a : App) :
  modal_display (confirmationModal a) = false ->
  same_to_operator
    (operator_run es
       (confirmationCancelBtn_click (showConfirmationModal operation orderData a)))
    (operator_run es a).
Proof.
  intros Hhidden. apply operator_run_same.
  destruct a as [l ex sy [p d o y] al r]. cbn in Hhidden. subst d.
  unfold showConfirmationModal, confirmationCancelBtn_click, same_to_operator.
  cbn. destruct p; cbn; repeat split; discriminate.
Qed.

(** ** Building an evolution *)

Section Evolution.
Variable R : SymbolData -> SymbolData -> Prop.
Variable N : SymbolData -> Prop.

Hypothesis R_refl : forall sd, R sd sd.

Lemma Forall2_R_refl (l : Ledger) : Forall2 R l l.
Proof. apply Forall_Forall2_diag, Forall_forall. auto. Qed.

Lemma evolves_refl (l : Ledger) : ledger_evolves R N l l.
Proof.
  exists l, []. rewrite app_nil_r.
  repeat split; [apply Forall2_R_refl | constructor].
Qed.

Lemma Forall2_first (pre post : Ledger) (sd sd' : SymbolData) :
  R sd sd' -> Forall2 R (pre ++ sd :: post) (pre ++ sd' :: post).
Proof.
  intros H. apply Forall2_app; [apply Forall2_R_refl|].
  constructor; [assumption | apply Forall2_R_refl].
Qed.

Lemma evolves_first (pre post : Ledger) (sd sd' : SymbolData) :
  R sd sd' -> ledger_evolves R N (pre ++ sd :: post) (pre ++ sd' :: post).
Proof.
  intros H. exists (pre ++ sd' :: post), []. rewrite app_nil_r.
  repeat split; [now apply Forall2_first | constructor].
Qed.

Lemma evolves_push (l : Ledger) (new : SymbolData) :
  N new -> ledger_evolves R N l (l ++ [new]).
Proof.
  intros H. exists l, [new].
  repeat split; [apply Forall2_R_refl | now repeat constructor].
Qed.

Lemma evolves_first_push (pre post : Ledger) (sd sd' new : SymbolData) :
  R sd sd' -> N new ->
  ledger_evolves R N (pre ++ sd :: post) ((pre ++ sd' :: post) ++ [new]).
Proof.
  intros H Hnew. exists (pre ++ sd' :: post), [new].
  repeat split; [now apply Forall2_first | now repeat constructor].
Qed.
End Evolution.

Lemma ledger_evolves_impl (R R' : SymbolData -> SymbolData -> Prop)
    (N N' : SymbolData -> Prop) (l l' : Ledger) :
  (forall sd sd', R sd sd' -> R' sd sd') ->
  (forall sd, N sd -> N' sd) ->
  ledger_evolves R N l l' -> ledger_evolves R' N' l l'.
Proof.
  intros HR HN (kept & added & -> & Hkept & Hadded).
  exists kept, added. repeat split.
  - eapply Forall2_impl; eauto.
  - eapply Forall_impl; eauto.
Qed.

(** ** Effects on one Symbol Ledger *)

Lemma active_effect_refl (ok : Prop) (sd : SymbolData) : active_effect ok sd sd.
Proof. unfold active_effect. tauto. Qed.

Lemma close_effect_refl (sd : SymbolData) : close_effect sd sd.
Proof. unfold close_effect. split; [reflexivity|]. split; [reflexivity | tauto]. Qed.

Lemma update_or_push_Forall (P : Order -> Prop) (od : Order) (l : list Order) :
  P od -> Forall P l -> Forall P (update_or_push od l).
Proof.
  intros Hod Hl. unfold update_or_push.
  destruct (findIndex_id (id od) l).
  - now apply Forall_insert.
  - apply Forall_app. split; [assumption | now repeat constructor].
Qed.

Lemma Forall_push (P : Order -> Prop) (od : Order) (l : list Order) :
  P od -> Forall P l -> Forall P (l ++ [od]).
Proof. intros Hod Hl. apply Forall_app. split; [assumption | now repeat constructor]. Qed.

Lemma save_in_symbol_closed (od : Order) (sd : SymbolData) :
  closed (fst (save_in_symbol od sd)) = closed sd.
Proof.
  unfold save_in_symbol.
  destruct (active sd) as [a|]; [|reflexivity].
  destruct (String.eqb (type od) "market"), (positions a),
    (String.eqb (type od) "limit"), (orders a); reflexivity.
Qed.

Lemma save_in_symbol_effect (od : Order) (sd : SymbolData) :
  active_effect (unstamped od) sd (fst (save_in_symbol od sd)).
Proof.
  split; [apply save_in_symbol_symbol|].
  split; [apply save_in_symbol_closed|].
  intros Hod [Hact Hcl]. split; [|now rewrite save_in_symbol_closed].
  unfold save_in_symbol.
  destruct sd as [s [[os ps]|] cl]; [|exact Hact].
  unfold_entries. apply Forall_app in Hact as [Ho Hp].
  destruct (String.eqb (type od) "market"), ps as [ps|],
    (String.eqb (type od) "limit"), os as [os|]; simpl in *;
    try (apply Forall_app; split); try assumption;
    now apply update_or_push_Forall.
Qed.

Lemma newSymbolData_fresh (od : Order) :
  fresh_symbol (unstamped od) (newSymbolData od).
Proof.
  unfold newSymbolData.
  destruct (String.eqb (type od) "market"), (String.eqb (type od) "limit");
    (split; [reflexivity|]); intros Hod; unfold_entries;
    (split; [|constructor]); now repeat constructor.
Qed.

Lemma add_to_symbol_closed (od : Order) (sd : SymbolData) :
  closed (add_to_symbol od sd) = closed sd.
Proof.
  unfold add_to_symbol.
  destruct (String.eqb (type od) "market"), (String.eqb (type od) "limit");
    reflexivity.
Qed.

Lemma add_to_symbol_effect (od : Order) (sd : SymbolData) :
  active_effect (unstamped od) sd (add_to_symbol od sd).
Proof.
  split; [apply add_to_symbol_symbol|].
  split; [apply add_to_symbol_closed|].
  intros Hod [Hact Hcl]. split; [|now rewrite add_to_symbol_closed].
  unfold add_to_symbol.
  destruct sd as [s [[os ps]|] cl]; unfold_entries;
    try apply Forall_app in Hact as [Ho Hp];
    destruct (String.eqb (type od) "market"), (String.eqb (type od) "limit");
    simpl; try (apply Forall_app; split); try assumption;
    try (apply Forall_push; assumption); try constructor;
    now repeat constructor.
Qed.

Lemma new_symbol_entry_fresh (od : Order) :
  fresh_symbol (unstamped od) (new_symbol_entry od).
Proof.
  unfold new_symbol_entry. split; [reflexivity|]. intros Hod.
  unfold_entries. split; [|constructor].
  destruct (String.eqb (type od) "limit"), (String.eqb (type od) "market");
    now repeat constructor.
Qed.

Lemma Forall_filter_keeps (P : Order -> Prop) (v : IdVal) (l : list Order) :
  Forall P l -> Forall P (filter (fun o => id o <> v) l).
Proof.
  induction 1 as [|x l Hx _ IH]; [constructor|].
  rewrite filter_cons. destruct (decide (id x <> v)); [constructor|]; assumption.
Qed.

Lemma close_in_symbol_effect (od : Order) (now : string) (sd : SymbolData) :
  close_effect sd (close_in_symbol od now sd).
Proof.
  split; [reflexivity|]. split.
  - rewrite close_in_symbol_closed. apply prefix_app_r. reflexivity.
  - intros [Hact Hcl]. split.
    + unfold close_in_symbol.
      destruct sd as [s [[os ps]|] cl]; [|exact Hact].
      unfold_entries. apply Forall_app in Hact as [Ho Hp].
      destruct (String.eqb (type od) "market"), ps as [ps|],
        (String.eqb (type od) "limit"), os as [os|]; simpl in *;
        try (apply Forall_app; split); try assumption;
        now apply Forall_filter_keeps.
    + rewrite close_in_symbol_closed. apply Forall_push; [|exact Hcl].
      unfold stamped. discriminate.
Qed.

(** ** The effect of each operation on the ledger *)

Lemma performCloseOperation_evolves (od : Order) (now : string) (a : App) :
  ledger_evolves close_effect no_symbol
    (ordersData a) (ordersData (performCloseOperation od now a)).
Proof.
  unfold performCloseOperation. cbn [ordersData post_orders set_ordersData].
  destruct (first_symbol_split (symbol od) (ordersData a))
    as [Hall|(pre & sd & post & -> & Hpre & Hsd)].
  - rewrite close_loop_absent by assumption.
    apply evolves_refl, close_effect_refl.
  - rewrite close_loop_found by assumption.
    apply evolves_first; [apply close_effect_refl | apply close_in_symbol_effect].
Qed.

Lemma performSaveOperation_evolves (od : Order) (a : App) :
  ledger_evolves (active_effect (unstamped od)) (fresh_symbol (unstamped od))
    (ordersData a) (ordersData (performSaveOperation od a)).
Proof.
  unfold performSaveOperation. rewrite required_fields_checked.
  destruct (required_fields od); cbn [negb].
  2: { apply evolves_refl, active_effect_refl. }
  destruct (first_symbol_split (symbol od) (ordersData a))
    as [Hall|(pre & sd & post & -> & Hpre & Hsd)].
  - rewrite save_loop_absent by assumption.
    cbn [ordersData post_orders set_ordersData].
    apply evolves_push; [apply active_effect_refl | apply newSymbolData_fresh].
  - rewrite save_loop_found by assumption.
    pose proof (save_in_symbol_effect od sd) as Heff.
    destruct (snd (save_in_symbol od sd)); cbn [ordersData post_orders set_ordersData].
    + apply evolves_first; [apply active_effect_refl | assumption].
    + apply evolves_first_push;
        [apply active_effect_refl | assumption | apply newSymbolData_fresh].
Qed.

Lemma stored_order_unstamped (f : NewOrderForm) (now : string) (l : Ledger) :
  unstamped (stored_order f now l).
Proof. unfold stored_order. now destruct (truthy (newOrderOpenType f)). Qed.

Lemma saveNewOrder_modal (form : option NewOrderForm) (now : string) (a : App) :
  confirmationModal (saveNewOrder form now a) = confirmationModal a.
Proof.
  destruct form as [f|]; [|reflexivity].
  destruct (form_accepted f a) eqn:Hacc.
  - now rewrite (saveNewOrder_accepted f now a Hacc).
  - now destruct (saveNewOrder_rejected f now a Hacc) as [msg ->].
Qed.

Lemma saveNewOrder_evolves (form : option NewOrderForm) (now : string) (a : App) :
  ledger_evolves (active_effect True) (fresh_symbol True)
    (ordersData a) (ordersData (saveNewOrder form now a)).
Proof.
  destruct form as [f|]; [|apply evolves_refl, active_effect_refl].
  destruct (form_accepted f a) eqn:Hacc.
  2: { destruct (saveNewOrder_rejected f now a Hacc) as [msg ->].
       apply evolves_refl, active_effect_refl. }
  rewrite (saveNewOrder_accepted f now a Hacc).
  cbn [ordersData post_orders set_ordersData].
  set (o := stored_order f now (ordersData a)).
  assert (Ho : unstamped o) by apply stored_order_unstamped.
  apply (ledger_evolves_impl (active_effect (unstamped o)) _
           (fresh_symbol (unstamped o))).
  { intros sd sd' (Hs & Hc & Hst).
    split; [exact Hs|]. split; [exact Hc|]. intros _. now apply Hst. }
  { intros sd (Hc & Hst). split; [exact Hc|]. intros _. now apply Hst. }
  unfold place_order.
  destruct (first_symbol_split (symbol o) (ordersData a))
    as [Hall|(pre & sd & post & -> & Hpre & Hsd)].
  - rewrite add_loop_absent by assumption.
    apply evolves_push; [apply active_effect_refl | apply new_symbol_entry_fresh].
  - rewrite add_loop_found by assumption.
    apply evolves_first; [apply active_effect_refl | apply add_to_symbol_effect].
Qed.

(** ** Closed collections only grow *)








(** ** The stamp invariant of the page *)

Lemma evolves_Forall (R : SymbolData -> SymbolData -> Prop)
    (N P : SymbolData -> Prop) (l l' : Ledger) :
  (forall sd sd', R sd sd' -> P sd -> P sd') ->
  (forall sd, N sd -> P sd) ->
  ledger_evolves R N l l' -> Forall P l -> Forall P l'.
Proof.
  intros HR HN (kept & added & -> & Hkept & Hadded) Hl.
  apply Forall_app. split.
  - induction Hkept as [|x y l k Hxy _ IH]; [constructor|].
    apply Forall_cons in Hl as [Hx Hl]. constructor; eauto.
  - eapply Forall_impl; eauto.
Qed.

Lemma find_symbol_elem (s : string) (l : Ledger) (sd : SymbolData) :
  find_symbol s l = Some sd -> sd ∈ l.
Proof.
  unfold find_symbol.
  destruct (list_find (fun sd => sd_symbol sd = s) l) as [[i x]|] eqn:Hfind;
    [|discriminate].
  cbn. intros [= <-]. apply list_find_Some in Hfind as (Hi & _).
  eapply list_elem_of_lookup_2; eassumption.
Qed.

Lemma order_at_active (sd : SymbolData) (type_ : string) (index : nat) (o : Order) :
  order_at sd type_ index = Some o -> o ∈ symbol_active_entries sd.
Proof.
  unfold order_at, symbol_active_entries. intros H. apply elem_of_app.
  destruct (String.eqb type_ "orders"), (active_orders sd) as [os|],
    (String.eqb type_ "positions"), (active_positions sd) as [ps|];
    try discriminate;
    solve [ left; eapply list_elem_of_lookup_2; eassumption
          | right; eapply list_elem_of_lookup_2; eassumption ].
Qed.

Lemma row_order_unstamped (a : App) (s t : string) (i : nat) (sd : SymbolData) (o : Order) :
  Forall stamps_ok_symbol (ordersData a) ->
  find_symbol s (ordersData a) = Some sd ->
  order_at sd t i = Some o ->
  unstamped o.
Proof.
  intros Hl Hsd Ho.
  apply find_symbol_elem in Hsd. apply order_at_active in Ho.
  rewrite Forall_forall in Hl. destruct (Hl sd Hsd) as [Hact _].
  rewrite Forall_forall in Hact. now apply Hact.
Qed.

Lemma showConfirmationModal_stamps (operation : Operation) (od : Order) (a : App) :
  unstamped od -> stamps_ok a -> stamps_ok (showConfirmationModal operation od a).
Proof.
  intros Hod [Hl Hp]. unfold showConfirmationModal.
  destruct (modal_present (confirmationModal a)); [|now split].
  split; [exact Hl|]. intros od'. cbn. intros [= <-]. exact Hod.
Qed.

Lemma saveOrder_stamps (s t : string) (i : nat) (row : option Row) (a : App) :
  stamps_ok a -> stamps_ok (saveOrder s t i row a).
Proof.
  intros Hok. unfold saveOrder.
  destruct (find_symbol s (ordersData a)) as [sd|] eqn:Hsd; [|exact Hok].
  destruct (order_at sd t i) as [o|] eqn:Ho; [|exact Hok].
  assert (Hun : unstamped o) by (eapply row_order_unstamped; [apply Hok | eassumption..]).
  destruct row as [r|]; [|exact Hok].
  destruct (Nat.eqb (edit_inputs r) 0); [now apply showConfirmationModal_stamps|].
  destruct (includes (availableExchanges a) _); cbn [negb]; [|exact Hok].
  destruct (includes (availableSymbols a) _); cbn [negb]; [|exact Hok].
  apply showConfirmationModal_stamps; [exact Hun | exact Hok].
Qed.

Lemma closeOrder_stamps (s t : string) (i : nat) (a : App) :
  stamps_ok a -> stamps_ok (closeOrder s t i a).
Proof.
  intros Hok. unfold closeOrder.
  destruct (find_symbol s (ordersData a)) as [sd|] eqn:Hsd; [|exact Hok].
  destruct (order_at sd t i) as [o|] eqn:Ho; [|exact Hok].
  apply showConfirmationModal_stamps; [|exact Hok].
  eapply row_order_unstamped; [apply Hok | eassumption..].
Qed.

Lemma performSaveOperation_modal (od : Order) (a : App) :
  confirmationModal (performSaveOperation od a) = confirmationModal a.
Proof.
  unfold performSaveOperation.
  destruct (_ || _); [reflexivity|].
  now destruct (save_loop od (ordersData a)).
Qed.

Lemma performSaveOperation_stamps (od : Order) (a : App) :
  unstamped od -> stamps_ok a -> stamps_ok (performSaveOperation od a).
Proof.
  intros Hod [Hl Hp]. split.
  - eapply evolves_Forall; [| |apply performSaveOperation_evolves|exact Hl].
    + intros sd sd' (_ & _ & Hst). now apply Hst.
    + intros sd (_ & Hst). now apply Hst.
  - unfold payload_unstamped. now rewrite performSaveOperation_modal.
Qed.

Lemma performCloseOperation_stamps (od : Order) (now : string) (a : App) :
  stamps_ok a -> stamps_ok (performCloseOperation od now a).
Proof.
  intros [Hl Hp]. split; [|exact Hp].
  eapply evolves_Forall; [| |apply performCloseOperation_evolves|exact Hl].
  - intros sd sd' (_ & _ & Hst). exact Hst.
  - intros sd [].
Qed.

Lemma saveNewOrder_stamps (form : option NewOrderForm) (now : string) (a : App) :
  stamps_ok a -> stamps_ok (saveNewOrder form now a).
Proof.
  intros [Hl Hp]. split.
  - eapply evolves_Forall; [| |apply saveNewOrder_evolves|exact Hl].
    + intros sd sd' (_ & _ & Hst). now apply Hst.
    + intros sd (_ & Hst). now apply Hst.
  - unfold payload_unstamped. now rewrite saveNewOrder_modal.
Qed.

Lemma confirmationCancelBtn_click_stamps (a : App) :
  stamps_ok a -> stamps_ok (confirmationCancelBtn_click a).
Proof. intros [Hl Hp]. split; [exact Hl | exact Hp]. Qed.

Lemma confirmationConfirmBtn_click_stamps (now : string) (a : App) :
  stamps_ok a -> stamps_ok (confirmationConfirmBtn_click now a).
Proof.
  intros Hok. unfold confirmationConfirmBtn_click.
  apply confirmationCancelBtn_click_stamps.
  assert (Hod : unstamped (default empty_object (dataset_orderData (confirmationModal a)))).
  { destruct Hok as [_ Hp]. unfold payload_unstamped in Hp.
    destruct (dataset_orderData (confirmationModal a)) as [od|];
      [now apply Hp | reflexivity]. }
  destruct (dataset_operation (confirmationModal a)) as [[|]|].
  - now apply performSaveOperation_stamps.
  - now apply performCloseOperation_stamps.
  - exact Hok.
Qed.

Lemma step_stamps (e : Event) (a : App) : stamps_ok a -> stamps_ok (step e a).
Proof.
  destruct e; cbn [step].
  - trivial.
  - trivial.
  - apply saveOrder_stamps.
  - apply closeOrder_stamps.
  - apply saveNewOrder_stamps.
  - apply confirmationConfirmBtn_click_stamps.
  - apply confirmationCancelBtn_click_stamps.
  - apply confirmationCancelBtn_click_stamps.
Qed.


Lemma run_stamps (es : list Event) (a : App) : stamps_ok a -> stamps_ok (run es a).
Proof.
  revert a. induction es as [|e es IH]; intros a Hok; [exact Hok|].
  apply IH, step_stamps, Hok.
Qed.


(** ** Only the confirmed close touches a closed collection *)







(** ** The tables and the accordion *)




Lemma loadOrdersGroup_unfiltered (tz : Z) (items : list Order) :
  loadOrdersGroup tz items EmptyString EmptyString EmptyString
  = imap (fun index item => (index, item)) items.
Proof.
  unfold loadOrdersGroup, loadOrdersGroup_with. apply forallb_filter_id. apply forallb_forall.
  now intros [i x] _.
Qed.

Lemma filter_imap_snd {A : Type} (P : A -> bool) (g : nat -> nat) (l : list A) :
  map snd (List.filter (fun '(_, x) => P x) (imap (fun i x => (g i, x)) l))
  = List.filter P l.
Proof.
  revert g. induction l as [|x l IH]; intros g; [reflexivity|].
  cbn. destruct (P x); cbn; [f_equal|]; apply (IH (g ∘ S)).
Qed.

(** X2: with no filter set a table lists every entry of its collection, in
    order, each at its index; with the exchange filter alone it lists, in
    order, exactly the entries of that exchange. *)
Theorem exchange_filter_lists_that_exchange (tz : Z) (items : list Order) :
  loadOrdersGroup tz items EmptyString EmptyString EmptyString
  = imap (fun index item => (index, item)) items
  /\ (forall ex, truthy ex = true ->
        map snd (loadOrdersGroup tz items EmptyString EmptyString ex)
        = List.filter (fun item => String.eqb (exchange item) ex) items).
Proof.
  split; [apply loadOrdersGroup_unfiltered|].
  intros ex Hex. unfold loadOrdersGroup, loadOrdersGroup_with.
  rewrite <- (filter_imap_snd (fun item => String.eqb (exchange item) ex) (fun i => i)).
  f_equal. apply filter_ext. intros [i x].
  unfold skipped_by_exchange, skipped_by_dateFrom_with, skipped_by_dateTo_with.
  rewrite Hex. cbn. now destruct (String.eqb (exchange x) ex).
Qed.

Lemma exchange_filter_lists_that_exchange_witness :
  let items := [entry (IdNumber (Num 1)) "BTC/USDT" "gate" "limit";
                entry (IdNumber (Num 2)) "BTC/USDT" "binance" "limit"] in
  loadOrdersGroup 0 items EmptyString EmptyString EmptyString
  = imap (fun index item => (index, item)) items
  /\ map snd (loadOrdersGroup 0 items EmptyString EmptyString "binance")
     = List.filter (fun item => String.eqb (exchange item) "binance") items.
Proof.
  cbv zeta. split.
  - apply exchange_filter_lists_that_exchange.
  - apply (proj2 (exchange_filter_lists_that_exchange 0 _) "binance"). reflexivity.
Defined.

Lemma Date_lt_invalid_r (d : option Z) : DateModel.Date_lt d None = false.
Proof. now destruct d. Qed.

(** X3: however the browser reads strings as dates, an entry whose [date]
    is absent or empty, or is read by [new Date] as the invalid date, is
    hidden by no date filter: it has a row as soon as the exchange filter
    lets it through. *)
Theorem undated_entry_passes_date_filters (newDate : string -> option Z)
    (items : list Order) (dateFrom dateTo exchangeFilter : string)
    (index : nat) (item : Order) :
  items !! index = Some item ->
  truthy_opt (date item) = false \/ item_Date_with newDate item = None ->
  skipped_by_exchange exchangeFilter item = false ->
  In (index, item) (loadOrdersGroup_with newDate items dateFrom dateTo exchangeFilter).
Proof.
  intros Hi Hdate Hex. unfold loadOrdersGroup_with. apply filter_In. split.
  - apply list_elem_of_In, elem_of_lookup_imap. eauto.
  - rewrite Hex. unfold skipped_by_dateFrom_with, skipped_by_dateTo_with.
    destruct Hdate as [-> | ->].
    + now rewrite !andb_false_r.
    + now rewrite Date_lt_invalid_r, !andb_false_r.
Qed.

Lemma undated_entry_passes_date_filters_witness :
  let item := mkOrder (IdNumber (Num 1)) "BTC/USDT" "gate" "long" "limit"
                "isolated" 1%Q 50000%Q (1 # 10)%Q 0%Q 0%Q (1 # 1000)%Q 0%Q
                None None None None None (Some "not a date") None in
  In (0, item)
    (loadOrdersGroup_with (DateModel.Date 0) [item] "2024-03-01" "2024-03-31" "gate").
Proof.
  cbv zeta. apply undated_entry_passes_date_filters.
  - reflexivity.
  - right. reflexivity.
  - reflexivity.
Defined.

(** X4: however the browser reads strings as dates, a [dateFrom] and a
    [dateTo] that [new Date] reads as the invalid date filter nothing: the
    table is the one of the exchange filter alone. *)
Theorem invalid_filter_date_filters_nothing (newDate : string -> option Z)
    (items : list Order) (dateFrom dateTo exchangeFilter : string) :
  newDate dateFrom = None ->
  newDate dateTo = None ->
  loadOrdersGroup_with newDate items dateFrom dateTo exchangeFilter
  = loadOrdersGroup_with newDate items EmptyString EmptyString exchangeFilter.
Proof.
  intros Hfrom Hto. unfold loadOrdersGroup_with. apply filter_ext. intros [i x].
  unfold skipped_by_dateFrom_with, skipped_by_dateTo_with. rewrite Hfrom, Hto.
  rewrite Date_lt_invalid_r. cbn [DateModel.Date_lt truthy String.eqb negb andb].
  now rewrite !andb_false_r.
Qed.

Lemma invalid_filter_date_filters_nothing_witness :
  let items := [entry (IdNumber (Num 1)) "BTC/USDT" "gate" "limit"] in
  loadOrdersGroup_with (DateModel.Date 0) items "not a date" "not a date" "gate"
  = loadOrdersGroup_with (DateModel.Date 0) items EmptyString EmptyString "gate".
Proof.
  cbv zeta. apply invalid_filter_date_filters_nothing; reflexivity.
Defined.

Lemma dateFrom_compares_instants (tz : Z) (dateFrom stamp : string) (item : Order)
    (y m d y' m' d' secs : Z) :
  DateModel.parse_ymd dateFrom = Some (y, m, d) ->
  date item = Some stamp ->
  DateModel.parse_ymd_hms stamp = Some (y', m', d', secs) ->
  skipped_by_dateFrom tz dateFrom item = true
  <-> (DateModel.days_from_civil y' m' d' * 86400000 + secs * 1000 + tz * 60000
       < DateModel.days_from_civil y m d * 86400000)%Z.
Proof.
  intros Hfrom Hdate Hstamp.
  unfold skipped_by_dateFrom, skipped_by_dateFrom_with, item_Date_with, truthy_opt.
  rewrite Hdate.
  change (default EmptyString (Some stamp)) with stamp.
  rewrite (DateFacts.truthy_length dateFrom 9)
    by exact (DateFacts.parse_ymd_length _ _ Hfrom).
  rewrite (DateFacts.truthy_length stamp 18)
    by exact (DateFacts.parse_ymd_hms_length _ _ Hstamp).
  rewrite (DateFacts.Date_ymd tz _ _ _ _ Hfrom).
  rewrite (DateFacts.Date_ymd_hms tz _ _ _ _ _ Hstamp).
  cbn [andb DateModel.Date_lt]. apply Z.ltb_lt.
Qed.

(** X5: under [dateFrom] set to day D, an entry stamped on D at [secs]
    seconds after midnight is hidden exactly when [secs] is below
    [-60 * tzOffset]: never where local time is UTC or behind it.  With
    both [dateFrom] and [dateTo] set to D, the entries of day D that are
    shown are those stamped at exactly [-60 * tzOffset] seconds after
    midnight. *)
Theorem dateFrom_same_day (tz : Z) (day stamp : string) (item : Order)
    (y m d secs : Z) :
  DateModel.parse_ymd day = Some (y, m, d) ->
  date item = Some stamp ->
  DateModel.parse_ymd_hms stamp = Some (y, m, d, secs) ->
  (skipped_by_dateFrom tz day item = true <-> (secs < - 60 * tz)%Z)
  /\ ((0 <= tz)%Z -> skipped_by_dateFrom tz day item = false)
  /\ (skipped_by_dateFrom tz day item = false /\ skipped_by_dateTo tz day item = false
      <-> secs = (- 60 * tz)%Z).
Proof.
  intros Hday Hdate Hstamp.
  pose proof (dateFrom_compares_instants tz day stamp item y m d y m d secs
                Hday Hdate Hstamp) as Hfrom.
  pose proof (dateTo_compares_instants tz day stamp item y m d y m d secs
                Hday Hdate Hstamp) as Hto.
  pose proof (DateFacts.parse_ymd_hms_range _ _ _ _ _ Hstamp) as Hrange.
  assert (H1 : skipped_by_dateFrom tz day item = true <-> (secs < - 60 * tz)%Z).
  { rewrite Hfrom. lia. }
  assert (H2 : skipped_by_dateTo tz day item = true <-> (- 60 * tz < secs)%Z).
  { rewrite Hto. lia. }
  split; [exact H1|]. split.
  - intros Htz. destruct (skipped_by_dateFrom tz day item); [|reflexivity].
    assert (secs < - 60 * tz)%Z by now apply H1. lia.
  - destruct (skipped_by_dateFrom tz day item), (skipped_by_dateTo tz day item);
      split; try (intros [? ?]; discriminate); try (split; reflexivity).
    + intros ->. assert (- 60 * tz < - 60 * tz)%Z by now apply H1. lia.
    + intros ->. assert (- 60 * tz < - 60 * tz)%Z by now apply H1. lia.
    + intros ->. assert (- 60 * tz < - 60 * tz)%Z by now apply H2. lia.
    + intros _.
      destruct (Z.lt_trichotomy secs (- 60 * tz)) as [Hlt|[Heq|Hgt]]; [|exact Heq|].
      * assert (false = true) by now apply H1. discriminate.
      * assert (false = true) by now apply H2. discriminate.
Qed.

Lemma dateFrom_same_day_witness :
  let item := entry (IdNumber (Num 1)) "BTC/USDT" "gate" "limit" in
  (skipped_by_dateFrom (-120) "2024-01-15" item = true <-> (52200 < - 60 * -120)%Z)
  /\ ((0 <= -120)%Z -> skipped_by_dateFrom (-120) "2024-01-15" item = false)
  /\ (skipped_by_dateFrom (-120) "2024-01-15" item = false
      /\ skipped_by_dateTo (-120) "2024-01-15" item = false
      <-> 52200%Z = (- 60 * -120)%Z).
Proof.
  cbv zeta.
  apply (dateFrom_same_day (-120) "2024-01-15" "2024-01-15 14:30:00" _ 2024 1 15 52200).
  - reflexivity.
  - reflexivity.
  - reflexivity.
Defined.

Lemma lower_ascii_idem (c : ascii) : lower_ascii (lower_ascii c) = lower_ascii c.
Proof. destruct c as [[] [] [] [] [] [] [] []]; reflexivity. Qed.

Lemma toLowerCase_idem (s : string) : toLowerCase (toLowerCase s) = toLowerCase s.
Proof.
  induction s as [|c s IH]; [reflexivity|].
  cbn. now rewrite lower_ascii_idem, IH.
Qed.


Lemma str_includes_empty (s : string) : str_includes s EmptyString = true.
Proof. now destruct s. Qed.


Lemma loadOrdersGroup_length (tz : Z) (items : list Order) (dateFrom dateTo ex : string) :
  length (loadOrdersGroup tz items dateFrom dateTo ex) <= length items.
Proof.
  unfold loadOrdersGroup, loadOrdersGroup_with.
  etransitivity; [apply List.filter_length_le|]. now rewrite length_imap.
Qed.

(** X7: the counts on the head of an accordion item are those of the whole
    collections, whatever the filters: each table of the first Symbol
    Ledger of a symbol has at most as many rows as the head of its item
    announces, and exactly as many when no exchange or date filter is
    set. *)
Theorem accordion_counts_bound_the_rows (tz : Z)
    (symbol_ dateFrom dateTo exchangeFilter : string) (l : Ledger)
    (sd : SymbolData) (tables : SymbolTables) :
  find_symbol symbol_ l = Some sd ->
  loadOrdersGroups tz symbol_ dateFrom dateTo exchangeFilter l = Some tables ->
  length (rows_orders tables) <= ordersCount (templateData sd)
  /\ length (rows_positions tables) <= positionsCount (templateData sd)
  /\ length (rows_closed tables) <= closedCount (templateData sd)
  /\ (dateFrom = EmptyString -> dateTo = EmptyString -> exchangeFilter = EmptyString ->
      length (rows_orders tables) = ordersCount (templateData sd)
      /\ length (rows_positions tables) = positionsCount (templateData sd)
      /\ length (rows_closed tables) = closedCount (templateData sd)).
Proof.
  unfold loadOrdersGroups. intros ->. intros [= <-].
  cbn [rows_orders rows_positions rows_closed templateData ordersCount
       positionsCount closedCount].
  split; [apply loadOrdersGroup_length|].
  split; [apply loadOrdersGroup_length|].
  split; [apply loadOrdersGroup_length|].
  intros -> -> ->. rewrite !loadOrdersGroup_unfiltered, !length_imap. tauto.
Qed.

Lemma accordion_counts_bound_the_rows_witness :
  let sd := mkSymbolData "BTC/USDT"
              (Some (mkActive
                 (Some [entry (IdNumber (Num 1)) "BTC/USDT" "gate" "limit"])
                 (Some [entry (IdNumber (Num 2)) "BTC/USDT" "binance" "market"])))
              (Some []) in
  let tables := mkSymbolTables []
                  [(0, entry (IdNumber (Num 2)) "BTC/USDT" "binance" "market")] [] in
  length (rows_orders tables) <= ordersCount (templateData sd)
  /\ length (rows_positions tables) <= positionsCount (templateData sd)
  /\ length (rows_closed tables) <= closedCount (templateData sd)
  /\ (EmptyString = EmptyString -> EmptyString = EmptyString -> "binance" = EmptyString ->
      length (rows_orders tables) = ordersCount (templateData sd)
      /\ length (rows_positions tables) = positionsCount (templateData sd)
      /\ length (rows_closed tables) = closedCount (templateData sd)).
Proof.
  cbv zeta.
  apply (accordion_counts_bound_the_rows 0 "BTC/USDT" EmptyString EmptyString "binance"
           (ordersData two_entry_page)).
  - reflexivity.
  - reflexivity.
Defined.

(** ** The new-entry form after a clear *)

(** X8: a submit straight after [clearNewOrderForm] is refused with the
    required-fields alert and changes nothing else, as soon as one of the
    four required controls is inside the form. *)
Theorem cleared_form_is_refused (in_form number_typed : string -> bool)
    (f : NewOrderForm) (now : string) (a : App) :
  in_form "newOrderSymbol" = true \/ in_form "newOrderExchange" = true
  \/ in_form "newOrderSide" = true \/ in_form "newOrderType" = true ->
  saveNewOrder (Some (clearNewOrderForm in_form number_typed f)) now a
  = alert "Please fill in all required fields" a.
Proof.
  intros H. unfold saveNewOrder, clearNewOrderForm, new_orderData, cleared_text.
  unfold_order_fields.
  destruct H as [-> | [-> | [-> | ->]]]; cbn [truthy String.eqb negb orb];
    rewrite ?orb_true_r; reflexivity.
Qed.

Lemma cleared_form_is_refused_witness :
  saveNewOrder
    (Some (clearNewOrderForm (fun _ => true)
             (fun i => String.eqb i "newOrderLeverage") btc_limit_form))
    "2024-01-16 09:00:00" (page [])
  = alert "Please fill in all required fields" (page []).
Proof.
  apply cleared_form_is_refused. left. reflexivity.
Defined.

(** X9: the texts that [clearNewOrderForm] writes in the numeric inputs
    are the defaults of [saveNewOrder]: whichever inputs are of type
    number, the entry built from a cleared form is the one built from an
    empty form, with leverage 1, fee 0.001 and zeros elsewhere. *)
Theorem cleared_form_numbers_are_the_defaults (in_form number_typed : string -> bool)
    (f : NewOrderForm) (now : string) :
  (forall input_id, in_form input_id = true) ->
  new_orderData (clearNewOrderForm in_form number_typed f) now
  = new_orderData
      (mkNewOrderForm EmptyString EmptyString EmptyString EmptyString EmptyString
         None None None None None None None) now
  /\ leverage (new_orderData (clearNewOrderForm in_form number_typed f) now) = 1%Q
  /\ fee (new_orderData (clearNewOrderForm in_form number_typed f) now) = (1 # 1000)%Q.
Proof.
  intros Hin.
  assert (Heq : new_orderData (clearNewOrderForm in_form number_typed f) now
                = new_orderData
                    (mkNewOrderForm EmptyString EmptyString EmptyString EmptyString
                       EmptyString None None None None None None None) now).
  { unfold new_orderData, clearNewOrderForm, cleared_text, cleared_number.
    cbn [newOrderSymbol newOrderExchange newOrderSide newOrderType newOrderOpenType
         newOrderLeverage newOrderPrice newOrderAmount newOrderStopLoss
         newOrderTakeProfit newOrderFee newOrderAmountUsdt].
    rewrite !Hin. cbn [String.eqb Ascii.eqb Bool.eqb].
    destruct (number_typed "newOrderLeverage"), (number_typed "newOrderPrice"),
      (number_typed "newOrderAmount"), (number_typed "newOrderStopLoss"),
      (number_typed "newOrderTakeProfit"), (number_typed "newOrderFee"),
      (number_typed "newOrderAmountUsdt"); reflexivity. }
  split; [exact Heq|]. rewrite Heq. split; reflexivity.
Qed.

Lemma cleared_form_numbers_are_the_defaults_witness :
  let cleared := clearNewOrderForm (fun _ => true)
                   (fun i => negb (String.eqb i "newOrderSymbol")) btc_limit_form in
  new_orderData cleared "2024-01-16 09:00:00"
  = new_orderData
      (mkNewOrderForm EmptyString EmptyString EmptyString EmptyString EmptyString
         None None None None None None None) "2024-01-16 09:00:00"
  /\ leverage (new_orderData cleared "2024-01-16 09:00:00") = 1%Q
  /\ fee (new_orderData cleared "2024-01-16 09:00:00") = (1 # 1000)%Q.
Proof.
  cbv zeta. apply cleared_form_numbers_are_the_defaults. intros input_id. reflexivity.
Defined.

(** ** Editing a row *)

Lemma float_or_input (q d : Q) :
  float_or (if Qeq_bool q 0 then None else Some q) d = if Qeq_bool q 0 then d else q.
Proof.
  destruct (Qeq_bool q 0) eqn:Hq; cbn [float_or]; [reflexivity|]. now rewrite Hq.
Qed.

Lemma float_or_input_0 (q : Q) :
  (float_or (if Qeq_bool q 0 then None else Some q) 0 == q)%Q.
Proof.
  rewrite float_or_input. destruct (Qeq_bool q 0) eqn:Hq; [|reflexivity].
  symmetry. now apply Qeq_bool_eq.
Qed.

(** The entry that [saveOrder] builds from a row put in edit mode by
    [editOrder] and left as it is. *)
Lemma updatedOrder_edited_row (exchanges : list string) (o : Order) :
  updatedOrder (edited_row exchanges o) o
  = mkOrder (id o) (symbol o)
      (select_value exchanges (exchange o))
      (select_value validSides (side o))
      (select_value validTypes (type o))
      (open_type o)
      (if Qeq_bool (leverage o) 0 then 1%Q else leverage o)
      (if Qeq_bool (price o) 0 then 0%Q else price o)
      (if Qeq_bool (amount o) 0 then 0%Q else amount o)
      (if Qeq_bool (stop_loss o) 0 then 0%Q else stop_loss o)
      (if Qeq_bool (take_profit o) 0 then 0%Q else take_profit o)
      (fee o) (amount_usdt o)
      (Some (default 0%Q (pls o)))
      (Some (default 0%Q (pls_percentage o)))
      (Some (default 0%Q (price_liquidation o)))
      (Some (default 0%Q (take_profit_pls o)))
      (Some (default 0%Q (stop_loss_pls o)))
      (date o) (close_date o).
Proof.
  unfold updatedOrder, edited_row, cell_select, cell_input.
  cbn [exchangeSelect sideSelect typeSelect priceInput amountInput leverageInput
       stopLossInput takeProfitInput].
  change (edit_cell exchanges o (2 - 1)) with (Some (WSelect exchanges (exchange o))).
  change (edit_cell exchanges o (3 - 1)) with (Some (WSelect ["long"; "short"] (side o))).
  change (edit_cell exchanges o (4 - 1)) with (Some (WSelect ["market"; "limit"] (type o))).
  change (edit_cell exchanges o (5 - 1)) with (Some (WInput (input_text "price" o))).
  change (edit_cell exchanges o (6 - 1)) with (Some (WInput (input_text "amount" o))).
  change (edit_cell exchanges o (7 - 1)) with (Some (WInput (input_text "leverage" o))).
  change (edit_cell exchanges o (8 - 1)) with (Some (WInput (input_text "stop_loss" o))).
  change (edit_cell exchanges o (9 - 1)) with (Some (WInput (input_text "take_profit" o))).
  cbn [from_option]. unfold Datatypes.id.
  change (input_text "price" o) with (if Qeq_bool (price o) 0 then None else Some (price o)).
  change (input_text "amount" o) with (if Qeq_bool (amount o) 0 then None else Some (amount o)).
  change (input_text "leverage" o)
    with (if Qeq_bool (leverage o) 0 then None else Some (leverage o)).
  change (input_text "stop_loss" o)
    with (if Qeq_bool (stop_loss o) 0 then None else Some (stop_loss o)).
  change (input_text "take_profit" o)
    with (if Qeq_bool (take_profit o) 0 then None else Some (take_profit o)).
  now rewrite !float_or_input.
Qed.

Lemma edited_row_inputs (exchanges : list string) (o : Order) :
  edit_inputs (edited_row exchanges o) = 8.
Proof. reflexivity. Qed.

Lemma select_value_offered (options : list string) (selected : string) :
  includes options selected = true -> select_value options selected = selected.
Proof. unfold select_value. now intros ->. Qed.

Lemma select_value_not_offered (options : list string) (selected : string) :
  includes options selected = false ->
  select_value options selected = hd EmptyString options.
Proof. unfold select_value. now intros ->. Qed.

Lemma includes_select_value (first : string) (rest : list string) (selected : string) :
  includes (first :: rest) (select_value (first :: rest) selected) = true.
Proof.
  unfold select_value. destruct (includes (first :: rest) selected) eqn:H; [exact H|].
  cbn. now rewrite String.eqb_refl.
Qed.

Lemma Qeq_if_zero (q : Q) : ((if Qeq_bool q 0 then 0 else q) == q)%Q.
Proof.
  destruct (Qeq_bool q 0) eqn:Hq; [|reflexivity]. symmetry. now apply Qeq_bool_eq.
Qed.

(** X10: a row put in edit mode and saved with no input from the operator
    stages, when the exchange, side and type of its entry are among the
    options offered and its symbol is in the catalog, an entry with the
    same identifier, symbol, exchange, side, type, dates, fee and numeric
    values; only a leverage of zero comes back as 1, and the derived
    members that were absent are now zero. *)
Theorem untouched_edit_round_trip (symbol_ type_ : string) (index : nat) (a : App)
    (sd : SymbolData) (o : Order) :
  find_symbol symbol_ (ordersData a) = Some sd ->
  order_at sd type_ index = Some o ->
  includes (availableExchanges a) (exchange o) = true ->
  includes (availableSymbols a) (symbol o) = true ->
  includes validSides (side o) = true ->
  includes validTypes (type o) = true ->
  exists u,
    saveOrder symbol_ type_ index (Some (edited_row (availableExchanges a) o)) a
    = showConfirmationModal OpSave u a
    /\ id u = id o /\ symbol u = symbol o /\ exchange u = exchange o
    /\ side u = side o /\ type u = type o /\ open_type u = open_type o
    /\ date u = date o /\ close_date u = close_date o
    /\ fee u = fee o /\ amount_usdt u = amount_usdt o
    /\ (price u == price o)%Q /\ (amount u == amount o)%Q
    /\ (stop_loss u == stop_loss o)%Q /\ (take_profit u == take_profit o)%Q
    /\ leverage u = (if Qeq_bool (leverage o) 0 then 1%Q else leverage o)
    /\ pls u = Some (default 0%Q (pls o))
    /\ pls_percentage u = Some (default 0%Q (pls_percentage o))
    /\ price_liquidation u = Some (default 0%Q (price_liquidation o))
    /\ take_profit_pls u = Some (default 0%Q (take_profit_pls o))
    /\ stop_loss_pls u = Some (default 0%Q (stop_loss_pls o)).
Proof.
  intros Hsd Ho Hex Hsym Hside Hty.
  exists (updatedOrder (edited_row (availableExchanges a) o) o).
  split.
  - unfold saveOrder. rewrite Hsd, Ho, edited_row_inputs. cbn [Nat.eqb].
    rewrite updatedOrder_edited_row. unfold_order_fields.
    now rewrite (select_value_offered _ _ Hex), Hex, Hsym.
  - rewrite updatedOrder_edited_row. unfold_order_fields.
    rewrite (select_value_offered _ _ Hex), (select_value_offered _ _ Hside),
      (select_value_offered _ _ Hty).
    repeat (split; [first [reflexivity | apply Qeq_if_zero]|]). reflexivity.
Qed.

Lemma untouched_edit_round_trip_witness :
  let o := entry (IdNumber (Num 2)) "BTC/USDT" "binance" "market" in
  exists u,
    saveOrder "BTC/USDT" "positions" 0
      (Some (edited_row (availableExchanges two_entry_page) o)) two_entry_page
    = showConfirmationModal OpSave u two_entry_page
    /\ id u = id o /\ symbol u = symbol o /\ exchange u = exchange o
    /\ side u = side o /\ type u = type o /\ open_type u = open_type o
    /\ date u = date o /\ close_date u = close_date o
    /\ fee u = fee o /\ amount_usdt u = amount_usdt o
    /\ (price u == price o)%Q /\ (amount u == amount o)%Q
    /\ (stop_loss u == stop_loss o)%Q /\ (take_profit u == take_profit o)%Q
    /\ leverage u = (if Qeq_bool (leverage o) 0 then 1%Q else leverage o)
    /\ pls u = Some (default 0%Q (pls o))
    /\ pls_percentage u = Some (default 0%Q (pls_percentage o))
    /\ price_liquidation u = Some (default 0%Q (price_liquidation o))
    /\ take_profit_pls u = Some (default 0%Q (take_profit_pls o))
    /\ stop_loss_pls u = Some (default 0%Q (stop_loss_pls o)).
Proof.
  cbv zeta.
  apply (untouched_edit_round_trip "BTC/USDT" "positions" 0 two_entry_page
           (mkSymbolData "BTC/USDT"
              (Some (mkActive
                 (Some [entry (IdNumber (Num 1)) "BTC/USDT" "gate" "limit"])
                 (Some [entry (IdNumber (Num 2)) "BTC/USDT" "binance" "market"])))
              (Some []))
           (entry (IdNumber (Num 2)) "BTC/USDT" "binance" "market"));
    reflexivity.
Defined.

(** X11: the selects of a row in edit mode offer only the catalog's
    exchanges, long and short, market and limit.  An entry whose exchange
    is not in the catalog is staged, by an edit that touches nothing, with
    the first exchange of the catalog, and passes the exchange check; in
    the same way a side that is neither long nor short becomes long and a
    type that is neither market nor limit becomes market. *)
Theorem untouched_edit_replaces_unoffered_values (symbol_ type_ : string) (index : nat)
    (a : App) (sd : SymbolData) (o : Order) (first : string) (others : list string) :
  find_symbol symbol_ (ordersData a) = Some sd ->
  order_at sd type_ index = Some o ->
  availableExchanges a = first :: others ->
  includes (availableSymbols a) (symbol o) = true ->
  exists u,
    saveOrder symbol_ type_ index (Some (edited_row (availableExchanges a) o)) a
    = showConfirmationModal OpSave u a
    /\ id u = id o
    /\ (includes (availableExchanges a) (exchange o) = false -> exchange u = first)
    /\ (includes validSides (side o) = false -> side u = "long")
    /\ (includes validTypes (type o) = false -> type u = "market").
Proof.
  intros Hsd Ho Hexs Hsym.
  exists (updatedOrder (edited_row (availableExchanges a) o) o).
  split.
  - unfold saveOrder. rewrite Hsd, Ho, edited_row_inputs. cbn [Nat.eqb].
    rewrite updatedOrder_edited_row. unfold_order_fields.
    rewrite Hexs at 1 2. rewrite includes_select_value. cbn [negb].
    now rewrite Hsym.
  - rewrite updatedOrder_edited_row. unfold_order_fields.
    split; [reflexivity|]. split; [|split].
    + intros H. rewrite (select_value_not_offered _ _ H). now rewrite Hexs.
    + intros H. now rewrite (select_value_not_offered _ _ H).
    + intros H. now rewrite (select_value_not_offered _ _ H).
Qed.

Lemma untouched_edit_replaces_unoffered_values_witness :
  let o := entry (IdNumber (Num 7)) "BTC/USDT" "kraken" "stop" in
  let a := page [mkSymbolData "BTC/USDT" (Some (mkActive (Some [o]) (Some []))) (Some [])] in
  exists u,
    saveOrder "BTC/USDT" "orders" 0 (Some (edited_row (availableExchanges a) o)) a
    = showConfirmationModal OpSave u a
    /\ id u = id o
    /\ (includes (availableExchanges a) (exchange o) = false -> exchange u = "gate")
    /\ (includes validSides (side o) = false -> side u = "long")
    /\ (includes validTypes (type o) = false -> type u = "market").
Proof.
  cbv zeta.
  apply (untouched_edit_replaces_unoffered_values "BTC/USDT" "orders" 0
           (page [mkSymbolData "BTC/USDT"
                    (Some (mkActive
                       (Some [entry (IdNumber (Num 7)) "BTC/USDT" "kraken" "stop"])
                       (Some []))) (Some [])])
           (mkSymbolData "BTC/USDT"
              (Some (mkActive
                 (Some [entry (IdNumber (Num 7)) "BTC/USDT" "kraken" "stop"])
                 (Some []))) (Some []))
           (entry (IdNumber (Num 7)) "BTC/USDT" "kraken" "stop")
           "gate" ["bitget"; "bingx"; "mexc"; "binance"]);
    reflexivity.
Defined.

(** ** The confirmed save of a payload that is in the ledger *)

Lemma update_or_push_cons_eq (od x : Order) (l : list Order) :
  id x = id od -> update_or_push od (x :: l) = od :: l.
Proof.
  intros Hx. unfold update_or_push, findIndex_id. cbn [list_find].
  destruct (decide (id x = id od)) as [_|Hne]; [reflexivity|contradiction].
Qed.

Lemma update_or_push_cons_ne (od x : Order) (l : list Order) :
  id x <> id od -> update_or_push od (x :: l) = x :: update_or_push od l.
Proof.
  intros Hx. unfold update_or_push, findIndex_id. cbn [list_find].
  destruct (decide (id x = id od)) as [Heq|_]; [contradiction|].
  now destruct (list_find (fun p => id p = id od) l) as [[i y]|].
Qed.

Lemma update_or_push_found (od e : Order) (pre post : list Order) :
  Forall (fun p => id p <> id od) pre ->
  id e = id od ->
  update_or_push od (pre ++ e :: post) = pre ++ od :: post.
Proof.
  intros Hpre He. induction Hpre as [|x pre Hx _ IH]; cbn [app].
  - now apply update_or_push_cons_eq.
  - now rewrite update_or_push_cons_ne, IH.
Qed.

Lemma update_or_push_idem (od : Order) (l : list Order) :
  update_or_push od (update_or_push od l) = update_or_push od l.
Proof.
  induction l as [|x l IH].
  - change (update_or_push od []) with [od]. now apply update_or_push_cons_eq.
  - destruct (decide (id x = id od)) as [Heq|Hne].
    + rewrite (update_or_push_cons_eq od x l Heq). now apply update_or_push_cons_eq.
    + rewrite (update_or_push_cons_ne od x l Hne).
      now rewrite (update_or_push_cons_ne od x _ Hne), IH.
Qed.

(** X12: the confirmed save of a payload whose identifier is in the
    collection implied by its kind replaces, in place, the first entry of
    that collection with that identifier by the payload, in the first
    Symbol Ledger of the payload's symbol; every other entry and every
    other Symbol Ledger stays where it is, and the ledger is posted. *)
Theorem performSaveOperation_replaces_in_place (od : Order) (a : App)
    (before after : Ledger) (sd : SymbolData) (act : Active)
    (pre post : list Order) (e : Order) :
  required_fields od = true ->
  ordersData a = before ++ sd :: after ->
  Forall (other_symbol (symbol od)) before ->
  sd_symbol sd = symbol od ->
  active sd = Some act ->
  kind_collection od act = Some (pre ++ e :: post) ->
  Forall (fun p => id p <> id od) pre ->
  id e = id od ->
  performSaveOperation od a
  = post_orders
      (set_ordersData
         (before ++ mkSymbolData (sd_symbol sd)
                      (Some (with_kind_collection od act (pre ++ od :: post)))
                      (closed sd) :: after) a).
Proof.
  intros Hreq Hl Hbefore Hsd Hact Hcoll Hpre He.
  unfold performSaveOperation.
  rewrite required_fields_checked, Hreq, Hl. cbn [negb].
  rewrite save_loop_found by assumption.
  rewrite (save_in_symbol_kind od sd act _ Hact Hcoll).
  now rewrite update_or_push_found.
Qed.

Lemma performSaveOperation_replaces_in_place_witness :
  let held := entry (IdNumber (Num 1)) "BTC/USDT" "gate" "limit" in
  let other := entry (IdNumber (Num 2)) "BTC/USDT" "binance" "market" in
  let od := entry (IdNumber (Num 1)) "BTC/USDT" "mexc" "limit" in
  performSaveOperation od two_entry_page
  = post_orders
      (set_ordersData
         [mkSymbolData "BTC/USDT" (Some (mkActive (Some [od]) (Some [other]))) (Some [])]
         two_entry_page).
Proof.
  cbv zeta.
  apply (performSaveOperation_replaces_in_place
           (entry (IdNumber (Num 1)) "BTC/USDT" "mexc" "limit") two_entry_page [] []
           (mkSymbolData "BTC/USDT"
              (Some (mkActive
                 (Some [entry (IdNumber (Num 1)) "BTC/USDT" "gate" "limit"])
                 (Some [entry (IdNumber (Num 2)) "BTC/USDT" "binance" "market"])))
              (Some []))
           (mkActive
              (Some [entry (IdNumber (Num 1)) "BTC/USDT" "gate" "limit"])
              (Some [entry (IdNumber (Num 2)) "BTC/USDT" "binance" "market"]))
           [] [] (entry (IdNumber (Num 1)) "BTC/USDT" "gate" "limit")).
  - reflexivity.
  - reflexivity.
  - constructor.
  - reflexivity.
  - reflexivity.
  - reflexivity.
  - constructor.
  - reflexivity.
Defined.

Lemma kind_collection_with (od : Order) (act : Active) (l : list Order) :
  includes validTypes (type od) = true ->
  kind_collection od (with_kind_collection od act l) = Some l.
Proof.
  unfold kind_collection, with_kind_collection, includes, validTypes. cbn [existsb].
  destruct (String.eqb_spec (type od) "market") as [Hm|Hm]; [reflexivity|].
  destruct (String.eqb_spec (type od) "limit") as [Hl|Hl]; [reflexivity|].
  cbn. discriminate.
Qed.

Lemma with_kind_collection_twice (od : Order) (act : Active) (l l' : list Order) :
  with_kind_collection od (with_kind_collection od act l) l'
  = with_kind_collection od act l'.
Proof.
  unfold with_kind_collection.
  destruct (String.eqb (type od) "market"); [reflexivity|].
  now destruct (String.eqb (type od) "limit").
Qed.

Lemma newSymbolData_kind (od : Order) :
  includes validTypes (type od) = true ->
  exists act,
    newSymbolData od = mkSymbolData (symbol od) (Some act) None
    /\ kind_collection od act = Some [od]
    /\ with_kind_collection od act [od] = act.
Proof.
  unfold newSymbolData, kind_collection, with_kind_collection, includes, validTypes.
  cbn [existsb].
  destruct (String.eqb_spec (type od) "market") as [Hm|Hm].
  - intros _. exists (mkActive None (Some [od])).
    split; [reflexivity|split; reflexivity].
  - destruct (String.eqb_spec (type od) "limit") as [Hl|Hl]; [|cbn; discriminate].
    intros _. exists (mkActive (Some [od]) None).
    split; [reflexivity|split; reflexivity].
Qed.

(** X13: when every Symbol Ledger of the payload's symbol has the active
    collection implied by the payload's kind, confirming the same save a
    second time leaves the ledger as the first left it: the payload
    replaces itself. *)
Theorem performSaveOperation_twice (od : Order) (a : App) :
  includes validTypes (type od) = true ->
  kind_collection_present od (ordersData a) ->
  ordersData (performSaveOperation od (performSaveOperation od a))
  = ordersData (performSaveOperation od a).
Proof.
  intros Hty Hpresent. unfold performSaveOperation at 1 2 3.
  rewrite !required_fields_checked.
  destruct (required_fields od); cbn [negb]; [|reflexivity].
  destruct (first_symbol_split (symbol od) (ordersData a))
    as [Habsent|(before & sd & after & Hl & Hbefore & Hsd)].
  - rewrite (save_loop_absent od _ Habsent).
    cbn [ordersData post_orders set_ordersData].
    destruct (newSymbolData_kind od Hty) as (act & Hnew & Hcoll & Hwith).
    assert (Hsym : sd_symbol (newSymbolData od) = symbol od) by now rewrite Hnew.
    assert (Hact : active (newSymbolData od) = Some act) by now rewrite Hnew.
    rewrite (save_loop_found od (ordersData a) [] (newSymbolData od) Habsent Hsym).
    rewrite (save_in_symbol_kind od _ act [od] Hact Hcoll).
    cbn [fst snd ordersData post_orders set_ordersData].
    rewrite (update_or_push_cons_eq od od [] eq_refl), Hwith.
    now rewrite Hnew.
  - rewrite Hl in Hpresent. unfold kind_collection_present in Hpresent.
    apply Forall_app in Hpresent as [_ Hpresent].
    apply Forall_cons in Hpresent as [Hhere _].
    destruct (Hhere Hsd) as (act & coll & Hact & Hcoll).
    rewrite Hl, (save_loop_found od before after sd Hbefore Hsd).
    rewrite (save_in_symbol_kind od sd act coll Hact Hcoll).
    cbn [fst snd ordersData post_orders set_ordersData].
    rewrite save_loop_found by (assumption || exact Hsd).
    rewrite (save_in_symbol_kind od
               (mkSymbolData (sd_symbol sd)
                  (Some (with_kind_collection od act (update_or_push od coll)))
                  (closed sd))
               (with_kind_collection od act (update_or_push od coll))
               (update_or_push od coll) eq_refl
               (kind_collection_with od act _ Hty)).
    cbn [fst snd ordersData post_orders set_ordersData sd_symbol closed].
    now rewrite update_or_push_idem, with_kind_collection_twice.
Qed.

Lemma performSaveOperation_twice_witness :
  let od := entry (IdNumber (Num 9)) "BTC/USDT" "mexc" "limit" in
  ordersData (performSaveOperation od (performSaveOperation od two_entry_page))
  = ordersData (performSaveOperation od two_entry_page).
Proof.
  cbv zeta. apply performSaveOperation_twice.
  - reflexivity.
  - constructor; [|constructor]. intros _.
    exists (mkActive
              (Some [entry (IdNumber (Num 1)) "BTC/USDT" "gate" "limit"])
              (Some [entry (IdNumber (Num 2)) "BTC/USDT" "binance" "market"])),
      [entry (IdNumber (Num 1)) "BTC/USDT" "gate" "limit"].
    split; reflexivity.
Defined.

(** ** Where the insert puts the entry *)

Lemma find_symbol_cons (s : string) (x : SymbolData) (l : Ledger) :
  find_symbol s (x :: l)
  = if String.eqb (sd_symbol x) s then Some x else find_symbol s l.
Proof.
  unfold find_symbol. cbn [list_find].
  destruct (String.eqb_spec (sd_symbol x) s) as [Heq|Hne];
    destruct (decide (sd_symbol x = s)) as [Hd|Hd]; try contradiction; [reflexivity|].
  now destruct (list_find (fun sd => sd_symbol sd = s) l) as [[i y]|].
Qed.

Lemma find_symbol_found (s : string) (pre post : Ledger) (sd : SymbolData) :
  Forall (other_symbol s) pre -> sd_symbol sd = s ->
  find_symbol s (pre ++ sd :: post) = Some sd.
Proof.
  intros Hpre Hsd. induction Hpre as [|x pre Hx _ IH]; cbn [app];
    rewrite find_symbol_cons.
  - now rewrite (proj2 (String.eqb_eq _ _) Hsd).
  - now rewrite (proj2 (String.eqb_neq _ _) Hx).
Qed.

Lemma find_symbol_absent (s : string) (l : Ledger) :
  Forall (other_symbol s) l -> find_symbol s l = None.
Proof.
  intros Hl. induction Hl as [|x l Hx _ IH]; [reflexivity|].
  now rewrite find_symbol_cons, (proj2 (String.eqb_neq _ _) Hx).
Qed.

Lemma find_symbol_replaced (s : string) (pre post : Ledger) (x y : SymbolData) :
  sd_symbol x <> s -> sd_symbol y = sd_symbol x ->
  find_symbol s (pre ++ y :: post) = find_symbol s (pre ++ x :: post).
Proof.
  intros Hx Hy. induction pre as [|z pre IH]; cbn [app]; rewrite !find_symbol_cons.
  - rewrite Hy. now rewrite (proj2 (String.eqb_neq _ _) Hx).
  - now rewrite IH.
Qed.

Lemma find_symbol_pushed (s : string) (l : Ledger) (x : SymbolData) :
  sd_symbol x <> s -> find_symbol s (l ++ [x]) = find_symbol s l.
Proof.
  intros Hx. induction l as [|z l IH]; cbn [app]; rewrite !find_symbol_cons.
  - now rewrite (proj2 (String.eqb_neq _ _) Hx).
  - now rewrite IH.
Qed.

Lemma valid_type_cases (od : Order) :
  includes validTypes (type od) = true -> type od = "market" \/ type od = "limit".
Proof.
  unfold includes, validTypes. cbn [existsb].
  destruct (String.eqb_spec (type od) "market") as [Hm|_]; [now left|].
  destruct (String.eqb_spec (type od) "limit") as [Hl|_]; [now right|].
  discriminate.
Qed.

Lemma add_to_symbol_collections (o : Order) (sd : SymbolData) :
  (type o = "market" ->
   or_empty (active_positions (add_to_symbol o sd)) = or_empty (active_positions sd) ++ [o]
   /\ or_empty (active_orders (add_to_symbol o sd)) = or_empty (active_orders sd))
  /\ (type o = "limit" ->
      or_empty (active_orders (add_to_symbol o sd)) = or_empty (active_orders sd) ++ [o]
      /\ or_empty (active_positions (add_to_symbol o sd)) = or_empty (active_positions sd))
  /\ closed (add_to_symbol o sd) = closed sd.
Proof.
  unfold add_to_symbol, active_orders, active_positions, or_empty.
  split; [|split].
  - intros ->. cbn. destruct (active sd) as [[os ps]|]; cbn; tauto.
  - intros ->. cbn. destruct (active sd) as [[os ps]|]; cbn; tauto.
  - destruct (String.eqb (type o) "market"); [reflexivity|].
    now destruct (String.eqb (type o) "limit").
Qed.

Lemma place_order_collection (o : Order) (l : Ledger) :
  includes validTypes (type o) = true ->
  collection_of (kind_of_type (type o)) (symbol o) (place_order o l)
  = collection_of (kind_of_type (type o)) (symbol o) l ++ [o]
  /\ (forall kind s,
        kind <> kind_of_type (type o) \/ s <> symbol o ->
        collection_of kind s (place_order o l) = collection_of kind s l).
Proof.
  intros Hty. unfold place_order.
  destruct (first_symbol_split (symbol o) l)
    as [Habsent|(pre & sd & post & -> & Hpre & Hsd)].
  - rewrite (add_loop_absent o l Habsent). split.
    + unfold collection_of.
      rewrite (find_symbol_found (symbol o) l [] (new_symbol_entry o) Habsent eq_refl).
      rewrite (find_symbol_absent _ _ Habsent).
      unfold kind_of_type, new_symbol_entry.
      destruct (valid_type_cases o Hty) as [-> | ->]; reflexivity.
    + intros kind s [Hkind|Hs].
      * unfold collection_of.
        destruct (String.eqb_spec s (symbol o)) as [-> | Hne].
        -- rewrite (find_symbol_found (symbol o) l [] (new_symbol_entry o) Habsent eq_refl).
           rewrite (find_symbol_absent _ _ Habsent).
           unfold kind_of_type, new_symbol_entry in *.
           destruct (valid_type_cases o Hty) as [Hm|Hm]; rewrite Hm in *; cbn in *;
             destruct (String.eqb_spec kind "orders") as [Ho|Ho];
             destruct (String.eqb_spec kind "positions") as [Hp|Hp];
             destruct (String.eqb_spec kind "closed") as [Hc|Hc];
             try reflexivity; congruence.
        -- rewrite find_symbol_pushed; [reflexivity|]. cbn. congruence.
      * unfold collection_of. rewrite find_symbol_pushed; [reflexivity|].
        cbn. congruence.
  - rewrite (add_loop_found o pre post sd Hpre Hsd).
    destruct (add_to_symbol_collections o sd) as (Hmarket & Hlimit & Hclosed).
    assert (Hsd' : sd_symbol (add_to_symbol o sd) = symbol o).
    { rewrite <- Hsd. unfold add_to_symbol.
      destruct (String.eqb (type o) "market"); [reflexivity|].
      now destruct (String.eqb (type o) "limit"). }
    split.
    + unfold collection_of.
      rewrite (find_symbol_found _ pre post _ Hpre Hsd').
      rewrite (find_symbol_found _ pre post _ Hpre Hsd).
      unfold kind_of_type.
      destruct (valid_type_cases o Hty) as [Hm|Hm]; rewrite Hm; cbn.
      * apply (Hmarket Hm).
      * apply (Hlimit Hm).
    + intros kind s [Hkind|Hs].
      * unfold collection_of.
        destruct (String.eqb_spec s (symbol o)) as [-> | Hne].
        -- rewrite (find_symbol_found _ pre post _ Hpre Hsd').
           rewrite (find_symbol_found _ pre post _ Hpre Hsd).
           rewrite Hclosed. unfold kind_of_type in Hkind.
           destruct (valid_type_cases o Hty) as [Hm|Hm]; rewrite Hm in Hkind;
             cbn in Hkind;
             destruct (String.eqb_spec kind "orders") as [Ho|Ho];
             destruct (String.eqb_spec kind "positions") as [Hp|Hp];
             try reflexivity; try congruence;
             first [apply (Hmarket Hm) | apply (Hlimit Hm)].
        -- rewrite (find_symbol_replaced s pre post sd (add_to_symbol o sd));
             [reflexivity | congruence | congruence].
      * unfold collection_of.
        rewrite (find_symbol_replaced s pre post sd (add_to_symbol o sd));
          [reflexivity | congruence | congruence].
Qed.

Lemma stored_order_type_symbol (f : NewOrderForm) (now : string) (l : Ledger) :
  type (stored_order f now l) = newOrderType f
  /\ symbol (stored_order f now l) = newOrderSymbol f.
Proof. unfold stored_order. now destruct (truthy (newOrderOpenType f)). Qed.

(** X14: an accepted form adds its entry at the end of one table of its
    symbol, positions for a market entry and orders for a limit entry, and
    leaves every other table of every symbol as it was. *)
Theorem saveNewOrder_appends_to_its_table (f : NewOrderForm) (now : string) (a : App) :
  form_accepted f a = true ->
  collection_of (kind_of_type (newOrderType f)) (newOrderSymbol f)
    (ordersData (saveNewOrder (Some f) now a))
  = collection_of (kind_of_type (newOrderType f)) (newOrderSymbol f) (ordersData a)
    ++ [stored_order f now (ordersData a)]
  /\ (forall kind s,
        kind <> kind_of_type (newOrderType f) \/ s <> newOrderSymbol f ->
        collection_of kind s (ordersData (saveNewOrder (Some f) now a))
        = collection_of kind s (ordersData a)).
Proof.
  intros Hacc. rewrite (saveNewOrder_accepted f now a Hacc).
  cbn [ordersData post_orders set_ordersData].
  destruct (stored_order_type_symbol f now (ordersData a)) as [Hty Hsym].
  rewrite <- Hty, <- Hsym. apply place_order_collection.
  rewrite Hty. unfold form_accepted in Hacc. rewrite !andb_true_iff in Hacc.
  tauto.
Qed.

Lemma saveNewOrder_appends_to_its_table_witness :
  collection_of (kind_of_type (newOrderType btc_limit_form)) (newOrderSymbol btc_limit_form)
    (ordersData (saveNewOrder (Some btc_limit_form) "2024-01-16 09:10:00" two_entry_page))
  = collection_of (kind_of_type (newOrderType btc_limit_form))
      (newOrderSymbol btc_limit_form) (ordersData two_entry_page)
    ++ [stored_order btc_limit_form "2024-01-16 09:10:00" (ordersData two_entry_page)]
  /\ (forall kind s,
        kind <> kind_of_type (newOrderType btc_limit_form)
        \/ s <> newOrderSymbol btc_limit_form ->
        collection_of kind s
          (ordersData (saveNewOrder (Some btc_limit_form) "2024-01-16 09:10:00"
                         two_entry_page))
        = collection_of kind s (ordersData two_entry_page)).
Proof.
  apply saveNewOrder_appends_to_its_table. reflexivity.
Defined.

(** ** Staging twice, and staging across a reload *)

(** X15: staging overwrites what was staged before: after two stagings
    in a row the modal carries the second operation and payload only, as
    if the first had not happened. *)
Theorem last_staging_wins (op1 op2 : Operation) (od1 od2 : Order) (a : App) :
  showConfirmationModal op2 od2 (showConfirmationModal op1 od1 a)
  = showConfirmationModal op2 od2 a.
Proof.
  unfold showConfirmationModal.
  destruct (modal_present (confirmationModal a)) eqn:Hp; cbn; [reflexivity|].
  now rewrite Hp.
Qed.

(** X16: the confirm button carries a copy of the entry, taken when the
    close was staged.  When the ledger is loaded again between staging and
    confirming, the confirm closes that copy against the ledger just
    loaded, whatever that ledger holds, and posts the result. *)
Theorem reload_keeps_staged_payload (symbol_ type_ : string) (index : nat) (now : string)
    (a : App) (sd : SymbolData) (e : Order) (result : OrdersResult) :
  modal_present (confirmationModal a) = true ->
  find_symbol symbol_ (ordersData a) = Some sd ->
  order_at sd type_ index = Some e ->
  res_status result = "success" ->
  let a' := confirmationConfirmBtn_click now
              (loadOrdersData (Some result) (closeOrder symbol_ type_ index a)) in
  ordersData a' = close_loop (json_roundtrip e) now (res_data result)
  /\ requests a' = requests a ++ [ordersData a'].
Proof.
  intros Hpresent Hsd He Hstatus. cbv zeta.
  unfold closeOrder. rewrite Hsd, He.
  unfold showConfirmationModal. rewrite Hpresent.
  unfold loadOrdersData. rewrite Hstatus. cbn [String.eqb Ascii.eqb Bool.eqb].
  split; reflexivity.
Qed.

Lemma reload_keeps_staged_payload_witness :
  let e := entry (IdNumber (Num 2)) "BTC/USDT" "binance" "market" in
  let reloaded := [mkSymbolData "BTC/USDT" (Some (mkActive (Some []) (Some []))) (Some [])] in
  let a' := confirmationConfirmBtn_click "2024-01-16 09:00:00"
              (loadOrdersData (Some (mkOrdersResult "success" reloaded EmptyString))
                 (closeOrder "BTC/USDT" "positions" 0 two_entry_page)) in
  ordersData a' = close_loop (json_roundtrip e) "2024-01-16 09:00:00" reloaded
  /\ requests a' = requests two_entry_page ++ [ordersData a'].
Proof.
  cbv zeta.
  apply (reload_keeps_staged_payload "BTC/USDT" "positions" 0 "2024-01-16 09:00:00"
           two_entry_page
           (mkSymbolData "BTC/USDT"
              (Some (mkActive
                 (Some [entry (IdNumber (Num 1)) "BTC/USDT" "gate" "limit"])
                 (Some [entry (IdNumber (Num 2)) "BTC/USDT" "binance" "market"])))
              (Some []))
           (entry (IdNumber (Num 2)) "BTC/USDT" "binance" "market")
           (mkOrdersResult "success"
              [mkSymbolData "BTC/USDT" (Some (mkActive (Some []) (Some []))) (Some [])]
              EmptyString));
    reflexivity.
Defined.

Lemma saveNewOrder_fresh_identifier_witness :
  exists o,
    ledger_entries
      (ordersData (saveNewOrder (Some btc_limit_form) "2024-01-16 09:10:00" two_entry_page))
      ≡ₚ o :: ledger_entries (ordersData two_entry_page)
    /\ id o = IdNumber (Num (2 + 1))
    /\ (forall o', In o' (ledger_entries (ordersData two_entry_page)) ->
          js_lt (id_or_0 (id o')) (Num (2 + 1)))
    /\ ~ In (id o) (ledger_ids (ordersData two_entry_page)).
Proof.
  apply (saveNewOrder_fresh_identifier btc_limit_form "2024-01-16 09:10:00"
           two_entry_page 2).
  - reflexivity.
  - reflexivity.
  - reflexivity.
Defined.

Lemma cancelled_stage_is_unobservable_witness :
  same_to_operator
    (operator_run close_scenario
       (confirmationCancelBtn_click
          (showConfirmationModal OpSave
             (entry (IdNumber (Num 1)) "BTC/USDT" "mexc" "market") close_scenario_page)))
    (operator_run close_scenario close_scenario_page).
Proof.
  apply cancelled_stage_is_unobservable. reflexivity.
Defined.

(** ** The selects and the catalogs *)

Lemma refill_refill (items1 items2 options : list string) :
  options <> [] ->
  refill items2 (refill items1 options) = refill items2 options.
Proof.
  unfold refill. destruct options as [|first rest]; [congruence|]. reflexivity.
Qed.

Lemma fmap_refill_refill (items1 items2 : list string) (options : option (list string)) :
  has_first_option options ->
  refill items2 <$> (refill items1 <$> options) = refill items2 <$> options.
Proof.
  unfold has_first_option. destruct options as [l|]; [|reflexivity].
  intros H. cbn. f_equal. apply refill_refill. congruence.
Qed.

(** X19: when each of the four selects has a first option (the
    placeholder), [updateFilterOptions] forgets what the selects offered
    before: after it they hold the placeholder followed by the current
    catalog, so running it again, or after the catalog has changed, gives
    what a single run on the current catalog gives. *)
Theorem updateFilterOptions_follows_the_catalog (a1 a2 : App) (d : FilterSelects) :
  selects_have_first_option d ->
  updateFilterOptions a2 (updateFilterOptions a1 d) = updateFilterOptions a2 d.
Proof.
  intros (H1 & H2 & H3 & H4). unfold updateFilterOptions.
  cbn [exchangeFilter_options newOrderSymbol_options newOrderExchange_options
       orderExchange_options].
  now rewrite !fmap_refill_refill.
Qed.

Lemma updateFilterOptions_follows_the_catalog_witness :
  let d := mkFilterSelects (Some [EmptyString; "kraken"]) (Some [EmptyString])
             (Some [EmptyString]) None in
  updateFilterOptions (page []) (updateFilterOptions (set_availableExchanges ["gate"] (page [])) d)
  = updateFilterOptions (page []) d.
Proof.
  cbv zeta. apply updateFilterOptions_follows_the_catalog.
  unfold selects_have_first_option, has_first_option.
  split; [discriminate|split; [discriminate|split; discriminate]].
Defined.

(** X20: what [updateFilterOptions] keeps is the first option, whatever
    it is.  On a select without options the first run puts the catalog
    there and the second run keeps the first entry of the catalog as if it
    were the placeholder: that entry is then offered twice. *)
Theorem updateFilterOptions_without_placeholder (a : App) (d : FilterSelects)
    (first : string) (others : list string) :
  newOrderExchange_options d = Some [] ->
  availableExchanges a = first :: others ->
  newOrderExchange_options (updateFilterOptions a d) = Some (first :: others)
  /\ newOrderExchange_options (updateFilterOptions a (updateFilterOptions a d))
     = Some (first :: first :: others).
Proof.
  intros Hd Ha. unfold updateFilterOptions.
  cbn [exchangeFilter_options newOrderSymbol_options newOrderExchange_options
       orderExchange_options].
  rewrite Hd, Ha. split; reflexivity.
Qed.

Lemma updateFilterOptions_without_placeholder_witness :
  let d := mkFilterSelects None None (Some []) None in
  newOrderExchange_options (updateFilterOptions (page []) d)
  = Some ["gate"; "bitget"; "bingx"; "mexc"; "binance"]
  /\ newOrderExchange_options (updateFilterOptions (page []) (updateFilterOptions (page []) d))
     = Some ["gate"; "gate"; "bitget"; "bingx"; "mexc"; "binance"].
Proof.
  cbv zeta. apply updateFilterOptions_without_placeholder; reflexivity.
Defined.

Lemma refill_tail (items options : list string) (first x : string) (others : list string) :
  refill items options = first :: others -> In x others -> In x items.
Proof.
  unfold refill. destruct options as [|o rest]; cbn [take app].
  - intros ->. now right.
  - rewrite take_0. cbn. now intros [= _ ->].
Qed.

Lemma includes_truthy (l : list string) (s : string) :
  includes l s = true -> Forall (fun x => truthy x = true) l -> truthy s = true.
Proof.
  unfold includes. intros H Hall. apply existsb_exists in H as (x & Hx & Heq).
  apply String.eqb_eq in Heq. subst x.
  rewrite List.Forall_forall in Hall. now apply Hall.
Qed.

(** X21: after [updateFilterOptions] every option of the exchange and
    symbol selects of the new-entry form that comes after the first one is
    in the catalog: a form that holds two such options with a non-empty
    value, a side of the two sides and a type of the two types passes all
    the checks of [saveNewOrder]. *)
Theorem offered_options_are_accepted (a : App) (d : FilterSelects) (f : NewOrderForm)
    (first_exchange first_symbol : string) (exchanges symbols : list string) :
  newOrderExchange_options (updateFilterOptions a d) = Some (first_exchange :: exchanges) ->
  newOrderSymbol_options (updateFilterOptions a d) = Some (first_symbol :: symbols) ->
  In (newOrderExchange f) exchanges ->
  In (newOrderSymbol f) symbols ->
  truthy (newOrderExchange f) = true ->
  truthy (newOrderSymbol f) = true ->
  includes validSides (newOrderSide f) = true ->
  includes validTypes (newOrderType f) = true ->
  form_accepted f a = true.
Proof.
  unfold updateFilterOptions.
  cbn [newOrderExchange_options newOrderSymbol_options].
  intros Hex Hsym Hinex Hinsym Htex Htsym Hside Hty.
  destruct (newOrderExchange_options d) as [oex|]; [|discriminate].
  destruct (newOrderSymbol_options d) as [osym|]; [|discriminate].
  cbn in Hex, Hsym. injection Hex as Hex. injection Hsym as Hsym.
  unfold form_accepted.
  rewrite Htex, Htsym, Hside, Hty.
  rewrite (proj2 (includes_In _ _) (refill_tail _ _ _ _ _ Hex Hinex)).
  rewrite (proj2 (includes_In _ _) (refill_tail _ _ _ _ _ Hsym Hinsym)).
  rewrite (includes_truthy validSides _ Hside)
    by (repeat constructor).
  rewrite (includes_truthy validTypes _ Hty)
    by (repeat constructor).
  reflexivity.
Qed.

Lemma offered_options_are_accepted_witness :
  form_accepted btc_limit_form (page []) = true.
Proof.
  apply (offered_options_are_accepted (page [])
           (mkFilterSelects None (Some [EmptyString]) (Some [EmptyString]) None)
           btc_limit_form EmptyString EmptyString
           ["gate"; "bitget"; "bingx"; "mexc"; "binance"] ["BTC/USDT"; "ETH/USDT"]).
  - reflexivity.
  - reflexivity.
  - simpl. tauto.
  - simpl. tauto.
  - reflexivity.
  - reflexivity.
  - reflexivity.
  - reflexivity.
Defined.

(** ** The symbols modal: loading, searching, selecting *)

Lemma sort_insert_Permutation (s : string) (l : list string) :
  sort_insert s l ≡ₚ s :: l.
Proof.
  induction l as [|x l IH]; [reflexivity|]. cbn.
  destruct (String.leb s x); [reflexivity|].
  rewrite IH. apply Permutation_swap.
Qed.

Lemma Array_sort_Permutation (l : list string) : Array_sort l ≡ₚ l.
Proof.
  induction l as [|x l IH]; [reflexivity|]. cbn.
  now rewrite sort_insert_Permutation, IH.
Qed.

Lemma sort_insert_HdRel (x s : string) (l : list string) :
  string_le x s -> HdRel string_le x l -> HdRel string_le x (sort_insert s l).
Proof.
  intros Hxs Hl. destruct l as [|y l]; cbn; [now constructor|].
  destruct (String.leb s y); constructor; [assumption|].
  now inversion Hl.
Qed.

Lemma sort_insert_Sorted (s : string) (l : list string) :
  Sorted string_le l -> Sorted string_le (sort_insert s l).
Proof.
  induction 1 as [|x l Hl IH Hx]; cbn; [repeat constructor|].
  destruct (String.leb s x) eqn:Hsx.
  - repeat constructor; assumption.
  - constructor; [assumption|]. apply sort_insert_HdRel; [|assumption].
    destruct (String.leb_total s x) as [H|H]; [congruence|exact H].
Qed.

Lemma Array_sort_Sorted (l : list string) : Sorted string_le (Array_sort l).
Proof.
  induction l as [|x l IH]; cbn; [constructor|]. now apply sort_insert_Sorted.
Qed.

Lemma push_new_In (acc : list string) (x s : string) :
  In s (push_new acc x) <-> In s acc \/ s = x.
Proof.
  unfold push_new. destruct (includes acc x) eqn:Hx.
  - apply includes_In in Hx. split; [tauto|]. intros [H| ->]; assumption.
  - rewrite in_app_iff. cbn. intuition congruence.
Qed.

Lemma push_new_NoDup (acc : list string) (x : string) :
  NoDup acc -> NoDup (push_new acc x).
Proof.
  intros Hacc. unfold push_new. destruct (includes acc x) eqn:Hx; [assumption|].
  apply NoDup_app. split; [assumption|]. split; [|apply NoDup_singleton].
  intros y Hy Hyx. apply list_elem_of_singleton in Hyx. subst y.
  apply list_elem_of_In, includes_In in Hy. congruence.
Qed.

Lemma push_new_length (acc : list string) (x : string) :
  length (push_new acc x) <= S (length acc)
  /\ (~ In x acc -> length (push_new acc x) = S (length acc)).
Proof.
  unfold push_new. destruct (includes acc x) eqn:Hx.
  - apply includes_In in Hx. split; [lia|contradiction].
  - rewrite length_app. cbn. lia.
Qed.

Lemma fold_push_new_In (keys acc : list string) (s : string) :
  In s (fold_left push_new keys acc) <-> In s acc \/ In s keys.
Proof.
  revert acc. induction keys as [|k keys IH]; intros acc; cbn; [tauto|].
  rewrite IH, push_new_In. intuition congruence.
Qed.

Lemma fold_push_new_NoDup (keys acc : list string) :
  NoDup acc -> NoDup (fold_left push_new keys acc).
Proof.
  revert acc. induction keys as [|k keys IH]; intros acc Hacc; cbn; [assumption|].
  now apply IH, push_new_NoDup.
Qed.

Lemma fold_push_new_length (keys acc : list string) :
  length (fold_left push_new keys acc) <= length acc + length keys
  /\ (NoDup (acc ++ keys) ->
      length (fold_left push_new keys acc) = length acc + length keys).
Proof.
  revert acc. induction keys as [|k keys IH]; intros acc; cbn; [lia|].
  destruct (IH (push_new acc k)) as [Hle Heq].
  destruct (push_new_length acc k) as [Hle1 Heq1].
  split; [lia|]. intros Hnd.
  assert (Hk : ~ In k acc).
  { intros Hin. apply NoDup_app in Hnd as (_ & Hdisj & _).
    apply (Hdisj k); [now apply list_elem_of_In|]. left. }
  assert (Hpush : push_new acc k = acc ++ [k]).
  { unfold push_new. destruct (includes acc k) eqn:Hx; [|reflexivity].
    now apply includes_In in Hx. }
  rewrite Heq.
  - rewrite Heq1 by assumption. lia.
  - rewrite Hpush, <- app_assoc. exact Hnd.
Qed.

Lemma collect_symbols_all (data : ApiData) (acc : list string) :
  Forall (fun p => snd p <> None) data ->
  collect_symbols acc data = Some (fold_left push_new (listed_symbols data) acc).
Proof.
  intros Hdata. revert acc.
  induction Hdata as [|[exchange_ tokens] data Hx _ IH]; intros acc; [reflexivity|].
  cbn in Hx. destruct tokens as [keys|]; [|congruence].
  cbn [collect_symbols listed_symbols flat_map default from_option].
  unfold Datatypes.id. rewrite fold_left_app. apply IH.
Qed.

Lemma loadSymbols_response_all (data : ApiData) (st : SymbolsModal) :
  Forall (fun p => snd p <> None) data ->
  loadSymbols_response (Some data) st
  = let all := Array_sort (fold_left push_new (listed_symbols data) []) in
    renderSymbols
      (mkSymbolsModal (symbolsModal_show st) all (selectedSymbols st) all
         (symbolsList st) (length all) (selectedSymbolsCount st)).
Proof.
  intros Hdata. unfold loadSymbols_response. cbn [mbind option_bind].
  now rewrite (collect_symbols_all data [] Hdata).
Qed.

(** X22: when the symbols are loaded, the modal lists, in increasing
    order and each once, exactly the symbols that some exchange of the
    answer lists; nothing is filtered, the total shown is the number of
    symbols listed, and the selection is the one made before. *)
Theorem loadSymbols_lists_each_symbol_once (data : ApiData) (st : SymbolsModal) :
  Forall (fun p => snd p <> None) data ->
  let st' := loadSymbols_response (Some data) st in
  Sorted string_le (allSymbols st')
  /\ NoDup (allSymbols st')
  /\ (forall s, In s (allSymbols st') <-> In s (listed_symbols data))
  /\ filteredSymbols st' = allSymbols st'
  /\ totalSymbolsCount st' = length (allSymbols st')
  /\ selectedSymbols st' = selectedSymbols st.
Proof.
  intros Hdata. cbv zeta. rewrite (loadSymbols_response_all data st Hdata).
  cbn [renderSymbols updateSelectedCount allSymbols filteredSymbols
       totalSymbolsCount selectedSymbols].
  split; [apply Array_sort_Sorted|].
  split.
  { rewrite Array_sort_Permutation. apply fold_push_new_NoDup. constructor. }
  split; [|tauto].
  intros s. rewrite <- !list_elem_of_In, Array_sort_Permutation, !list_elem_of_In.
  rewrite fold_push_new_In. cbn. tauto.
Qed.

Lemma loadSymbols_lists_each_symbol_once_witness :
  let data := [("gate", Some ["ETH/USDT"; "BTC/USDT"]);
               ("mexc", Some ["BTC/USDT"; "ADA/USDT"])] in
  let st' := loadSymbols_response (Some data) modal_start in
  Sorted string_le (allSymbols st')
  /\ NoDup (allSymbols st')
  /\ (forall s, In s (allSymbols st') <-> In s (listed_symbols data))
  /\ filteredSymbols st' = allSymbols st'
  /\ totalSymbolsCount st' = length (allSymbols st')
  /\ selectedSymbols st' = selectedSymbols modal_start.
Proof.
  cbv zeta.
  apply (loadSymbols_lists_each_symbol_once
           [("gate", Some ["ETH/USDT"; "BTC/USDT"]);
            ("mexc", Some ["BTC/USDT"; "ADA/USDT"])] modal_start).
  repeat constructor; simpl; discriminate.
Defined.

Lemma updateStats_total (data : ApiData) :
  fst (updateStats data) = length (listed_symbols data).
Proof.
  unfold updateStats. cbn [fst].
  assert (H : forall n,
             fold_left (fun sum '(_, tokens) => sum + length (default [] tokens)) data n
             = n + length (listed_symbols data)).
  { induction data as [|[exchange_ tokens] data IH]; intros n;
      cbn [fold_left listed_symbols flat_map length]; [lia|].
    rewrite IH, length_app. unfold listed_symbols. lia. }
  now rewrite H.
Qed.

(** X23: the total that the symbols modal shows is at most the number of
    tokens that [updateStats] shows for the same answer, since a symbol
    listed by several exchanges is counted once by the modal and once per
    exchange by the statistics; the two numbers agree when no symbol is
    listed twice. *)
Theorem modal_total_at_most_total_tokens (data : ApiData) (st : SymbolsModal) :
  Forall (fun p => snd p <> None) data ->
  totalSymbolsCount (loadSymbols_response (Some data) st) <= fst (updateStats data)
  /\ (NoDup (listed_symbols data) ->
      totalSymbolsCount (loadSymbols_response (Some data) st) = fst (updateStats data)).
Proof.
  intros Hdata. rewrite (loadSymbols_response_all data st Hdata), updateStats_total.
  cbn [renderSymbols updateSelectedCount totalSymbolsCount].
  rewrite Array_sort_Permutation.
  destruct (fold_push_new_length (listed_symbols data) []) as [Hle Heq].
  cbn in *. split; [exact Hle|exact Heq].
Qed.

Lemma modal_total_at_most_total_tokens_witness :
  let data := [("gate", Some ["ETH/USDT"; "BTC/USDT"]);
               ("mexc", Some ["BTC/USDT"; "ADA/USDT"])] in
  totalSymbolsCount (loadSymbols_response (Some data) modal_start) <= fst (updateStats data)
  /\ (NoDup (listed_symbols data) ->
      totalSymbolsCount (loadSymbols_response (Some data) modal_start)
      = fst (updateStats data)).
Proof.
  cbv zeta.
  apply (modal_total_at_most_total_tokens
           [("gate", Some ["ETH/USDT"; "BTC/USDT"]);
            ("mexc", Some ["BTC/USDT"; "ADA/USDT"])] modal_start).
  repeat constructor; simpl; discriminate.
Defined.

(** X24: a search always filters the full list, not what the previous
    search left; it does not distinguish upper and lower case in the term;
    the empty term shows every symbol; and it never touches the
    selection. *)
Theorem search_filters_the_full_list (value1 value2 : string) (st : SymbolsModal) :
  symbolsSearch_input value2 (symbolsSearch_input value1 st) = symbolsSearch_input value2 st
  /\ symbolsSearch_input (toLowerCase value2) st = symbolsSearch_input value2 st
  /\ filteredSymbols (symbolsSearch_input EmptyString st) = allSymbols st
  /\ selectedSymbols (symbolsSearch_input value2 st) = selectedSymbols st.
Proof.
  split; [reflexivity|]. split; [|split; [|reflexivity]].
  - unfold symbolsSearch_input. now rewrite toLowerCase_idem.
  - unfold symbolsSearch_input.
    cbn [renderSymbols updateSelectedCount filteredSymbols allSymbols toLowerCase].
    apply forallb_filter_id, forallb_forall. intros s _. apply str_includes_empty.
Qed.

Lemma toggle_twice_selected (s : string) (X : gset string) :
  (if bool_decide (s ∈ (if bool_decide (s ∈ X) then X ∖ {[s]} else X ∪ {[s]}))
   then (if bool_decide (s ∈ X) then X ∖ {[s]} else X ∪ {[s]}) ∖ {[s]}
   else (if bool_decide (s ∈ X) then X ∖ {[s]} else X ∪ {[s]}) ∪ {[s]})
  = X.
Proof.
  destruct (bool_decide_reflect (s ∈ X)) as [Hin|Hout].
  - rewrite bool_decide_eq_false_2
      by (rewrite elem_of_difference, elem_of_singleton; tauto).
    apply set_eq. intros x.
    rewrite elem_of_union, elem_of_difference, elem_of_singleton.
    destruct (decide (x = s)) as [-> |Hne]; tauto.
  - rewrite bool_decide_eq_true_2
      by (rewrite elem_of_union, elem_of_singleton; tauto).
    apply set_eq. intros x.
    rewrite elem_of_difference, elem_of_union, elem_of_singleton.
    destruct (decide (x = s)) as [-> |Hne]; tauto.
Qed.

(** X25: clicking an item of the list adds its symbol to the selection
    when it is not selected and removes it when it is, and the counter
    follows: one more, or one less.  A second click on the same item
    brings back the selection there was, whatever is filtered. *)
Theorem toggleSymbol_twice (s : string) (st : SymbolsModal) :
  toggleSymbol s (toggleSymbol s st) = renderSymbols st
  /\ (s ∈ selectedSymbols st ->
      S (selectedSymbolsCount (toggleSymbol s st)) = size (selectedSymbols st))
  /\ (s ∉ selectedSymbols st ->
      selectedSymbolsCount (toggleSymbol s st) = S (size (selectedSymbols st))).
Proof.
  split; [|split].
  - unfold toggleSymbol, renderSymbols, updateSelectedCount.
    cbn [symbolsModal_show allSymbols selectedSymbols filteredSymbols symbolsList
         totalSymbolsCount selectedSymbolsCount].
    now rewrite toggle_twice_selected.
  - intros Hin. unfold toggleSymbol, renderSymbols, updateSelectedCount.
    cbn [selectedSymbolsCount selectedSymbols].
    rewrite bool_decide_eq_true_2 by assumption.
    rewrite size_difference by now apply singleton_subseteq_l.
    rewrite size_singleton.
    assert (size (selectedSymbols st) <> 0).
    { apply size_non_empty_iff. intros Hempty.
      apply (not_elem_of_empty (C:=gset string) s). now rewrite <- Hempty. }
    lia.
  - intros Hout. unfold toggleSymbol, renderSymbols, updateSelectedCount.
    cbn [selectedSymbolsCount selectedSymbols].
    rewrite bool_decide_eq_false_2 by assumption.
    rewrite size_union by now apply disjoint_singleton_r.
    rewrite size_singleton. lia.
Qed.

Lemma toggleSymbol_twice_witness :
  let st := toggleSymbol "BTC/USDT" modal_start in
  toggleSymbol "ETH/USDT" (toggleSymbol "ETH/USDT" st) = renderSymbols st
  /\ ("ETH/USDT" ∈ selectedSymbols st ->
      S (selectedSymbolsCount (toggleSymbol "ETH/USDT" st)) = size (selectedSymbols st))
  /\ ("ETH/USDT" ∉ selectedSymbols st ->
      selectedSymbolsCount (toggleSymbol "ETH/USDT" st) = S (size (selectedSymbols st))).
Proof.
  cbv zeta. apply toggleSymbol_twice.
Defined.

Lemma sublist_List_filter {A : Type} (P : A -> bool) (l : list A) :
  sublist (List.filter P l) l.
Proof.
  induction l as [|x l IH]; [constructor|]. cbn.
  destruct (P x); [now apply sublist_skip|now apply sublist_cons].
Qed.

Lemma renderSymbols_consistent (st : SymbolsModal) :
  Sorted string_le (allSymbols st) ->
  NoDup (allSymbols st) ->
  sublist (filteredSymbols st) (allSymbols st) ->
  modal_consistent (renderSymbols st).
Proof.
  intros Hsorted Hnd Hsub. unfold modal_consistent, renderSymbols, updateSelectedCount.
  cbn [allSymbols filteredSymbols symbolsList selectedSymbols selectedSymbolsCount].
  tauto.
Qed.

Lemma loadSymbols_response_consistent (response : option ApiData) (st : SymbolsModal) :
  modal_consistent (loadSymbols_response response st).
Proof.
  unfold loadSymbols_response.
  destruct (response ≫= collect_symbols []) as [collected|] eqn:Hc.
  - cbv zeta. apply renderSymbols_consistent;
      cbn [allSymbols filteredSymbols]; [apply Array_sort_Sorted| |reflexivity].
    rewrite Array_sort_Permutation.
    destruct response as [data|]; [|discriminate]. cbn in Hc.
    assert (H : forall data acc c, NoDup acc -> collect_symbols acc data = Some c -> NoDup c).
    { clear. induction data as [|[ex [keys|]] data IH]; intros acc c Hacc; cbn.
      - now intros [= <-].
      - apply IH. now apply fold_push_new_NoDup.
      - discriminate. }
    apply (H data [] collected); [constructor|exact Hc].
  - apply renderSymbols_consistent; cbn [allSymbols filteredSymbols];
      [constructor|constructor|reflexivity].
Qed.

Lemma modal_step_consistent (e : ModalEvent) (st : SymbolsModal) :
  modal_consistent st -> modal_consistent (modal_step e st).
Proof.
  intros Hst. pose proof Hst as (Hsorted & Hnd & Hsub & Hlist & Hcount).
  destruct e as [|response| |on_modal|value|s]; cbn [modal_step].
  - exact Hst.
  - apply loadSymbols_response_consistent.
  - exact Hst.
  - unfold symbolsModal_click. now destruct on_modal.
  - unfold symbolsSearch_input. apply renderSymbols_consistent;
      cbn [allSymbols filteredSymbols]; [assumption|assumption|].
    apply sublist_List_filter.
  - unfold toggleSymbol. apply renderSymbols_consistent;
      cbn [allSymbols filteredSymbols]; assumption.
Qed.

(** X26: whatever the operator does with the modal and however the loads
    answer, what the modal shows agrees with the variables of its closure:
    the symbols are in increasing order without repetition, the items
    shown are some of them, in that order, each marked selected exactly
    when its symbol is in the selection, and the selected counter is the
    size of the selection. *)
Theorem modal_stays_consistent (es : list ModalEvent) (st : SymbolsModal) :
  modal_consistent st -> modal_consistent (modal_run es st).
Proof.
  revert st. induction es as [|e es IH]; intros st Hst; [exact Hst|].
  apply IH, modal_step_consistent, Hst.
Qed.

Lemma modal_stays_consistent_witness :
  modal_consistent
    (modal_run
       [ClickSymbolsBtn;
        LoadSymbolsResponse (Some [("gate", Some ["ETH/USDT"; "BTC/USDT"])]);
        InputSymbolsSearch "btc"; ClickSymbolItem "BTC/USDT";
        LoadSymbolsResponse None; ClickSymbolsModalClose]
       modal_start).
Proof.
  apply modal_stays_consistent.
  unfold modal_consistent, modal_start. simpl.
  split; [constructor|split; [constructor|split; [constructor|split; reflexivity]]].
Defined.

(** ** The panels and the sections *)

Ltac ui_fields :=
  cbn [sidebar_collapsed rightSidePanel_show rightSidePanel_collapsed
       pairsPanel_show exchangesPanel_show pairsToggle_active
       exchangesToggle_active ordersToggle_active analyzerToggle_active
       ordersSection_display analyzerSection_display dashboardSection_display
       arbitrageSection_display settingsSection_display exchangesSection_display
       logsSection_display fst] in *.

Ltac ui_goals :=
  unfold ui_consistent, shown in *; ui_fields;
  repeat match goal with H : _ /\ _ |- _ => destruct H end;
  repeat match goal with |- _ /\ _ => split end;
  try solve [assumption | reflexivity | discriminate | congruence
            | intros; congruence | intros; discriminate].

Lemma menuToggle_click_consistent (u : UI) :
  ui_consistent u -> ui_consistent (fst (menuToggle_click u)).
Proof. destruct u. intros H. unfold menuToggle_click. ui_goals. Qed.

Lemma pairsToggle_click_consistent (w : Managers) (u : UI) :
  ui_consistent u -> ui_consistent (fst (pairsToggle_click w u)).
Proof.
  destruct u as [sc rs rc pp ep pa ea oa aa od ad dd rd sd xd ld]. intros H.
  unfold pairsToggle_click, toggleRightSidePanel. ui_fields.
  destruct rs, pp, ep; cbn [andb fst]; ui_goals.
Qed.

Lemma exchangesToggle_click_consistent (w : Managers) (u : UI) :
  ui_consistent u -> ui_consistent (fst (exchangesToggle_click w u)).
Proof.
  destruct u as [sc rs rc pp ep pa ea oa aa od ad dd rd sd xd ld]. intros H.
  unfold exchangesToggle_click, toggleRightSidePanel. ui_fields.
  destruct rs, pp, ep; cbn [andb fst]; ui_goals.
Qed.

Lemma ordersToggle_click_consistent (w : Managers) (u : UI) :
  ui_consistent u -> ui_consistent (fst (ordersToggle_click w u)).
Proof.
  destruct u as [sc rs rc pp ep pa ea oa aa od ad dd rd sd xd ld]. intros H.
  unfold ordersToggle_click. ui_fields.
  destruct (String.eqb od "block") eqn:Hod; cbn [fst].
  - ui_goals.
  - unfold showMainSection, add_active, display_block. ui_goals.
Qed.

Lemma analyzerToggle_click_consistent (w : Managers) (u : UI) :
  ui_consistent u -> ui_consistent (fst (analyzerToggle_click w u)).
Proof.
  destruct u as [sc rs rc pp ep pa ea oa aa od ad dd rd sd xd ld]. intros H.
  unfold analyzerToggle_click. ui_fields.
  destruct (String.eqb ad "block") eqn:Had; cbn [fst].
  - ui_goals.
  - unfold showMainSection, add_active, display_block. ui_goals.
Qed.

Lemma sidebarLink_click_consistent (link : SidebarLink) (u : UI) :
  ui_consistent (fst (sidebarLink_click link u)).
Proof.
  unfold sidebarLink_click, showSidebarSection, link_section, display_block.
  destruct link; cbn [fst]; unfold ui_consistent, shown; ui_fields;
    repeat split; try reflexivity; try discriminate; cbn; lia.
Qed.

Lemma ui_step_consistent (w : Managers) (e : UIEvent) (u : UI) :
  ui_consistent u -> ui_consistent (fst (ui_step w e u)).
Proof.
  destruct e as [| | | | |link]; cbn [ui_step].
  - apply menuToggle_click_consistent.
  - apply pairsToggle_click_consistent.
  - apply exchangesToggle_click_consistent.
  - apply ordersToggle_click_consistent.
  - apply analyzerToggle_click_consistent.
  - intros _. apply sidebarLink_click_consistent.
Qed.

Lemma ui_run_from (w : Managers) (es : list UIEvent) (u : UI) (loads : list DataLoad) :
  fst (fold_left
         (fun '(st, loads) e =>
            let '(st', more) := ui_step w e st in (st', loads ++ more))
         es (u, loads))
  = fst (ui_run w es u).
Proof.
  unfold ui_run. generalize (@nil DataLoad). revert u loads.
  induction es as [|e es IH]; intros u l1 l2; [reflexivity|].
  cbn [fold_left]. destruct (ui_step w e u) as [u' more]. apply IH.
Qed.

(** X27: the clicks on the toggles of the header and on the links of the
    sidebar keep the panels consistent, whichever managers are defined:
    the right panel has the class [show] exactly when it has not the class
    [collapsed]; at most one of the pairs and exchanges panels is shown,
    and only inside a shown right panel; the pairs, exchanges and orders
    toggles are active exactly when what they toggle is shown, the
    analyzer toggle only when the analyzer section is; the orders and
    analyzer sections are never shown together, nor two of the other
    sections. *)
Theorem panels_stay_consistent (w : Managers) (es : list UIEvent) (u : UI) :
  ui_consistent u -> ui_consistent (fst (ui_run w es u)).
Proof.
  revert u. induction es as [|e es IH]; intros u Hu; [exact Hu|].
  unfold ui_run. cbn [fold_left].
  pose proof (ui_step_consistent w e u Hu) as Hstep.
  destruct (ui_step w e u) as [u' more]. cbn [fst] in Hstep.
  rewrite ui_run_from. now apply IH.
Qed.

Lemma panels_stay_consistent_witness :
  ui_consistent
    (fst (ui_run no_analyzerManager
            [ClickOrdersToggle; ClickPairsToggle; ClickExchangesToggle;
             ClickSidebarLink AnalyzerLink; ClickAnalyzerToggle; ClickMenuToggle]
            ui_start)).
Proof.
  apply panels_stay_consistent.
  unfold ui_consistent, ui_start, shown. simpl.
  repeat split; try reflexivity; try discriminate.
Defined.

(** X28: from any state of the panels, consistent or not, a click on a
    link of the sidebar leaves a consistent state in which the section of
    the link is the only section shown and the right panel is closed; it
    starts no load, also when the section is the analyzer. *)
Theorem sidebar_link_resets_the_panels (link : SidebarLink) (u : UI) :
  ui_consistent (fst (sidebarLink_click link u))
  /\ (forall section,
        shown (section_display section (fst (sidebarLink_click link u)))
        = bool_decide (section = link_section link))
  /\ rightSidePanel_show (fst (sidebarLink_click link u)) = false
  /\ snd (sidebarLink_click link u) = [].
Proof.
  split; [apply sidebarLink_click_consistent|].
  split; [|split; [now destruct link|reflexivity]].
  intros section. destruct link, section; reflexivity.
Qed.

(** X29: a click on a toggle of the header starts the load of what it
    toggles exactly when it leaves it shown and the manager that loads it
    is defined on [window]: the symbols for the pairs panel and the
    exchanges for the exchanges panel with [symbolsManager], the ledger
    for the orders section with [ordersManager], the tokens for the
    analyzer section with [analyzerManager].  A click that hides starts
    nothing, and without its manager a section is shown and nothing is
    loaded. *)
Theorem toggle_loads_what_it_shows (w : Managers) (u : UI) :
  snd (pairsToggle_click w u)
  = (if symbolsManager w && pairsPanel_show (fst (pairsToggle_click w u))
     then [LoadSymbolsData] else [])
  /\ snd (exchangesToggle_click w u)
     = (if symbolsManager w && exchangesPanel_show (fst (exchangesToggle_click w u))
        then [LoadExchangesData] else [])
  /\ snd (ordersToggle_click w u)
     = (if ordersManager w && shown (ordersSection_display (fst (ordersToggle_click w u)))
        then [LoadOrdersData] else [])
  /\ snd (analyzerToggle_click w u)
     = (if analyzerManager w
           && shown (analyzerSection_display (fst (analyzerToggle_click w u)))
        then [LoadTokensData] else []).
Proof.
  destruct u as [sc rs rc pp ep pa ea oa aa od ad dd rd sd xd ld].
  destruct w as [sm om am].
  unfold pairsToggle_click, exchangesToggle_click, ordersToggle_click,
    analyzerToggle_click, toggleRightSidePanel, shown, load_if.
  cbn [symbolsManager ordersManager analyzerManager]. ui_fields.
  split; [now destruct sm, rs, pp, ep|]. split; [now destruct sm, rs, pp, ep|]. split.
  - now destruct om, (String.eqb od "block").
  - now destruct am, (String.eqb ad "block").
Qed.

(** X30: on a consistent page whose right panel is closed, a click on the
    pairs toggle opens the right panel on the pairs panel, with the toggle
    active and the exchanges panel hidden, and a second click closes it
    again and leaves the page in the state it was in before the two
    clicks; the same holds of the exchanges toggle and its panel. *)
Theorem panel_toggle_twice (w : Managers) (u : UI) :
  ui_consistent u ->
  rightSidePanel_show u = false ->
  (rightSidePanel_show (fst (pairsToggle_click w u)) = true
   /\ rightSidePanel_collapsed (fst (pairsToggle_click w u)) = false
   /\ pairsPanel_show (fst (pairsToggle_click w u)) = true
   /\ pairsToggle_active (fst (pairsToggle_click w u)) = true
   /\ exchangesPanel_show (fst (pairsToggle_click w u)) = false
   /\ fst (pairsToggle_click w (fst (pairsToggle_click w u))) = u)
  /\ (rightSidePanel_show (fst (exchangesToggle_click w u)) = true
      /\ rightSidePanel_collapsed (fst (exchangesToggle_click w u)) = false
      /\ exchangesPanel_show (fst (exchangesToggle_click w u)) = true
      /\ exchangesToggle_active (fst (exchangesToggle_click w u)) = true
      /\ pairsPanel_show (fst (exchangesToggle_click w u)) = false
      /\ fst (exchangesToggle_click w (fst (exchangesToggle_click w u))) = u).
Proof.
  destruct u as [sc rs rc pp ep pa ea oa aa od ad dd rd sd xd ld].
  intros H Hrs. unfold ui_consistent in H. ui_fields. subst rs.
  destruct H as (H1 & H2 & H3 & _ & H5 & H6 & _).
  destruct rc; [|discriminate].
  destruct pp; [now specialize (H2 eq_refl)|].
  destruct ep; [now specialize (H3 eq_refl)|].
  subst pa ea. split; (split; [reflexivity|]); repeat (split; [reflexivity|]);
    reflexivity.
Qed.

Lemma panel_toggle_twice_witness :
  (rightSidePanel_show (fst (pairsToggle_click all_managers ui_start)) = true
   /\ rightSidePanel_collapsed (fst (pairsToggle_click all_managers ui_start)) = false
   /\ pairsPanel_show (fst (pairsToggle_click all_managers ui_start)) = true
   /\ pairsToggle_active (fst (pairsToggle_click all_managers ui_start)) = true
   /\ exchangesPanel_show (fst (pairsToggle_click all_managers ui_start)) = false
   /\ fst (pairsToggle_click all_managers (fst (pairsToggle_click all_managers ui_start)))
      = ui_start)
  /\ (rightSidePanel_show (fst (exchangesToggle_click all_managers ui_start)) = true
      /\ rightSidePanel_collapsed (fst (exchangesToggle_click all_managers ui_start)) = false
      /\ exchangesPanel_show (fst (exchangesToggle_click all_managers ui_start)) = true
      /\ exchangesToggle_active (fst (exchangesToggle_click all_managers ui_start)) = true
      /\ pairsPanel_show (fst (exchangesToggle_click all_managers ui_start)) = false
      /\ fst (exchangesToggle_click all_managers
                (fst (exchangesToggle_click all_managers ui_start)))
         = ui_start).
Proof.
  apply panel_toggle_twice.
  - unfold ui_consistent, ui_start, shown. simpl.
    repeat split; try reflexivity; try discriminate.
  - reflexivity.
Defined.
